(** * A replicated file store: shallow embedding of [DFS.cpp]

    The development embeds the C++ class [DistributedFS] (node pool,
    metadata map, upload / download / delete, node failure and recovery,
    health check and re-replication, metadata persistence) as Rocq
    functions over an explicit state, and proves properties of them.

    Conventions of the embedding:
    - [int] values are [Z]; the only arithmetic on them is counting list
      elements and [id - 1], which stay far from the 32-bit limits, and
      [std::stoi], whose range check is written out;
    - [std::vector<Node>] is a [list Node] read with stdpp's lookup; an
      index outside the vector is undefined behaviour in C++ and is the
      result [Undefined] here;
    - [std::map<string, vector<int>>] is a [gmap string (list Z)];
      iteration over the map visits the keys in increasing order, as
      [std::map] does;
    - a node's directory is modelled by its content, a map from file
      names to file contents, together with a flag telling whether the
      operating system accepts modifications of it; [fs::copy] and
      [fs::remove] raise [filesystem_error] exactly when they are refused;
    - what the program prints on [cout] is a list of messages. *)

From Stdlib Require Import ZArith Lia Ascii String.
From stdpp Require Import base option list gmap strings sorting.

Local Open Scope string_scope.
Local Open Scope list_scope.
Local Open Scope Z_scope.

(** ** Text of the metadata file *)

Module Text.

(** Repeated [std::getline(stream, piece, delim)] until it fails: the
    pieces between delimiters; after the last delimiter a piece is
    produced only when at least one character remains. *)
Fixpoint getlines (delim : ascii) (s : string) : list string :=
  match s with
  | EmptyString => []
  | String c rest =>
      if Ascii.eqb c delim then EmptyString :: getlines delim rest
      else match getlines delim rest with
           | [] => [String c EmptyString]
           | p :: ps => String c p :: ps
           end
  end.

(** [s.find(c)]: position of the first occurrence, [None] for [npos]. *)
Fixpoint find (c : ascii) (s : string) : option nat :=
  match s with
  | EmptyString => None
  | String a rest =>
      if Ascii.eqb a c then Some O else S <$> find c rest
  end.

(** [s.substr(pos)] for [pos <= s.size()]. *)
Fixpoint substr_from (pos : nat) (s : string) : string :=
  match pos, s with
  | O, _ => s
  | S p, String _ rest => substr_from p rest
  | S _, EmptyString => EmptyString
  end.

(** [s.substr(0, n)]. *)
Definition substr_to (n : nat) (s : string) : string := substring 0 n s.

(** [isspace] in the C locale. *)
Definition isspace (c : ascii) : bool :=
  let n := N_of_ascii c in
  (N.eqb n 32 || (N.leb 9 n && N.leb n 13))%N.

Fixpoint skip_space (s : string) : string :=
  match s with
  | String c rest => if isspace c then skip_space rest else s
  | EmptyString => s
  end.

Definition digit_val (c : ascii) : option Z :=
  let n := N_of_ascii c in
  if (N.leb 48 n && N.leb n 57)%N then Some (Z.of_N n - 48) else None.

(** The longest prefix of decimal digits, read most significant digit
    first. [None]: no digit was read. *)
Fixpoint read_digits (s : string) (acc : option Z) : option Z :=
  match s with
  | EmptyString => acc
  | String c rest =>
      match digit_val c with
      | Some d => read_digits rest (Some (10 * default 0 acc + d))
      | None => acc
      end
  end.

Definition INT_MIN : Z := - 2147483648.
Definition INT_MAX : Z := 2147483647.

(** [std::stoi(s)]: leading white space, an optional sign, then decimal
    digits; what follows the digits is ignored. [None] stands for the
    two exceptions it throws: [invalid_argument] when there is no digit,
    [out_of_range] when the value does not fit an [int]. *)
Definition stoi (s : string) : option Z :=
  let s1 := skip_space s in
  let '(neg, s2) :=
    match s1 with
    | String "-"%char r => (true, r)
    | String "+"%char r => (false, r)
    | _ => (false, s1)
    end in
  match read_digits s2 None with
  | None => None
  | Some v =>
      let v' := if (neg : bool) then - v else v in
      if (INT_MIN <=? v') && (v' <=? INT_MAX) then Some v' else None
  end.

Definition digit_char (d : Z) : ascii := ascii_of_N (Z.to_N (48 + d)).

(** Decimal digits of a non-negative number, prepended to [acc]. *)
Fixpoint digits_of (fuel : nat) (n : Z) (acc : string) : string :=
  match fuel with
  | O => acc
  | S f =>
      let acc' := String (digit_char (n mod 10)) acc in
      if n / 10 =? 0 then acc' else digits_of f (n / 10) acc'
  end.

(** [stream << id] for an [int]. *)
Definition show_int (z : Z) : string :=
  if z <? 0 then String "-"%char (digits_of (S (Z.to_nat (- z))) (- z) EmptyString)
  else digits_of (S (Z.to_nat z)) z EmptyString.

(** The inner tokenizer of [loadMetadata]: pieces between commas, empty
    pieces skipped, each one converted by [stoi]. [None]: [stoi] threw. *)
Fixpoint parse_tokens (tokens : list string) : option (list Z) :=
  match tokens with
  | [] => Some []
  | token :: rest =>
      if decide (token = EmptyString) then parse_tokens rest
      else match stoi token with
           | None => None
           | Some id => cons id <$> parse_tokens rest
           end
  end.

Definition parse_ids (nodeStr : string) : option (list Z) :=
  parse_tokens (getlines ","%char nodeStr).

Definition show_ids (ids : list Z) : string :=
  foldr (fun id acc => show_int id +:+ String ","%char acc) EmptyString ids.

(** One line of the file, without its end of line. *)
Definition show_entry (entry : string * list Z) : string :=
  entry.1 +:+ String ":"%char (show_ids entry.2).

Definition NL : ascii := "010"%char.

Definition show_entries (entries : list (string * list Z)) : string :=
  foldr (fun e acc => show_entry e +:+ String NL acc) EmptyString entries.

End Text.

(** ** Data model *)

(** The content of a node's directory. [writable = false] stands for any
    condition under which the operating system refuses to create,
    overwrite or remove an entry of the directory. *)
Record Directory : Type := mkDirectory {
  blobs : gmap string string;
  writable : bool
}.

(** [class Node]. *)
Record Node : Type := mkNode {
  id : Z;
  active : bool;
  directory : Directory
}.

(** [Node::Node(int id)]: the node starts active; [dir] is what its
    directory holds on disk when the process starts. *)
Definition Node_new (i : Z) (dir : Directory) : Node :=
  {| id := i; active := true; directory := dir |}.

(** [Node::fail] and [Node::recover]. *)
Definition Node_fail (n : Node) : Node :=
  {| id := id n; active := false; directory := directory n |}.
Definition Node_recover (n : Node) : Node :=
  {| id := id n; active := true; directory := directory n |}.

Definition Node_with_directory (n : Node) (d : Directory) : Node :=
  {| id := id n; active := active n; directory := d |}.

(** The lines written on [cout] that report what an operation did. *)
Inductive Msg : Type :=
| MsgUploadNoSource                          (* Error: File not found. *)
| MsgUploadCopyError                         (* Error during file replication: ... *)
| MsgNotEnoughNodes                          (* Error: Not enough active nodes for 3 replicas! *)
| MsgUploadSuccess (usedNodes : list Z)      (* [UPLOAD SUCCESS] File replicated to nodes: ... *)
| MsgDownloadNoRecord                        (* Error: File not found in DFS. *)
| MsgDownloadSuccess (nodeID : Z)            (* [DOWNLOAD SUCCESS] File downloaded from Node ... *)
| MsgDownloadError                           (* Error during download: ... *)
| MsgAllReplicasUnavailable                  (* [ERROR] All replicas are unavailable. ... *)
| MsgDeleteNoRecord                          (* Error: File not found. *)
| MsgDeleteError                             (* Error during deletion: ... *)
| MsgDeleteSuccess                           (* [DELETE SUCCESS] File removed from DFS. *)
| MsgInvalidNode (nodeId : Z)                (* Error: Invalid node ID ... *)
| MsgNodeFailed (nodeId : Z)                 (* [NODE FAILED] Node ... is inactive. *)
| MsgNodeRecovered (nodeId : Z)              (* [NODE RECOVERED] Node ... is active. *)
| MsgWarning (file : string) (activeCount : Z) (* WARNING: File '...' has only ... active replicas! *)
| MsgRestored (file : string) (nodeId : Z)   (* RE-REPLICATED: File '...' restored to Node ... *)
| MsgAdded (file : string) (nodeId : Z)      (* RE-REPLICATED: File '...' added to Node ... *)
| MsgRepairError                             (* Error during re-replication: ... *)
| MsgInitialized (totalNodes : Z)            (* [DFS] Initialized with ... nodes. *)
| MsgMetadataLoaded                          (* [SYSTEM] Metadata loaded from disk. *)
| MsgLoadFailed                              (* Warning: Failed to load metadata: ... *)
| MsgNewline.                                (* the empty line after fail / recover *)

(** The two data members of [DistributedFS], and the part of the outside
    world its methods touch: the files of the working directory (upload
    sources, downloaded copies, the metadata file) and [cout]. *)
Record State : Type := mkState {
  nodes : list Node;
  metadata : gmap string (list Z);
  files : gmap string string;
  cout : list Msg
}.

Definition REPLICATION : Z := 3.
Definition METADATA_FILE : string := "metadata.txt".

Definition set_nodes (ns : list Node) (st : State) : State :=
  {| nodes := ns; metadata := metadata st; files := files st; cout := cout st |}.
Definition set_metadata (m : gmap string (list Z)) (st : State) : State :=
  {| nodes := nodes st; metadata := m; files := files st; cout := cout st |}.
Definition set_files (fs : gmap string string) (st : State) : State :=
  {| nodes := nodes st; metadata := metadata st; files := fs; cout := cout st |}.
Definition add_cout (msg : Msg) (st : State) : State :=
  {| nodes := nodes st; metadata := metadata st; files := files st;
     cout := cout st ++ [msg] |}.

(** ** Computations: state, [filesystem_error], undefined behaviour *)

Inductive result (A : Type) : Type :=
| Val (a : A)      (* normal completion *)
| Thrown           (* a [filesystem_error] is propagating *)
| Undefined.       (* the vector was indexed out of range *)
Arguments Val {A} a.
Arguments Thrown {A}.
Arguments Undefined {A}.

Definition M (A : Type) : Type := State -> result A * State.

Definition ret {A : Type} (a : A) : M A := fun st => (Val a, st).

Definition bind {A B : Type} (m : M A) (k : A -> M B) : M B :=
  fun st =>
    match m st with
    | (Val a, st') => k a st'
    | (Thrown, st') => (Thrown, st')
    | (Undefined, st') => (Undefined, st')
    end.

Definition throw {A : Type} : M A := fun st => (Thrown, st).
Definition undefined {A : Type} : M A := fun st => (Undefined, st).
Definition gets {A : Type} (f : State -> A) : M A := fun st => (Val (f st), st).
Definition modify (f : State -> State) : M unit := fun st => (Val tt, f st).
Definition print (msg : Msg) : M unit := modify (add_cout msg).

(** [try { body } catch (const fs::filesystem_error &) { ... }]: [None]
    when the handler has to run. What the body did before throwing stays. *)
Definition attempt {A : Type} (body : M A) : M (option A) :=
  fun st =>
    match body st with
    | (Val a, st') => (Val (Some a), st')
    | (Thrown, st') => (Val None, st')
    | (Undefined, st') => (Undefined, st')
    end.

Declare Scope dfs_scope.
Delimit Scope dfs_scope with dfs.
Notation "'let*' x := m 'in' k" := (bind m (fun x => k))
  (at level 10, x pattern, m at level 100, k at level 200) : dfs_scope.
Notation "m >> k" := (bind m (fun _ => k))
  (at level 85, right associativity) : dfs_scope.
Local Open Scope dfs_scope.

(** ** File-system primitives on a directory *)

(** [fs::copy(from, dir / filename, overwrite_existing)] where [from]
    holds [content]. *)
Definition dir_put (d : Directory) (filename content : string) : option Directory :=
  if writable d
  then Some {| blobs := <[filename := content]> (blobs d); writable := true |}
  else None.

(** [fs::remove(dir / filename)]: removing a file that is not there is not
    an error. *)
Definition dir_remove (d : Directory) (filename : string) : option Directory :=
  match blobs d !! filename with
  | None => Some d
  | Some _ =>
      if writable d
      then Some {| blobs := delete filename (blobs d); writable := true |}
      else None
  end.

(** ** Access to the node vector *)

(** The index [id - 1] of [nodes[id - 1]], when it is inside the vector. *)
Definition index_of_id (ns : list Node) (i : Z) : option nat :=
  if (1 <=? i) && (i <=? Z.of_nat (length ns)) then Some (Z.to_nat (i - 1)) else None.

Definition node_index (i : nat) : M Node :=
  fun st => match nodes st !! i with
            | Some n => (Val n, st)
            | None => (Undefined, st)
            end.

(** [nodes[nodeID - 1]]. *)
Definition node_at (nodeID : Z) : M Node :=
  fun st => match index_of_id (nodes st) nodeID with
            | Some i => node_index i st
            | None => (Undefined, st)
            end.

Definition set_node (i : nat) (n : Node) : M unit :=
  modify (fun st => set_nodes (<[i := n]> (nodes st)) st).

(** ** Metadata persistence *)

Definition key_le (e1 e2 : string * list Z) : Prop := String.leb e1.1 e2.1 = true.

#[global] Instance key_le_dec : RelDecision key_le.
Proof. intros e1 e2. unfold key_le. apply _. Defined.

(** The entries of the map in the order in which [std::map] iterates. *)
Definition entries (m : gmap string (list Z)) : list (string * list Z) :=
  merge_sort key_le (map_to_list m).

(** [saveMetadata]: the file is rewritten as a whole. *)
Definition saveMetadata : M unit :=
  modify (fun st =>
    set_files (<[METADATA_FILE := Text.show_entries (entries (metadata st))]> (files st)) st).

(** The body of the [while (getline(file, line))] loop for one line:
    [None] when [stoi] throws, otherwise the metadata after the line. *)
Definition load_line (line : string) (m : gmap string (list Z)) : option (gmap string (list Z)) :=
  if decide (line = EmptyString) then Some m
  else match Text.find ":"%char line with
       | None => Some m
       | Some colonPos =>
           let filename := Text.substr_to colonPos line in
           let nodeStr := Text.substr_from (S colonPos) line in
           match Text.parse_ids nodeStr with
           | None => None
           | Some nodeList =>
               if decide (nodeList = []) then Some m
               else Some (<[filename := nodeList]> m)
           end
       end.

(** The loop; the boolean tells whether it ran to the end of the file.
    Entries stored before an exception stay in the map. *)
Fixpoint load_lines (lines : list string) (m : gmap string (list Z)) : gmap string (list Z) * bool :=
  match lines with
  | [] => (m, true)
  | line :: rest =>
      match load_line line m with
      | None => (m, false)
      | Some m' => load_lines rest m'
      end
  end.

(** [loadMetadata]. *)
Definition loadMetadata : M unit :=
  let* text := gets (fun st => files st !! METADATA_FILE) in
  match text with
  | None => ret tt
  | Some text =>
      let* m := gets metadata in
      let '(m', finished) := load_lines (Text.getlines Text.NL text) m in
      modify (set_metadata m') >>
      print (if finished then MsgMetadataLoaded else MsgLoadFailed)
  end.

(** [DistributedFS::DistributedFS(int totalNodes)], started on a disk
    where node [i]'s directory holds [dirs i] and the working directory
    holds [fs]. *)
Definition DistributedFS_new (totalNodes : Z) (dirs : Z -> Directory)
    (fs : gmap string string) : result unit * State :=
  (print (MsgInitialized totalNodes) >> loadMetadata)
    {| nodes := (fun i => Node_new i (dirs i)) <$> seqZ 1 totalNodes;
       metadata := ∅; files := fs; cout := [] |}.

(** ** Engine operations *)

(** [fs::copy(filename, node.directory / filename, overwrite_existing)]
    for the node at index [i], the source holding [content]. *)
Definition copy_to_node (filename content : string) (i : nat) : M unit :=
  let* node := node_index i in
  match dir_put (directory node) filename content with
  | None => throw
  | Some d => set_node i (Node_with_directory node d)
  end.

(** [fs::copy(nodes[sourceNodeId - 1].directory / filename,
             target.directory / filename, overwrite_existing)],
    [target] being the node at index [i]. *)
Definition copy_from_node (filename : string) (sourceNodeId : Z) (i : nat) : M unit :=
  let* source := node_at sourceNodeId in
  match blobs (directory source) !! filename with
  | None => throw
  | Some content => copy_to_node filename content i
  end.

(** The [for (auto &node : nodes)] loop of [upload], over the indices
    still to visit. *)
Fixpoint upload_loop (filename content : string) (idxs : list nat)
    (usedNodes : list Z) (replicated : Z) : M (list Z * Z) :=
  match idxs with
  | [] => ret (usedNodes, replicated)
  | i :: rest =>
      let* node := node_index i in
      let* p :=
        (if active node
         then copy_to_node filename content i >>
              ret (usedNodes ++ [id node], replicated + 1)
         else ret (usedNodes, replicated)) in
      if p.2 =? REPLICATION then ret p
      else upload_loop filename content rest p.1 p.2
  end.

Definition all_indices : M (list nat) :=
  gets (fun st => seq 0 (length (nodes st))).

(** [upload]. *)
Definition upload (filename : string) : M unit :=
  let* source := gets (fun st => files st !! filename) in
  match source with
  | None => print MsgUploadNoSource
  | Some content =>
      let* idxs := all_indices in
      let* r := attempt (upload_loop filename content idxs [] 0) in
      match r with
      | None => print MsgUploadCopyError
      | Some (usedNodes, replicated) =>
          if replicated <? REPLICATION then print MsgNotEnoughNodes
          else
            modify (fun st => set_metadata (<[filename := usedNodes]> (metadata st)) st) >>
            print (MsgUploadSuccess usedNodes) >>
            saveMetadata
      end
  end.

(** The loop of [download]; [true] when it returned from inside. *)
Fixpoint download_loop (filename : string) (ids : list Z) : M bool :=
  match ids with
  | [] => ret false
  | nodeID :: rest =>
      let* node := node_at nodeID in
      if active node then
        match blobs (directory node) !! filename with
        | None => throw
        | Some content =>
            modify (fun st =>
              set_files (<["downloaded_" +:+ filename := content]> (files st)) st) >>
            print (MsgDownloadSuccess nodeID) >>
            ret true
        end
      else download_loop filename rest
  end.

(** [download]. *)
Definition download (filename : string) : M unit :=
  let* record := gets (fun st => metadata st !! filename) in
  match record with
  | None => print MsgDownloadNoRecord
  | Some ids =>
      let* r := attempt (download_loop filename ids) in
      match r with
      | None => print MsgDownloadError
      | Some true => ret tt
      | Some false => print MsgAllReplicasUnavailable
      end
  end.

(** The loop of [deleteFile]. *)
Fixpoint delete_loop (filename : string) (ids : list Z) : M unit :=
  match ids with
  | [] => ret tt
  | nodeID :: rest =>
      let* node := node_at nodeID in
      match dir_remove (directory node) filename with
      | None => throw
      | Some d =>
          set_node (Z.to_nat (nodeID - 1)) (Node_with_directory node d) >>
          delete_loop filename rest
      end
  end.

(** [deleteFile]. *)
Definition deleteFile (filename : string) : M unit :=
  let* record := gets (fun st => metadata st !! filename) in
  match record with
  | None => print MsgDeleteNoRecord
  | Some ids =>
      let* r := attempt (delete_loop filename ids) in
      match r with
      | None => print MsgDeleteError
      | Some _ =>
          modify (fun st => set_metadata (delete filename (metadata st)) st) >>
          print MsgDeleteSuccess >>
          saveMetadata
      end
  end.

(** The counting loop shared by [checkReplicaHealth] and
    [reReplicateFile]. *)
Fixpoint count_active (ids : list Z) (activeCount : Z) : M Z :=
  match ids with
  | [] => ret activeCount
  | i :: rest =>
      let* node := node_at i in
      count_active rest (if active node then activeCount + 1 else activeCount)
  end.

(** The search for [sourceNodeId]; [-1] when no listed node is active. *)
Fixpoint find_source (ids : list Z) : M Z :=
  match ids with
  | [] => ret (-1)
  | i :: rest =>
      let* node := node_at i in
      if active node then ret i else find_source rest
  end.

(** First loop of the [try] block of [reReplicateFile]: restore on the
    listed nodes that are inactive. *)
Fixpoint restore_loop (filename : string) (sourceNodeId : Z) (ids : list Z)
    (activeReplicas : Z) : M Z :=
  match ids with
  | [] => ret activeReplicas
  | i :: rest =>
      let* node := node_at i in
      if negb (active node) && (activeReplicas <? REPLICATION) then
        copy_from_node filename sourceNodeId (Z.to_nat (i - 1)) >>
        print (MsgRestored filename i) >>
        restore_loop filename sourceNodeId rest (activeReplicas + 1)
      else restore_loop filename sourceNodeId rest activeReplicas
  end.

(** [currentNodes], the reference to [metadata[filename]]. *)
Definition current_nodes (filename : string) : M (list Z) :=
  gets (fun st => default [] (metadata st !! filename)).

(** Second loop: add the file to active nodes that are not listed. *)
Fixpoint add_loop (filename : string) (sourceNodeId : Z) (idxs : list nat)
    (activeReplicas : Z) : M Z :=
  match idxs with
  | [] => ret activeReplicas
  | i :: rest =>
      let* node := node_index i in
      let* currentNodes := current_nodes filename in
      if active node && bool_decide (id node ∉ currentNodes) then
        copy_from_node filename sourceNodeId i >>
        modify (fun st =>
          set_metadata (<[filename := currentNodes ++ [id node]]> (metadata st)) st) >>
        print (MsgAdded filename (id node)) >>
        if REPLICATION <=? activeReplicas + 1 then ret (activeReplicas + 1)
        else add_loop filename sourceNodeId rest (activeReplicas + 1)
      else add_loop filename sourceNodeId rest activeReplicas
  end.

(** [reReplicateFile]. *)
Definition reReplicateFile (filename : string) : M unit :=
  let* record := gets (fun st => metadata st !! filename) in
  match record with
  | None => ret tt
  | Some currentNodes =>
      let* activeReplicas := count_active currentNodes 0 in
      if REPLICATION <=? activeReplicas then ret tt
      else
        let* sourceNodeId := find_source currentNodes in
        if sourceNodeId =? -1 then ret tt
        else
          let* r := attempt (
            let* activeReplicas :=
              restore_loop filename sourceNodeId currentNodes activeReplicas in
            let* idxs := all_indices in
            (if activeReplicas <? REPLICATION
             then add_loop filename sourceNodeId idxs activeReplicas >> ret tt
             else ret tt) >>
            saveMetadata) in
          match r with
          | None => print MsgRepairError
          | Some _ => ret tt
          end
  end.

(** The loop of [checkReplicaHealth] over the keys of the map. *)
Fixpoint health_loop (keys : list string) : M unit :=
  match keys with
  | [] => ret tt
  | file :: rest =>
      let* nodeList := current_nodes file in
      let* activeCount := count_active nodeList 0 in
      (if activeCount <? 2
       then print (MsgWarning file activeCount) >> reReplicateFile file
       else ret tt) >>
      health_loop rest
  end.

(** [checkReplicaHealth]. *)
Definition checkReplicaHealth : M unit :=
  let* keys := gets (fun st => (entries (metadata st)).*1) in
  health_loop keys.

Definition valid_node_id (i : Z) : M bool :=
  gets (fun st => negb ((i <? 1) || (Z.of_nat (length (nodes st)) <? i))).

(** [failNode]. *)
Definition failNode (i : Z) : M unit :=
  let* ok := valid_node_id i in
  if negb ok then print (MsgInvalidNode i)
  else
    let* node := node_at i in
    set_node (Z.to_nat (i - 1)) (Node_fail node) >>
    print (MsgNodeFailed i) >>
    checkReplicaHealth >>
    print MsgNewline.

(** [recoverNode]. *)
Definition recoverNode (i : Z) : M unit :=
  let* ok := valid_node_id i in
  if negb ok then print (MsgInvalidNode i)
  else
    let* node := node_at i in
    set_node (Z.to_nat (i - 1)) (Node_recover node) >>
    print (MsgNodeRecovered i) >>
    checkReplicaHealth >>
    print MsgNewline.

(** ** Predicates on the text of the metadata file *)

(** Every character of [s] satisfies [P]. *)
Fixpoint all_chars (P : ascii -> bool) (s : string) : bool :=
  match s with
  | EmptyString => true
  | String c rest => P c && all_chars P rest
  end.

(** Decimal digits. *)
Definition is_digit (a : ascii) : bool := bool_decide (is_Some (Text.digit_val a)).

(** The characters of a printed [int]. *)
Definition is_int_char (a : ascii) : bool := is_digit a || Ascii.eqb a "-"%char.

(** The values an [int] can take. *)
Definition int_range (z : Z) : Prop := Text.INT_MIN <= z <= Text.INT_MAX.

(** A file name that the metadata file can carry: it contains neither
    the separator [':'] nor an end of line. *)
Definition plain_name (filename : string) : Prop :=
  Text.find ":"%char filename = None /\ Text.find Text.NL filename = None.

(** A record that the metadata file can carry. *)
Definition good_entry (e : string * list Z) : Prop :=
  plain_name e.1 /\ e.2 <> [] /\ Forall int_range e.2.

(** The lines that [loadMetadata] passes over: blank lines, lines
    without a colon, and lines whose id list has no id (nothing but
    commas after the colon). *)
Definition skipped_line (line : string) : Prop :=
  line = EmptyString \/
  Text.find ":"%char line = None \/
  exists name rest,
    line = name +:+ String ":"%char rest /\
    Text.find ":"%char name = None /\
    all_chars (Ascii.eqb ","%char) rest = true.

(** [metadata[e.1] = e.2] for each entry of a list, in order. *)
Definition assign_all (es : list (string * list Z)) (m : gmap string (list Z)) :
    gmap string (list Z) :=
  foldl (fun m e => <[e.1 := e.2]> m) m es.

(** ** The pool and the records *)

(** [i] is the id of a node of the pool: [nodes[i - 1]] is inside the
    vector. *)
Definition in_pool (ns : list Node) (i : Z) : Prop :=
  1 <= i <= Z.of_nat (length ns).

(** What the constructor establishes: the node at index [k] has id
    [k + 1]. *)
Definition pool_wf (ns : list Node) : Prop :=
  forall k n, ns !! k = Some n -> id n = Z.of_nat k + 1.

(** The id of the node at index [k] of a pool built by the constructor. *)
Definition id_at (k : nat) : Z := Z.of_nat k + 1.

(** The index in the vector of the node with id [i]. *)
Definition idx (i : Z) : nat := Z.to_nat (i - 1).

(** Ids and activity flags of the pool, without the directories. *)
Definition shape (ns : list Node) : list (Z * bool) :=
  (fun n => (id n, active n)) <$> ns.

(** The invariant of the metadata: every recorded id is the id of a node
    of the pool and, when [nd] is set, no record lists an id twice. *)
Definition Inv (nd : bool) (st : State) : Prop :=
  pool_wf (nodes st) /\
  forall f ids, metadata st !! f = Some ids ->
    Forall (in_pool (nodes st)) ids /\ (nd = true -> NoDup ids).

(** Whether the node at index [k] is active. *)
Definition active_at (ns : list Node) (k : nat) : bool :=
  match ns !! k with
  | Some n => active n
  | None => false
  end.

(** Whether [i] is the id of a node of the pool that is active. *)
Definition is_active (ns : list Node) (i : Z) : bool :=
  match index_of_id ns i with
  | Some k => active_at ns k
  | None => false
  end.

(** Number of listed nodes that are active. *)
Definition active_count (ns : list Node) (ids : list Z) : Z :=
  Z.of_nat (length (filter (fun i => is_active ns i = true) ids)).

(** The first listed node that is active. *)
Definition first_active (ns : list Node) (ids : list Z) : option Z :=
  head (filter (fun i => is_active ns i = true) ids).

(** The ids of the active nodes, in ascending order. *)
Definition active_ids (ns : list Node) : list Z :=
  filter (fun i => is_active ns i = true) (seqZ 1 (Z.of_nat (length ns))).

(** The content of [filename] in the directory of the node with id
    [i], if the node holds it. *)
Definition blob_on (ns : list Node) (i : Z) (filename : string) : option string :=
  match index_of_id ns i with
  | Some k => ns !! k ≫= fun n => blobs (directory n) !! filename
  | None => None
  end.

(** Whether the directory of the node at index [k] accepts writes. *)
Definition writable_at (ns : list Node) (k : nat) : bool :=
  match ns !! k with
  | Some n => writable (directory n)
  | None => false
  end.

(** No directory of the pool refuses a copy. *)
Definition all_writable (ns : list Node) : Prop :=
  forall k n, ns !! k = Some n -> writable (directory n) = true.

(** [fs::remove] of [filename] on the node with id [i] raises an error:
    the file is there and the directory refuses the modification. *)
Definition refuses_remove (ns : list Node) (filename : string) (i : Z) : bool :=
  match index_of_id ns i with
  | Some k =>
      match ns !! k with
      | Some n => bool_decide (is_Some (blobs (directory n) !! filename)) &&
                  negb (writable (directory n))
      | None => false
      end
  | None => false
  end.

(** ** Outcomes of computations *)

(** The outcome [x] of a computation is not undefined behaviour, and
    satisfies [Q] when it completed and [E] when it threw. *)
Definition sat {A : Type} (x : result A * State)
    (Q : A -> State -> Prop) (E : State -> Prop) : Prop :=
  match x with
  | (Val a, st') => Q a st'
  | (Thrown, st') => E st'
  | (Undefined, _) => False
  end.

(** ** What the operations leave behind *)

(** The node [n] after [filename] was written with [content] in its
    directory. *)
Definition put_blob (filename content : string) (n : Node) : Node :=
  Node_with_directory n
    {| blobs := <[filename := content]> (blobs (directory n)); writable := true |}.

(** The pool after [filename] was written with [content] on the nodes
    at the indices [targets]. *)
Definition put_all (filename content : string) (targets : list nat)
    (ns : list Node) : list Node :=
  foldl (fun ns k => alter (put_blob filename content) k ns) ns targets.

(** The indices at which [upload] places a file: the first
    [REPLICATION - replicated] active nodes among [idxs]. *)
Definition placement (ns : list Node) (idxs : list nat) (replicated : Z) : list nat :=
  take (Z.to_nat (REPLICATION - replicated))
       (filter (fun k => active_at ns k = true) idxs).

(** The state that a successful upload of [f], whose source holds [c],
    leaves: the copies are on the nodes of the placement, the record of
    [f] lists them, the success is reported and the metadata is saved. *)
Definition upload_success_state (f c : string) (st : State) : State :=
  let targets := placement (nodes st) (seq 0 (length (nodes st))) 0 in
  let used := id_at <$> targets in
  let m := <[f := used]> (metadata st) in
  {| nodes := put_all f c targets (nodes st);
     metadata := m;
     files := <[METADATA_FILE := Text.show_entries (entries m)]> (files st);
     cout := cout st ++ [MsgUploadSuccess used] |}.

(** The state after a download of [f] that found [c] on node [i]. *)
Definition download_success_state (f c : string) (i : Z) (st : State) : State :=
  add_cout (MsgDownloadSuccess i)
    (set_files (<["downloaded_" +:+ f := c]> (files st)) st).

(** The node [n] after [fs::remove] of [filename] in its directory; a
    refused removal changes nothing. *)
Definition remove_blob (filename : string) (n : Node) : Node :=
  match dir_remove (directory n) filename with
  | Some d => Node_with_directory n d
  | None => n
  end.

(** The pool after [filename] was removed on the nodes with ids [ids]. *)
Definition remove_all (filename : string) (ids : list Z) (ns : list Node) : list Node :=
  foldl (fun ns i => alter (remove_blob filename) (Z.to_nat (i - 1)) ns) ns ids.

(** The state that a successful delete of [f], recorded on [ids],
    leaves. *)
Definition delete_success_state (f : string) (ids : list Z) (st : State) : State :=
  let m := delete f (metadata st) in
  {| nodes := remove_all f ids (nodes st);
     metadata := m;
     files := <[METADATA_FILE := Text.show_entries (entries m)]> (files st);
     cout := cout st ++ [MsgDeleteSuccess] |}.

(** The candidates of a repair, in the words of the specification's
    [chooseRepairTargets]. First the listed nodes that are inactive, in
    the order of the record. *)
Definition ghost_nodes (ns : list Node) (ids : list Z) : list Z :=
  filter (fun i => is_active ns i = false) ids.

(** Then the active nodes that are not listed, in ascending id order. *)
Definition fresh_nodes (ns : list Node) (ids : list Z) : list Z :=
  filter (fun i => is_active ns i = true /\ i ∉ ids) (seqZ 1 (Z.of_nat (length ns))).

(** The deficit [R - countActive(replicaNodes)]. *)
Definition deficit (ns : list Node) (ids : list Z) : nat :=
  Z.to_nat (REPLICATION - active_count ns ids).

(** The targets of a repair: candidates are taken until the deficit is
    covered or none is left. *)
Definition chooseRepairTargets (ns : list Node) (ids : list Z) : list Z :=
  take (deficit ns ids) (ghost_nodes ns ids ++ fresh_nodes ns ids).

(** The targets on which the file is restored. *)
Definition repair_restored (ns : list Node) (ids : list Z) : list Z :=
  take (deficit ns ids) (ghost_nodes ns ids).

(** The targets that are added to the record. *)
Definition repair_added (ns : list Node) (ids : list Z) : list Z :=
  take (deficit ns ids - length (ghost_nodes ns ids)) (fresh_nodes ns ids).

(** The state that a repair of [f], recorded on [ids], leaves when it
    copies the content [c]. *)
Definition repair_state (f c : string) (ids : list Z) (st : State) : State :=
  let restored := repair_restored (nodes st) ids in
  let added := repair_added (nodes st) ids in
  let m := <[f := ids ++ added]> (metadata st) in
  {| nodes := put_all f c (idx <$> (restored ++ added)) (nodes st);
     metadata := m;
     files := <[METADATA_FILE := Text.show_entries (entries m)]> (files st);
     cout := cout st ++ (MsgRestored f <$> restored) ++ (MsgAdded f <$> added) |}.

(** The messages that a repair prints. *)
Definition is_repair_msg (msg : Msg) : Prop :=
  match msg with
  | MsgRestored _ _ | MsgAdded _ _ | MsgRepairError => True
  | _ => False
  end.

(** What a repair of [f] may change: the directories of the nodes, the
    record of [f], the metadata file, and [cout], where it only adds
    messages of its own; the invariant is kept. *)
Definition repair_rel (f : string) (nd : bool) (st st' : State) : Prop :=
  shape (nodes st') = shape (nodes st) /\
  (forall g, g <> f -> metadata st' !! g = metadata st !! g) /\
  Inv nd st' /\
  exists out, cout st' = cout st ++ out /\ Forall is_repair_msg out.

(** The part of [repair_rel] that needs no invariant: a repair of [f]
    keeps the ids and the flags of the nodes and the records of the
    other files. *)
Definition frame_rel (f : string) (st st' : State) : Prop :=
  shape (nodes st') = shape (nodes st) /\
  forall g, g <> f -> metadata st' !! g = metadata st !! g.

(** The keys of the metadata in the order of iteration. *)
Definition keys (st : State) : list string := (entries (metadata st)).*1.

(** The record of [file] lists fewer than two active nodes. *)
Definition degraded (st : State) (file : string) : Prop :=
  active_count (nodes st) (default [] (metadata st !! file)) < 2.

#[global] Instance degraded_dec st file : Decision (degraded st file).
Proof. unfold degraded. apply _. Defined.

(** The state in which the health check of [failNode] ([recover] unset)
    or [recoverNode] ([recover] set) starts: the flag of node [i] is
    written and the transition is reported. *)
Definition flip_node (recover : bool) (i : Z) (st : State) : State :=
  add_cout (if recover then MsgNodeRecovered i else MsgNodeFailed i)
    (set_nodes
       (alter (if recover then Node_recover else Node_fail) (Z.to_nat (i - 1)) (nodes st))
       st).

(** The body of the loop of [checkReplicaHealth] without its test: a
    warning and a repair for each file of a list, in order. *)
Fixpoint warn_and_repair (flagged : list string) : M unit :=
  match flagged with
  | [] => ret tt
  | file :: rest =>
      let* nodeList := current_nodes file in
      let* activeCount := count_active nodeList 0 in
      print (MsgWarning file activeCount) >>
      reReplicateFile file >>
      warn_and_repair rest
  end.

(** ** States used as examples *)

Definition empty_dir : Directory := {| blobs := ∅; writable := true |}.

(** A file named [a:b] recorded on nodes 1, 2 and 3. *)
Definition st_colon : State :=
  {| nodes := []; metadata := {[ "a:b" := [1; 2; 3] ]}; files := ∅; cout := [] |}.

(** Two records, one of them with an id that is not a node of the pool. *)
Definition st_two_files : State :=
  {| nodes := []; metadata := {[ "b.txt" := [1; 2; 3]; "a.txt" := [4; 2; -7] ]};
     files := ∅; cout := [] |}.

Definition dir_with (filename content : string) : Directory :=
  {| blobs := {[ filename := content ]}; writable := true |}.

(** The pool of four nodes of [main], after [a.txt] was uploaded: nodes
    1, 2 and 3 hold it. The flags are the activity of the four nodes. *)
Definition pool4 (a1 a2 a3 a4 : bool) : list Node :=
  [ {| id := 1; active := a1; directory := dir_with "a.txt" "hello" |};
    {| id := 2; active := a2; directory := dir_with "a.txt" "hello" |};
    {| id := 3; active := a3; directory := dir_with "a.txt" "hello" |};
    {| id := 4; active := a4; directory := empty_dir |} ].

Definition st_abc (a1 a2 a3 a4 : bool) : State :=
  {| nodes := pool4 a1 a2 a3 a4;
     metadata := {[ "a.txt" := [1; 2; 3] ]};
     files := {[ "a.txt" := "hello" ]};
     cout := [] |}.

(** The same pool with a new file [b.txt] in the working directory,
    ready to be uploaded. *)
Definition st_new_file (a1 a2 a3 a4 : bool) : State :=
  {| nodes := pool4 a1 a2 a3 a4;
     metadata := {[ "a.txt" := [1; 2; 3] ]};
     files := {[ "a.txt" := "hello"; "b.txt" := "data" ]};
     cout := [] |}.

(** Node 1 is listed for [a.txt] and active but its directory does not
    hold the file; nodes 2 and 3 hold it. *)
Definition st_stale : State :=
  {| nodes :=
       [ {| id := 1; active := true; directory := empty_dir |};
         {| id := 2; active := true; directory := dir_with "a.txt" "hello" |};
         {| id := 3; active := true; directory := dir_with "a.txt" "hello" |};
         {| id := 4; active := true; directory := empty_dir |} ];
     metadata := {[ "a.txt" := [1; 2; 3] ]};
     files := ∅;
     cout := [] |}.

(** [a.txt] on nodes 1, 2 and 3, all active; the directory of node 2
    refuses modifications. *)
Definition st_locked : State :=
  {| nodes :=
       [ {| id := 1; active := true; directory := dir_with "a.txt" "hello" |};
         {| id := 2; active := true;
            directory := {| blobs := {[ "a.txt" := "hello" ]}; writable := false |} |};
         {| id := 3; active := true; directory := dir_with "a.txt" "hello" |};
         {| id := 4; active := true; directory := empty_dir |} ];
     metadata := {[ "a.txt" := [1; 2; 3] ]};
     files := ∅;
     cout := [] |}.

(** [a.txt] recorded on nodes 1 and 2 only, node 1 failed; nodes 3 and
    4 are active and hold nothing. *)
Definition st_short : State :=
  {| nodes :=
       [ {| id := 1; active := false; directory := dir_with "a.txt" "hello" |};
         {| id := 2; active := true; directory := dir_with "a.txt" "hello" |};
         {| id := 3; active := true; directory := empty_dir |};
         {| id := 4; active := true; directory := empty_dir |} ];
     metadata := {[ "a.txt" := [1; 2] ]};
     files := ∅;
     cout := [] |}.

(** ** Reports *)

(** The lines that [listFiles] and [showNodes] write on [cout]. *)
Inductive Report : Type :=
| ReportNoFiles                                  (* (Empty) No files stored. *)
| ReportFilesHeader                              (* FILES IN DFS: *)
| ReportFile (filename : string) (ids : list Z)  (* - ... → Nodes: ... *)
| ReportNodesHeader                              (* NODE STATUS: *)
| ReportNode (nodeId : Z) (isActive : bool).     (* Node ...: Active / Failed *)

(** [listFiles]: it reads the metadata and changes nothing. *)
Definition listFiles (st : State) : list Report :=
  if decide (metadata st = ∅) then [ReportNoFiles]
  else ReportFilesHeader :: ((fun e => ReportFile e.1 e.2) <$> entries (metadata st)).

(** [showNodes]. *)
Definition showNodes (st : State) : list Report :=
  ReportNodesHeader :: ((fun n => ReportNode (id n) (active n)) <$> nodes st).

(** ** The command loop of [main] *)

(** The input of a session is the list of the lines that
    [getline(cin, line)] reads, one per iteration of the loop; what the
    loop does once [cin] is exhausted is not modelled. The string stream
    built on a line is the text still to be read, or nothing once an
    extraction reached the end of the text or failed: from then on every
    extraction fails, and an extraction that fails leaves the string it
    was to fill as it was. *)

(** What appears on [cout] during a session. *)
Inductive Output : Type :=
| OutBanner                        (* === DISTRIBUTED FILE SYSTEM === and the list of commands *)
| OutPrompt                        (* DFS>  *)
| OutEngine (msg : Msg)            (* a line written by an operation of the engine *)
| OutReport (r : Report)           (* a line of [listFiles] or [showNodes] *)
| OutUsage (command : string)      (* Usage: ... *)
| OutInvalidCommand.               (* Invalid command. Type 'help' for usage. *)

(** The variables of [main] that live across the iterations of its
    loop: the engine, and the strings [cmd] and [arg], which are declared
    before the loop and keep their value from one line to the next. *)
Record Shell : Type := mkShell {
  dfs : State;
  cmd : string;
  arg : string;
  screen : list Output
}.

(** How an iteration of the loop ends. *)
Inductive Step : Type :=
| Running (sh : Shell)       (* the loop goes on with the next line *)
| Exited (sh : Shell)        (* [break]: [main] returns *)
| Terminated (sh : Shell)    (* an exception leaves [main] *)
| Corrupted.                 (* an operation indexed the vector out of range *)

(** The characters of [s] before its first white space, and the rest. *)
Fixpoint read_word (s : string) : string * string :=
  match s with
  | EmptyString => (EmptyString, EmptyString)
  | String c rest =>
      if Text.isspace c then (EmptyString, s)
      else (String c (read_word rest).1, (read_word rest).2)
  end.

(** [ss >> target] on a string stream. The stream is [Some rest] while
    it is good, [rest] being what is left to read, and [None] once it
    reached its end or failed. An extraction on a stream that is not
    good, or that holds nothing but white space, fails and leaves
    [target] as it was. *)
Definition extract_word (target : string) (ss : option string) : string * option string :=
  match ss with
  | None => (target, None)
  | Some s =>
      match Text.skip_space s with
      | EmptyString => (target, None)
      | String c rest =>
          let w := read_word (String c rest) in
          (w.1, if decide (w.2 = EmptyString) then None else Some w.2)
      end
  end.

(** The characters of [s] before its first end of line. *)
Fixpoint before_newline (s : string) : string :=
  match s with
  | EmptyString => EmptyString
  | String c rest =>
      if Ascii.eqb c Text.NL then EmptyString else String c (before_newline rest)
  end.

(** [getline(ss, target)]; on a stream that is not good [target] stays
    as it was. *)
Definition getline_rest (target : string) (ss : option string) : string :=
  match ss with
  | None => target
  | Some s => before_newline s
  end.

(** The two characters of [" \t"]. *)
Definition is_blank (c : ascii) : bool :=
  Ascii.eqb c " "%char || Ascii.eqb c "009"%char.

(** [arg.erase(0, arg.find_first_not_of(" \t"))]. *)
Fixpoint trim_left (s : string) : string :=
  match s with
  | EmptyString => EmptyString
  | String c rest => if is_blank c then trim_left rest else s
  end.

(** The lines that an operation added to [cout]. *)
Definition new_output (st st' : State) : list Msg :=
  drop (length (cout st)) (cout st').

Definition show (out : list Output) (sh : Shell) : Shell :=
  {| dfs := dfs sh; cmd := cmd sh; arg := arg sh; screen := screen sh ++ out |}.

(** A call of an operation of the engine from [main]. *)
Definition call (op : M unit) (sh : Shell) : Step :=
  match op (dfs sh) with
  | (Val _, st') =>
      Running {| dfs := st'; cmd := cmd sh; arg := arg sh;
                 screen := screen sh ++ (OutEngine <$> new_output (dfs sh) st') |}
  | (Thrown, _) => Terminated sh
  | (Undefined, _) => Corrupted
  end.

(** The branch of the commands [upload], [download] and [delete]. *)
Definition file_command (name : string) (op : string -> M unit)
    (ss : option string) (sh : Shell) : Step :=
  let arg' := trim_left (getline_rest (arg sh) ss) in
  let sh' := {| dfs := dfs sh; cmd := cmd sh; arg := arg'; screen := screen sh |} in
  if decide (arg' = EmptyString)
  then Running (show [OutUsage (name +:+ " <filename>")] sh')
  else call (op arg') sh'.

(** The branch of the commands [fail] and [recover]; [stoi] is not in a
    [try] block. *)
Definition node_command (name : string) (op : Z -> M unit)
    (ss : option string) (sh : Shell) : Step :=
  let arg' := (extract_word (arg sh) ss).1 in
  let sh' := {| dfs := dfs sh; cmd := cmd sh; arg := arg'; screen := screen sh |} in
  if decide (arg' = EmptyString)
  then Running (show [OutUsage (name +:+ " <node_id>")] sh')
  else match Text.stoi arg' with
       | None => Terminated sh'
       | Some nodeId => call (op nodeId) sh'
       end.

(** One iteration of the [while (true)] loop of [main], [line] being
    what [getline(cin, line)] read after the prompt was printed. *)
Definition main_step (line : string) (sh : Shell) : Step :=
  let sh0 := show [OutPrompt] sh in
  if decide (line = EmptyString) then Running sh0
  else
    let w := extract_word (cmd sh0) (Some line) in
    let sh1 := {| dfs := dfs sh0; cmd := w.1; arg := arg sh0; screen := screen sh0 |} in
    let ss := w.2 in
    if decide (w.1 = "upload") then file_command "upload" upload ss sh1
    else if decide (w.1 = "download") then file_command "download" download ss sh1
    else if decide (w.1 = "delete") then file_command "delete" deleteFile ss sh1
    else if decide (w.1 = "list") then Running (show (OutReport <$> listFiles (dfs sh1)) sh1)
    else if decide (w.1 = "fail") then node_command "fail" failNode ss sh1
    else if decide (w.1 = "recover") then node_command "recover" recoverNode ss sh1
    else if decide (w.1 = "nodes") then Running (show (OutReport <$> showNodes (dfs sh1)) sh1)
    else if decide (w.1 = "exit") then Exited sh1
    else Running (show [OutInvalidCommand] sh1).

(** The loop over the lines typed so far; [Running] when it waits for
    the next one. *)
Fixpoint main_loop (lines : list string) (sh : Shell) : Step :=
  match lines with
  | [] => Running sh
  | line :: rest =>
      match main_step line sh with
      | Running sh' => main_loop rest sh'
      | other => other
      end
  end.


(** A word: what [ss >> target] can read, a string that is not empty
    and holds no white space. *)
Definition is_word (w : string) : Prop :=
  w <> EmptyString /\ all_chars (fun c => negb (Text.isspace c)) w = true.

(** What may follow a word on a line: nothing, or white space and
    anything after it. *)
Definition ends_word (tail : string) : Prop :=
  match tail with
  | EmptyString => True
  | String c _ => Text.isspace c = true
  end.

(** The command words that [main] knows. *)
Definition commands : list string :=
  ["upload"; "download"; "delete"; "list"; "fail"; "recover"; "nodes"; "exit"].


(** ** More predicates on the metadata file and on the pool *)

(** A line of the metadata file on which [stoi] throws: after the first
    colon, some piece between commas is not empty and is not read as an
    [int]. *)
Definition corrupt_line (line : string) : Prop :=
  exists name nodeStr,
    line = name +:+ String ":"%char nodeStr /\
    Text.find ":"%char name = None /\
    Text.parse_ids nodeStr = None.

(** The id list of the last entry of [es] whose name is [f]. *)
Definition last_entry (f : string) (es : list (string * list Z)) : option (list Z) :=
  snd <$> last (filter (fun e => e.1 = f) es).

(** The metadata file holds what [saveMetadata] writes for the records
    in memory. *)
Definition saved (st : State) : Prop :=
  files st !! METADATA_FILE = Some (Text.show_entries (entries (metadata st))).

(** What writing copies of [f] changes in the pool: ids and flags stay,
    no file of another name is touched, and a node that holds [f] still
    holds it. *)
Definition only_writes (f : string) (ns ns' : list Node) : Prop :=
  shape ns' = shape ns /\
  forall k n, ns !! k = Some n ->
    exists n', ns' !! k = Some n' /\
      (forall g, g <> f -> blobs (directory n') !! g = blobs (directory n) !! g) /\
      (is_Some (blobs (directory n) !! f) -> is_Some (blobs (directory n') !! f)).

(** Ids and flags stay and no node loses a file. *)
Definition keeps_blobs (ns ns' : list Node) : Prop :=
  shape ns' = shape ns /\
  forall k n, ns !! k = Some n ->
    exists n', ns' !! k = Some n' /\
      forall g, is_Some (blobs (directory n) !! g) ->
                is_Some (blobs (directory n') !! g).

(** The records of [m'] are those of [m], each with ids possibly added
    at its end. *)
Definition records_extended (m m' : gmap string (list Z)) : Prop :=
  forall g, exists extra, m' !! g = (fun ids => ids ++ extra) <$> m !! g.

(** What a repair of [f] may change, whether it completes or not. *)
Definition repair_frame (f : string) (st st' : State) : Prop :=
  only_writes f (nodes st) (nodes st') /\
  (forall g, g <> f -> metadata st' !! g = metadata st !! g) /\
  (exists extra, metadata st' !! f = (fun ids => ids ++ extra) <$> metadata st !! f) /\
  (forall g, g <> METADATA_FILE -> files st' !! g = files st !! g).

(** What a health check may change. *)
Definition health_frame (st st' : State) : Prop :=
  keeps_blobs (nodes st) (nodes st') /\
  records_extended (metadata st) (metadata st') /\
  (forall g, g <> METADATA_FILE -> files st' !! g = files st !! g).

(** * Properties *)

Arguments Text.show_int : simpl never.
Arguments METADATA_FILE : simpl never.
Arguments REPLICATION : simpl never.
Arguments Text.stoi : simpl never.
Arguments Text.show_ids : simpl nomatch.

(** Unfolding of the plumbing of computations. *)
Ltac mrun :=
  cbv [bind ret gets modify print throw undefined attempt all_indices
       current_nodes valid_node_id set_node];
  cbn [fst snd nodes metadata files cout set_nodes set_metadata set_files add_cout].

(** ** The text of the metadata file *)

Section TextFacts.

Example getlines_trailing : Text.getlines ","%char "1,2,3," = ["1"; "2"; "3"].
Proof. reflexivity. Qed.

Example getlines_empty_piece : Text.getlines ","%char "1,,2" = ["1"; ""; "2"].
Proof. reflexivity. Qed.

Example getlines_blank_line :
  Text.getlines Text.NL (String "a" (String Text.NL (String Text.NL "b"))) = ["a"; ""; "b"].
Proof. reflexivity. Qed.

Example stoi_prefix : Text.stoi " -12x" = Some (-12).
Proof. reflexivity. Qed.

Example stoi_invalid : Text.stoi "b:1" = None.
Proof. reflexivity. Qed.

Example stoi_out_of_range : Text.stoi "2147483648" = None.
Proof. reflexivity. Qed.

Example show_int_negative : Text.show_int (-120) = "-120".
Proof. reflexivity. Qed.

Example show_entries_two :
  Text.show_entries [("a.txt", [1; 2; 3]); ("b", [4])] =
  "a.txt:1,2,3," +:+ String Text.NL ("b:4," +:+ String Text.NL "").
Proof. reflexivity. Qed.

Lemma find_none_all_chars c s :
  Text.find c s = None <-> all_chars (fun a => negb (Ascii.eqb a c)) s = true.
Proof.
  induction s as [|a s IH]; simpl; [done|].
  destruct (Ascii.eqb a c); simpl; [split; discriminate|].
  rewrite <- IH. destruct (Text.find c s); simpl; split; congruence.
Qed.

Lemma all_chars_app P s1 s2 :
  all_chars P (s1 +:+ s2) = all_chars P s1 && all_chars P s2.
Proof.
  induction s1 as [|a s1 IH]; simpl; [done|].
  rewrite IH. by rewrite andb_assoc.
Qed.

Lemma all_chars_impl (P Q : ascii -> bool) s :
  (forall a, P a = true -> Q a = true) ->
  all_chars P s = true -> all_chars Q s = true.
Proof.
  intros HPQ. induction s as [|a s IH]; simpl; [done|].
  intros [Ha Hs]%andb_prop. rewrite (HPQ _ Ha), (IH Hs). done.
Qed.

(** [getlines] cuts at the first delimiter when the text before it has
    none. *)
Lemma getlines_app delim piece rest :
  Text.find delim piece = None ->
  Text.getlines delim (piece +:+ String delim rest) =
  piece :: Text.getlines delim rest.
Proof.
  induction piece as [|a piece IH]; simpl.
  - intros _. by rewrite Ascii.eqb_refl.
  - destruct (Ascii.eqb a delim); [discriminate|].
    intros Hf. destruct (Text.find delim piece); [discriminate|].
    by rewrite IH.
Qed.

Lemma find_app c name rest :
  Text.find c name = None ->
  Text.find c (name +:+ String c rest) = Some (String.length name).
Proof.
  induction name as [|a name IH]; simpl.
  - intros _. by rewrite Ascii.eqb_refl.
  - destruct (Ascii.eqb a c); [discriminate|].
    intros Hf. destruct (Text.find c name); [discriminate|].
    by rewrite IH.
Qed.

Lemma substr_to_app name rest :
  Text.substr_to (String.length name) (name +:+ rest) = name.
Proof.
  unfold Text.substr_to. induction name as [|a name IH]; simpl.
  - by destruct rest.
  - by rewrite IH.
Qed.

Lemma substr_from_app name c rest :
  Text.substr_from (S (String.length name)) (name +:+ String c rest) = rest.
Proof. induction name as [|a name IH]; simpl; [done|]. exact IH. Qed.

Lemma digit_val_char d :
  0 <= d <= 9 -> Text.digit_val (Text.digit_char d) = Some d.
Proof.
  intros Hd.
  assert (Hcases : d = 0 \/ d = 1 \/ d = 2 \/ d = 3 \/ d = 4 \/ d = 5 \/
                   d = 6 \/ d = 7 \/ d = 8 \/ d = 9) by lia.
  repeat (destruct Hcases as [->|Hcases]; [reflexivity|]). by subst.
Qed.

Lemma is_digit_char d : 0 <= d <= 9 -> is_digit (Text.digit_char d) = true.
Proof.
  intros Hd. unfold is_digit. rewrite (digit_val_char d Hd).
  by apply bool_decide_eq_true.
Qed.

Lemma digits_of_all_digits fuel n acc :
  all_chars is_digit acc = true ->
  all_chars is_digit (Text.digits_of fuel n acc) = true.
Proof.
  revert n acc. induction fuel as [|fuel IH]; intros n acc Hacc; simpl; [done|].
  assert (Hd : is_digit (Text.digit_char (n mod 10)) = true).
  { apply is_digit_char. pose proof (Z.mod_pos_bound n 10). lia. }
  destruct (n / 10 =? 0).
  - simpl. by rewrite Hd, Hacc.
  - apply IH. simpl. by rewrite Hd, Hacc.
Qed.

(** Reading back the digits that [digits_of] wrote. *)
Lemma read_digits_of fuel n acc :
  0 <= n < Z.of_nat fuel ->
  Text.read_digits (Text.digits_of fuel n acc) None =
  Text.read_digits acc (Some n).
Proof.
  revert n acc. induction fuel as [|fuel IH]; intros n acc Hn; [lia|].
  simpl. pose proof (Z.mod_pos_bound n 10 ltac:(lia)) as Hm.
  pose proof (Z.div_mod n 10 ltac:(lia)) as Hdm.
  destruct (n / 10 =? 0) eqn:Hq.
  - apply Z.eqb_eq in Hq. simpl. rewrite digit_val_char by lia.
    simpl. do 2 f_equal. lia.
  - apply Z.eqb_neq in Hq. rewrite IH.
    + simpl. rewrite digit_val_char by lia. simpl. do 2 f_equal. lia.
    + assert (0 <= n / 10) by (apply Z.div_pos; lia). lia.
Qed.

Lemma digits_of_head fuel n acc :
  exists a rest, Text.digits_of (S fuel) n acc = String a rest /\ is_digit a = true.
Proof.
  revert n acc. induction fuel as [|fuel IH]; intros n acc.
  - simpl. destruct (n / 10 =? 0); eexists _, _; split; try reflexivity;
      apply is_digit_char; pose proof (Z.mod_pos_bound n 10); lia.
  - change (Text.digits_of (S (S fuel)) n acc) with
      (let acc' := String (Text.digit_char (n mod 10)) acc in
       if n / 10 =? 0 then acc' else Text.digits_of (S fuel) (n / 10) acc').
    simpl. destruct (n / 10 =? 0).
    + eexists _, _; split; [reflexivity|].
      apply is_digit_char; pose proof (Z.mod_pos_bound n 10); lia.
    + apply IH.
Qed.

Lemma is_digit_not_special a :
  is_digit a = true ->
  Text.isspace a = false /\ a <> "-"%char /\ a <> "+"%char /\
  a <> ","%char /\ a <> ":"%char /\ a <> Text.NL.
Proof.
  unfold is_digit. intros H%bool_decide_eq_true.
  destruct a as [[] [] [] [] [] [] [] []]; vm_compute in H |- *;
    try (destruct H as [? H]; discriminate H); repeat split; discriminate.
Qed.

(** [stoi] reads back what [<<] wrote. *)
Lemma stoi_show_int z : int_range z -> Text.stoi (Text.show_int z) = Some z.
Proof.
  unfold int_range, Text.show_int, Text.stoi. intros Hz.
  destruct (z <? 0) eqn:Hneg.
  - apply Z.ltb_lt in Hneg.
    change (Text.skip_space (String "-" ?s)) with (String "-"%char s).
    cbv iota beta. rewrite read_digits_of by lia. simpl Text.read_digits.
    cbv iota beta. rewrite Z.opp_involutive.
    destruct ((Text.INT_MIN <=? z) && (z <=? Text.INT_MAX)) eqn:Hr; [done|].
    apply andb_false_iff in Hr. destruct Hr as [Hr|Hr];
      [apply Z.leb_gt in Hr | apply Z.leb_gt in Hr]; lia.
  - apply Z.ltb_ge in Hneg.
    destruct (digits_of_head (Z.to_nat z) z EmptyString) as (a & rest & Heq & Ha).
    pose proof (read_digits_of (S (Z.to_nat z)) z EmptyString ltac:(lia)) as Hread.
    rewrite Heq in Hread |- *.
    destruct (is_digit_not_special a Ha) as (Hsp & Hm & Hp & _).
    simpl Text.skip_space. rewrite Hsp.
    assert (Hsplit : (match String a rest with
              | String "-"%char r => (true, r)
              | String "+"%char r => (false, r)
              | _ => (false, String a rest)
              end) = (false, String a rest)).
    { destruct a as [[] [] [] [] [] [] [] []]; try reflexivity; congruence. }
    rewrite Hsplit. cbv iota beta. rewrite Hread. simpl Text.read_digits.
    cbv iota beta.
    destruct ((Text.INT_MIN <=? z) && (z <=? Text.INT_MAX)) eqn:Hr; [done|].
    apply andb_false_iff in Hr. destruct Hr as [Hr|Hr];
      [apply Z.leb_gt in Hr | apply Z.leb_gt in Hr]; lia.
Qed.

Lemma all_chars_cons P a s : all_chars P (String a s) = P a && all_chars P s.
Proof. reflexivity. Qed.

Lemma show_int_chars z : all_chars is_int_char (Text.show_int z) = true.
Proof.
  assert (Hd : forall fuel n,
    all_chars is_int_char (Text.digits_of fuel n EmptyString) = true).
  { intros fuel n. eapply all_chars_impl; [|by apply digits_of_all_digits].
    intros a Ha. unfold is_int_char. by rewrite Ha. }
  unfold Text.show_int. destruct (z <? 0); [|apply Hd].
  rewrite all_chars_cons, Hd. reflexivity.
Qed.

Lemma is_int_char_not_sep a :
  is_int_char a = true -> a <> ","%char /\ a <> ":"%char /\ a <> Text.NL.
Proof.
  unfold is_int_char. intros [H|H]%orb_prop.
  - by destruct (is_digit_not_special a H) as (_ & _ & _ & ? & ? & ?).
  - apply Ascii.eqb_eq in H. subst a. repeat split; discriminate.
Qed.

Lemma show_int_no_char c z :
  c = ","%char \/ c = Text.NL -> Text.find c (Text.show_int z) = None.
Proof.
  intros Hc. apply find_none_all_chars.
  eapply all_chars_impl; [|apply show_int_chars].
  intros a Ha. apply negb_true_iff, Ascii.eqb_neq.
  destruct (is_int_char_not_sep a Ha) as (? & ? & ?). by destruct Hc as [->| ->].
Qed.

Lemma show_int_nonempty z : Text.show_int z <> EmptyString.
Proof.
  unfold Text.show_int. destruct (z <? 0); [done|].
  destruct (digits_of_head (Z.to_nat z) z EmptyString) as (a & rest & -> & _). done.
Qed.

Lemma getlines_show_ids ids :
  Text.getlines ","%char (Text.show_ids ids) = Text.show_int <$> ids.
Proof.
  induction ids as [|i ids IH]; csimpl; [done|].
  rewrite getlines_app by (apply show_int_no_char; by left). by rewrite IH.
Qed.

Lemma parse_tokens_show ids :
  Forall int_range ids -> Text.parse_tokens (Text.show_int <$> ids) = Some ids.
Proof.
  induction 1 as [|i ids Hi _ IH]; csimpl; [done|].
  destruct (decide (Text.show_int i = EmptyString)) as [He|_];
    [by apply show_int_nonempty in He|].
  by rewrite (stoi_show_int i Hi), IH.
Qed.

(** The ids of a line are read back as they were written. *)
Lemma parse_ids_show_ids ids :
  Forall int_range ids -> Text.parse_ids (Text.show_ids ids) = Some ids.
Proof.
  intros H. unfold Text.parse_ids. rewrite getlines_show_ids.
  by apply parse_tokens_show.
Qed.

Lemma show_ids_no_newline ids : Text.find Text.NL (Text.show_ids ids) = None.
Proof.
  apply find_none_all_chars. induction ids as [|i ids IH]; simpl; [done|].
  rewrite all_chars_app. simpl. rewrite IH, andb_true_r.
  apply find_none_all_chars, show_int_no_char. by right.
Qed.

Lemma show_entry_no_newline filename ids :
  Text.find Text.NL filename = None ->
  Text.find Text.NL (Text.show_entry (filename, ids)) = None.
Proof.
  intros Hf. apply find_none_all_chars. unfold Text.show_entry. simpl.
  rewrite all_chars_app. simpl.
  apply find_none_all_chars in Hf. rewrite Hf. simpl.
  apply find_none_all_chars, show_ids_no_newline.
Qed.

(** A written line is read back as the assignment of its record. *)
Lemma load_line_show_entry filename ids m :
  Text.find ":"%char filename = None -> ids <> [] -> Forall int_range ids ->
  load_line (Text.show_entry (filename, ids)) m = Some (<[filename := ids]> m).
Proof.
  intros Hcolon Hne Hr. unfold load_line, Text.show_entry. cbn [fst snd].
  destruct (decide _) as [He|_]; [by destruct filename|].
  rewrite (find_app _ _ _ Hcolon), substr_to_app, substr_from_app.
  rewrite (parse_ids_show_ids ids Hr).
  by destruct (decide (ids = [])).
Qed.

Lemma getlines_show_entries es :
  Forall good_entry es ->
  Text.getlines Text.NL (Text.show_entries es) = Text.show_entry <$> es.
Proof.
  induction 1 as [|[f ids] es (Hp & _ & _) _ IH]; csimpl; [done|].
  rewrite getlines_app by (apply show_entry_no_newline, Hp). by rewrite IH.
Qed.

Lemma load_lines_show_entries es m :
  Forall good_entry es ->
  load_lines (Text.show_entry <$> es) m = (assign_all es m, true).
Proof.
  intros H. revert m. induction H as [|[f ids] es (Hp & Hne & Hr) _ IH];
    intros m; csimpl; [done|].
  rewrite load_line_show_entry by (done || apply Hp). apply IH.
Qed.

Lemma assign_all_lookup es m k :
  NoDup es.*1 ->
  assign_all es m !! k =
  match list_to_map (M := gmap string (list Z)) es !! k with
  | Some v => Some v
  | None => m !! k
  end.
Proof.
  unfold assign_all. revert m. induction es as [|[f v] es IH]; intros m Hnd; simpl.
  - by rewrite lookup_empty.
  - apply NoDup_cons in Hnd as [Hf Hnd]. rewrite (IH _ Hnd).
    destruct (list_to_map es !! k) as [w|] eqn:Hk.
    + destruct (decide (f = k)) as [->|Hfk].
      * apply elem_of_list_to_map_2 in Hk. exfalso. apply Hf.
        apply list_elem_of_fmap. by exists (k, w).
      * by rewrite lookup_insert_ne, Hk.
    + destruct (decide (f = k)) as [->|Hfk].
      * by rewrite !lookup_insert_eq.
      * by rewrite !lookup_insert_ne, Hk.
Qed.

(** Assigning the entries of a map, in the order of iteration, to the
    empty map gives the map back. *)
Lemma assign_all_entries (m : gmap string (list Z)) : assign_all (entries m) ∅ = m.
Proof.
  assert (Hperm : entries m ≡ₚ map_to_list m) by apply merge_sort_Permutation.
  assert (Hnd : NoDup (entries m).*1).
  { rewrite Hperm. apply NoDup_fst_map_to_list. }
  apply map_eq. intros k. rewrite (assign_all_lookup _ _ _ Hnd).
  rewrite (list_to_map_proper _ _ Hnd Hperm), list_to_map_to_list.
  rewrite lookup_empty. by destruct (m !! k).
Qed.

Lemma entries_good (m : gmap string (list Z)) :
  (forall f ids, m !! f = Some ids -> good_entry (f, ids)) ->
  Forall good_entry (entries m).
Proof.
  intros H. apply Forall_forall. intros [f ids] Hin.
  apply H. apply elem_of_map_to_list.
  unfold entries in Hin. by rewrite merge_sort_Permutation in Hin.
Qed.

End TextFacts.

(** ** Persistence round trip *)

Section Persistence.

Lemma load_line_skipped line m : skipped_line line -> load_line line m = Some m.
Proof.
  unfold load_line. intros [->|[Hnc|(name & rest & -> & Hname & Hrest)]].
  - done.
  - destruct (decide _); [done|]. by rewrite Hnc.
  - destruct (decide _) as [|_]; [done|].
    rewrite (find_app _ _ _ Hname), substr_from_app.
    assert (Hp : Text.parse_ids rest = Some []); [|by rewrite Hp].
    unfold Text.parse_ids. clear Hname. induction rest as [|a rest IH]; [done|].
    rewrite all_chars_cons in Hrest. apply andb_prop in Hrest as [Ha Hrest].
    apply Ascii.eqb_eq in Ha. subst a. simpl. by apply IH.
Qed.

Lemma load_lines_skip before line after m :
  skipped_line line ->
  load_lines (before ++ line :: after) m = load_lines (before ++ after) m.
Proof.
  intros Hs. revert m. induction before as [|l before IH]; intros m; simpl.
  - by rewrite (load_line_skipped _ _ Hs).
  - destruct (load_line l m); [apply IH|done].
Qed.

Lemma loadMetadata_saved st fs ns out :
  (forall f ids, metadata st !! f = Some ids -> good_entry (f, ids)) ->
  fs !! METADATA_FILE = Some (Text.show_entries (entries (metadata st))) ->
  loadMetadata {| nodes := ns; metadata := ∅; files := fs; cout := out |} =
  (Val tt, {| nodes := ns; metadata := metadata st; files := fs;
              cout := out ++ [MsgMetadataLoaded] |}).
Proof.
  intros Hgood Hfile. unfold loadMetadata. mrun. rewrite Hfile.
  rewrite getlines_show_entries, load_lines_show_entries by by apply entries_good.
  by rewrite assign_all_entries.
Qed.

(** C5, amended: for every metadata mapping whose file names contain
    neither [':'] nor an end of line and whose id sequences are not
    empty, saving and then loading in a new process reproduces the same
    mapping from file names to id sequences, order of ids included. A
    missing metadata file loads as the empty mapping; and a blank line, a
    line without a colon or a line with an empty id list anywhere in the
    file is passed over. *)
Theorem save_load_round_trip (st : State) (totalNodes : Z) (dirs : Z -> Directory) :
  (forall f ids, metadata st !! f = Some ids ->
     plain_name f /\ ids <> [] /\ Forall int_range ids) ->
  let disk := files (saveMetadata st).2 in
  (DistributedFS_new totalNodes dirs disk).1 = Val tt /\
  metadata (DistributedFS_new totalNodes dirs disk).2 = metadata st /\
  (forall fs, fs !! METADATA_FILE = None ->
     metadata (DistributedFS_new totalNodes dirs fs).2 = ∅) /\
  (forall before line after m, skipped_line line ->
     load_lines (before ++ line :: after) m = load_lines (before ++ after) m).
Proof.
  intros Hgood disk.
  assert (Hload : DistributedFS_new totalNodes dirs disk =
    (Val tt, {| nodes := (fun i => Node_new i (dirs i)) <$> seqZ 1 totalNodes;
                metadata := metadata st; files := disk;
                cout := [MsgInitialized totalNodes] ++ [MsgMetadataLoaded] |})).
  { unfold DistributedFS_new. mrun.
    apply (loadMetadata_saved st); [exact Hgood|].
    subst disk. unfold saveMetadata. mrun. apply lookup_insert_eq. }
  rewrite Hload. repeat split.
  - intros fs Hnone. unfold DistributedFS_new, loadMetadata. mrun.
    by rewrite Hnone.
  - intros. by apply load_lines_skip.
Qed.

Lemma save_load_round_trip_witness :
  metadata (DistributedFS_new 4 (fun _ => empty_dir)
              (files (saveMetadata st_two_files).2)).2 = metadata st_two_files.
Proof.
  apply (save_load_round_trip st_two_files 4 (fun _ => empty_dir)).
  unfold st_two_files, plain_name, int_range, Text.INT_MIN, Text.INT_MAX.
  simpl. intros f ids Hf.
  apply lookup_insert_Some in Hf as [[<- <-]|[_ Hf]].
  - repeat split; try done. repeat constructor; lia.
  - apply lookup_singleton_Some in Hf as [<- <-].
    repeat split; try done. repeat constructor; lia.
Defined.

(** C5 as stated fails: a mapping with one record, whose id sequence is
    not empty, is not reproduced when the file name contains a colon. *)
Lemma save_load_colon_counterexample :
  (forall f ids, metadata st_colon !! f = Some ids ->
     ids <> [] /\ Forall int_range ids) /\
  metadata (DistributedFS_new 4 (fun _ => empty_dir)
              (files (saveMetadata st_colon).2)).2 <> metadata st_colon.
Proof.
  split.
  - unfold st_colon. simpl. intros f ids Hf.
    apply lookup_singleton_Some in Hf as [<- <-].
    split; [done|]. unfold int_range, Text.INT_MIN, Text.INT_MAX.
    repeat constructor; lia.
  - intros Heq.
    assert (H : metadata (DistributedFS_new 4 (fun _ => empty_dir)
              (files (saveMetadata st_colon).2)).2 !! "a:b" = None)
      by (vm_compute; reflexivity).
    rewrite Heq in H. vm_compute in H. discriminate H.
Qed.

End Persistence.

(** ** Reasoning about computations *)

Section Computations.

Context {A B : Type}.

Lemma sat_bind (m : M A) (k : A -> M B) st Q E :
  sat (m st) (fun a st' => sat (k a st') Q E) E -> sat (bind m k st) Q E.
Proof. unfold sat, bind. by destruct (m st) as [[a| |] st']. Qed.

Lemma sat_mono (x : result A * State) (Q Q' : A -> State -> Prop) (E E' : State -> Prop) :
  sat x Q E -> (forall a st, Q a st -> Q' a st) -> (forall st, E st -> E' st) ->
  sat x Q' E'.
Proof. unfold sat. destruct x as [[a| |] st']; auto. Qed.

Lemma sat_attempt (m : M A) st (Q : option A -> State -> Prop) E :
  sat (m st) (fun a => Q (Some a)) (Q None) -> sat (attempt m st) Q E.
Proof. unfold sat, attempt. by destruct (m st) as [[a| |] st']. Qed.

Lemma sat_val (x : result A * State) Q E a st' :
  x = (Val a, st') -> Q a st' -> sat x Q E.
Proof. by intros ->. Qed.

End Computations.

Section Pool.

Lemma index_of_id_in_pool ns i :
  in_pool ns i ->
  index_of_id ns i = Some (Z.to_nat (i - 1)) /\ (Z.to_nat (i - 1) < length ns)%nat.
Proof.
  unfold in_pool, index_of_id. intros Hi.
  destruct (1 <=? i) eqn:H1; [|apply Z.leb_gt in H1; lia].
  destruct (i <=? Z.of_nat (length ns)) eqn:H2; [|apply Z.leb_gt in H2; lia].
  split; [done|lia].
Qed.

Lemma index_of_id_Some ns i k :
  index_of_id ns i = Some k -> in_pool ns i /\ k = Z.to_nat (i - 1).
Proof.
  unfold in_pool, index_of_id.
  destruct (1 <=? i) eqn:H1; [|done].
  destruct (i <=? Z.of_nat (length ns)) eqn:H2; [|done].
  apply Z.leb_le in H1, H2. simpl. intros [= <-]. done.
Qed.

(** [nodes[i - 1]] for an id of the pool. *)
Lemma node_at_in_pool st i :
  in_pool (nodes st) i ->
  exists n, nodes st !! Z.to_nat (i - 1) = Some n /\ node_at i st = (Val n, st).
Proof.
  intros Hi. destruct (index_of_id_in_pool _ _ Hi) as [Hidx Hlt].
  destruct (lookup_lt_is_Some_2 _ _ Hlt) as [n Hn].
  exists n. split; [done|]. unfold node_at, node_index. by rewrite Hidx, Hn.
Qed.

(** Outside the pool the access is undefined. *)
Lemma node_at_undefined st i :
  ~ in_pool (nodes st) i -> node_at i st = (Undefined, st).
Proof.
  intros Hi. unfold node_at. destruct (index_of_id (nodes st) i) as [k|] eqn:Hk; [|done].
  by apply index_of_id_Some in Hk as [? _].
Qed.

Lemma node_index_lt st k :
  (k < length (nodes st))%nat ->
  exists n, nodes st !! k = Some n /\ node_index k st = (Val n, st).
Proof.
  intros Hlt. destruct (lookup_lt_is_Some_2 _ _ Hlt) as [n Hn].
  exists n. split; [done|]. unfold node_index. by rewrite Hn.
Qed.

Lemma is_active_lookup ns i n :
  in_pool ns i -> ns !! Z.to_nat (i - 1) = Some n -> is_active ns i = active n.
Proof.
  intros Hi Hn. unfold is_active, active_at.
  destruct (index_of_id_in_pool ns i Hi) as [-> _]. by rewrite Hn.
Qed.

Lemma shape_length ns ns' : shape ns' = shape ns -> length ns' = length ns.
Proof.
  unfold shape. intros H. apply (f_equal length) in H.
  by rewrite !length_fmap in H.
Qed.

Lemma shape_lookup ns ns' k n' :
  shape ns' = shape ns -> ns' !! k = Some n' ->
  exists n, ns !! k = Some n /\ id n = id n' /\ active n = active n'.
Proof.
  unfold shape. intros H Hk.
  assert (Hs : ((fun n => (id n, active n)) <$> ns) !! k = Some (id n', active n')).
  { rewrite <- H, list_lookup_fmap, Hk. done. }
  rewrite list_lookup_fmap in Hs.
  destruct (ns !! k) as [n|]; [|done]. exists n. simpl in Hs.
  injection Hs as <- <-. done.
Qed.

Lemma shape_pool_wf ns ns' : shape ns' = shape ns -> pool_wf ns -> pool_wf ns'.
Proof.
  intros H Hwf k n' Hk.
  destruct (shape_lookup _ _ _ _ H Hk) as (n & Hn & <- & _). by apply Hwf.
Qed.

Lemma shape_in_pool ns ns' i : shape ns' = shape ns -> in_pool ns i -> in_pool ns' i.
Proof. unfold in_pool. intros H. by rewrite (shape_length _ _ H). Qed.

Lemma shape_active_at ns ns' k : shape ns' = shape ns -> active_at ns' k = active_at ns k.
Proof.
  intros H. unfold active_at.
  destruct (ns' !! k) as [n'|] eqn:Hk.
  - destruct (shape_lookup _ _ _ _ H Hk) as (n & -> & _ & ->). done.
  - apply lookup_ge_None in Hk. rewrite (shape_length _ _ H) in Hk.
    apply lookup_ge_None in Hk. by rewrite Hk.
Qed.

Lemma shape_is_active ns ns' i : shape ns' = shape ns -> is_active ns' i = is_active ns i.
Proof.
  intros H. unfold is_active, index_of_id. rewrite (shape_length _ _ H).
  destruct (_ && _); [|done]. by apply shape_active_at.
Qed.

Lemma shape_active_count ns ns' ids :
  shape ns' = shape ns -> active_count ns' ids = active_count ns ids.
Proof.
  intros H. unfold active_count. do 2 f_equal.
  apply list_filter_iff. intros i. by rewrite (shape_is_active _ _ _ H).
Qed.

(** Replacing a node by one with the same id and flag keeps the shape. *)
Lemma shape_insert ns k n n' :
  ns !! k = Some n -> id n' = id n -> active n' = active n ->
  shape (<[k := n']> ns) = shape ns.
Proof.
  intros Hk Hid Hact. unfold shape. rewrite list_fmap_insert.
  apply list_insert_id. rewrite list_lookup_fmap, Hk. simpl. by rewrite Hid, Hact.
Qed.

End Pool.

(** ** Primitive steps *)

Section Steps.

Lemma bind_val {A B} (m : M A) (k : A -> M B) st a st' :
  m st = (Val a, st') -> bind m k st = k a st'.
Proof. unfold bind. by intros ->. Qed.

Lemma bind_thrown {A B} (m : M A) (k : A -> M B) st st' :
  m st = (Thrown, st') -> bind m k st = (Thrown, st').
Proof. unfold bind. by intros ->. Qed.

Lemma bind_undefined {A B} (m : M A) (k : A -> M B) st st' :
  m st = (Undefined, st') -> bind m k st = (Undefined, st').
Proof. unfold bind. by intros ->. Qed.

(** The copy into the directory of the node at index [k]. *)
Lemma copy_to_node_eq f c k st n :
  nodes st !! k = Some n ->
  copy_to_node f c k st =
  if writable (directory n)
  then (Val tt, set_nodes (<[k := put_blob f c n]> (nodes st)) st)
  else (Thrown, st).
Proof.
  intros Hk. unfold copy_to_node, node_index, dir_put, put_blob.
  mrun. rewrite Hk. by destruct (writable (directory n)).
Qed.

(** The copy from the node with id [src] to the node at index [k]. *)
Lemma copy_from_node_eq f src k st s n :
  in_pool (nodes st) src ->
  nodes st !! Z.to_nat (src - 1) = Some s ->
  nodes st !! k = Some n ->
  copy_from_node f src k st =
  match blobs (directory s) !! f with
  | Some c =>
      if writable (directory n)
      then (Val tt, set_nodes (<[k := put_blob f c n]> (nodes st)) st)
      else (Thrown, st)
  | None => (Thrown, st)
  end.
Proof.
  intros Hsrc Hs Hk. unfold copy_from_node.
  destruct (node_at_in_pool st src Hsrc) as (s' & Hs' & Hat).
  rewrite Hs in Hs'. injection Hs' as <-.
  rewrite (bind_val _ _ _ _ _ Hat).
  destruct (blobs (directory s) !! f) as [c|]; [|done].
  by apply copy_to_node_eq.
Qed.

Lemma shape_put_blob ns k n f c :
  ns !! k = Some n -> shape (<[k := put_blob f c n]> ns) = shape ns.
Proof. intros Hk. by apply (shape_insert ns k n). Qed.

(** A copy between nodes either throws and changes nothing, or changes
    the directory of the target only. *)
Lemma copy_from_node_sat f src k st :
  in_pool (nodes st) src -> (k < length (nodes st))%nat ->
  sat (copy_from_node f src k st)
    (fun _ st' => shape (nodes st') = shape (nodes st) /\
                  metadata st' = metadata st /\ cout st' = cout st)
    (fun st' => st' = st).
Proof.
  intros Hsrc Hk.
  destruct (node_at_in_pool st src Hsrc) as (s & Hs & _).
  destruct (lookup_lt_is_Some_2 _ _ Hk) as [n Hn].
  rewrite (copy_from_node_eq f src k st s n Hsrc Hs Hn).
  destruct (blobs (directory s) !! f) as [c|]; [|done].
  destruct (writable (directory n)); [|done].
  simpl. split; [|done]. by apply shape_put_blob.
Qed.

Lemma Inv_frame nd st st' :
  Inv nd st -> shape (nodes st') = shape (nodes st) ->
  metadata st' = metadata st -> Inv nd st'.
Proof.
  intros [Hwf Hrec] Hshape Hmeta. split.
  - by apply (shape_pool_wf (nodes st)).
  - intros f ids Hf. rewrite Hmeta in Hf. destruct (Hrec f ids Hf) as [Hin Hnd].
    split; [|done]. eapply Forall_impl; [exact Hin|].
    intros i. by apply shape_in_pool.
Qed.

Lemma repair_rel_refl f nd st : Inv nd st -> repair_rel f nd st st.
Proof.
  intros H. split; [done|]. split; [done|]. split; [done|].
  exists []. by rewrite app_nil_r.
Qed.

Lemma repair_rel_trans f nd st1 st2 st3 :
  repair_rel f nd st1 st2 -> repair_rel f nd st2 st3 -> repair_rel f nd st1 st3.
Proof.
  intros (Hs1 & Hm1 & _ & out1 & Ho1 & Hr1) (Hs2 & Hm2 & HI & out2 & Ho2 & Hr2).
  split; [by rewrite Hs2|]. split; [|split; [done|]].
  - intros g Hg. by rewrite (Hm2 g Hg), (Hm1 g Hg).
  - exists (out1 ++ out2). split; [by rewrite Ho2, Ho1, app_assoc|].
    by apply Forall_app.
Qed.

Lemma repair_rel_frame f nd st st' out :
  Inv nd st -> shape (nodes st') = shape (nodes st) ->
  metadata st' = metadata st ->
  cout st' = cout st ++ out -> Forall is_repair_msg out ->
  repair_rel f nd st st'.
Proof.
  intros HI Hs Hm Ho Hr. split; [done|]. split; [by rewrite Hm|].
  split; [by apply (Inv_frame nd st)|]. by exists out.
Qed.

End Steps.

(** ** Counting and searching the active replicas *)

Section Counting.

Lemma active_count_cons ns i ids :
  active_count ns (i :: ids) =
  (if is_active ns i then 1 else 0) + active_count ns ids.
Proof.
  unfold active_count. rewrite filter_cons.
  destruct (decide (is_active ns i = true)) as [->|Hn]; simpl length.
  - lia.
  - by destruct (is_active ns i).
Qed.

Lemma active_count_nonneg ns ids : 0 <= active_count ns ids.
Proof. unfold active_count. lia. Qed.

Lemma count_active_eq ids st c :
  Forall (in_pool (nodes st)) ids ->
  count_active ids c st = (Val (c + active_count (nodes st) ids), st).
Proof.
  intros H. revert c. induction H as [|i ids Hi _ IH]; intros c.
  - unfold active_count. simpl. unfold ret. do 2 f_equal. lia.
  - cbn [count_active].
    destruct (node_at_in_pool st i Hi) as (n & Hn & Hat).
    rewrite (bind_val _ _ _ _ _ Hat), IH, active_count_cons.
    rewrite (is_active_lookup _ _ _ Hi Hn).
    destruct (active n); do 2 f_equal; lia.
Qed.

Lemma find_source_eq ids st :
  Forall (in_pool (nodes st)) ids ->
  find_source ids st = (Val (default (-1) (first_active (nodes st) ids)), st).
Proof.
  unfold first_active. induction 1 as [|i ids Hi _ IH]; [done|].
  cbn [find_source].
  destruct (node_at_in_pool st i Hi) as (n & Hn & Hat).
  rewrite (bind_val _ _ _ _ _ Hat), filter_cons.
  rewrite <- (is_active_lookup _ _ _ Hi Hn).
  destruct (decide (is_active (nodes st) i = true)) as [->|Hna]; [done|].
  destruct (is_active (nodes st) i); [done|]. exact IH.
Qed.

Lemma first_active_Some ns ids i :
  first_active ns ids = Some i -> i ∈ ids /\ is_active ns i = true.
Proof.
  unfold first_active. intros H. apply head_Some in H as [l Hl].
  assert (Hin : i ∈ filter (fun i => is_active ns i = true) ids)
    by (rewrite Hl; left).
  by apply list_elem_of_filter in Hin as [? ?].
Qed.

Lemma first_active_None ns ids :
  first_active ns ids = None <-> active_count ns ids = 0.
Proof.
  unfold first_active, active_count.
  destruct (filter _ ids); simpl; split; (done || lia).
Qed.

End Counting.

(** ** Invariants of the repair *)

Section RepairInvariant.

Variable f : string.
Variable nd : bool.
Variable src : Z.

Lemma restore_loop_sat ids st a :
  Inv nd st -> Forall (in_pool (nodes st)) ids -> in_pool (nodes st) src ->
  sat (restore_loop f src ids a st)
    (fun _ st' => repair_rel f nd st st') (fun st' => repair_rel f nd st st').
Proof.
  revert st a. induction ids as [|i ids IH]; intros st a HI Hids Hsrc.
  - by apply repair_rel_refl.
  - apply Forall_cons in Hids as [Hi Hids]. cbn [restore_loop].
    destruct (node_at_in_pool st i Hi) as (n & Hn & Hat).
    rewrite (bind_val _ _ _ _ _ Hat).
    destruct (negb (active n) && (a <? REPLICATION)); [|by apply IH].
    apply sat_bind.
    eapply sat_mono;
      [apply copy_from_node_sat; [done|by apply lookup_lt_is_Some_1]| |].
    + intros [] st1 (Hs & Hm & Ho). mrun.
      assert (Hrel : repair_rel f nd st (add_cout (MsgRestored f i) st1)).
      { apply (repair_rel_frame f nd st _ [MsgRestored f i]); try done.
        - simpl. by rewrite Ho.
        - by repeat constructor. }
      eapply sat_mono.
      * apply IH; [apply Hrel| |].
        -- simpl. eapply Forall_impl; [exact Hids|].
           intros j. by apply shape_in_pool.
        -- simpl. by apply (shape_in_pool (nodes st)).
      * intros ? st2 H2. simpl in H2. exact (repair_rel_trans f nd st _ st2 Hrel H2).
      * intros st2 H2. simpl in H2. exact (repair_rel_trans f nd st _ st2 Hrel H2).
    + intros st1 ->. by apply repair_rel_refl.
Qed.

Lemma Inv_append st k n ids :
  Inv nd st -> nodes st !! k = Some n ->
  metadata st !! f = Some ids \/ (metadata st !! f = None /\ ids = []) ->
  id n ∉ ids ->
  Inv nd (set_metadata (<[f := ids ++ [id n]]> (metadata st)) st).
Proof.
  intros [Hwf Hrec] Hk Hf Hnotin. split; [done|]. simpl.
  intros g ids' Hg. destruct (decide (f = g)) as [<-|Hne].
  - rewrite lookup_insert_eq in Hg. injection Hg as <-.
    assert (Hn : in_pool (nodes st) (id n)).
    { unfold in_pool. rewrite (Hwf k n Hk).
      apply lookup_lt_Some in Hk. lia. }
    destruct Hf as [Hf|[_ ->]].
    + destruct (Hrec f ids Hf) as [Hin Hnd]. split.
      * apply Forall_app. split; [done|]. by constructor.
      * intros Hb. apply NoDup_app. split; [by apply Hnd|]. split.
        -- intros x Hx Hx'. apply list_elem_of_singleton in Hx'. by subst.
        -- apply NoDup_singleton.
    + split; [by constructor|]. intros _. apply NoDup_singleton.
  - rewrite lookup_insert_ne in Hg by done. exact (Hrec g ids' Hg).
Qed.

Lemma add_loop_sat idxs st a :
  Inv nd st -> Forall (fun k => (k < length (nodes st))%nat) idxs ->
  in_pool (nodes st) src ->
  sat (add_loop f src idxs a st)
    (fun _ st' => repair_rel f nd st st') (fun st' => repair_rel f nd st st').
Proof.
  revert st a. induction idxs as [|k idxs IH]; intros st a HI Hidxs Hsrc.
  - by apply repair_rel_refl.
  - apply Forall_cons in Hidxs as [Hk Hidxs]. cbn [add_loop].
    destruct (node_index_lt st k Hk) as (n & Hn & Hat).
    rewrite (bind_val _ _ _ _ _ Hat).
    rewrite (bind_val _ _ st (default [] (metadata st !! f)) st) by done.
    destruct (active n && bool_decide (id n ∉ default [] (metadata st !! f))) eqn:Hc;
      [|by apply IH].
    apply andb_prop in Hc as [_ Hnotin]. apply bool_decide_eq_true in Hnotin.
    apply sat_bind.
    eapply sat_mono; [by apply copy_from_node_sat| |].
    + intros [] st1 (Hs & Hm & Ho). mrun.
      set (st2 := add_cout _ _).
      assert (HI2 : Inv nd st2).
      { assert (HI1 : Inv nd st1) by by apply (Inv_frame nd st).
        destruct (shape_lookup _ _ _ _ (eq_sym Hs) Hn) as (n1 & Hn1 & Hid & _).
        subst st2. rewrite <- Hm, <- Hid in Hnotin |- *.
        apply (Inv_append st1 k n1); [done|done| |].
        - destruct (metadata st1 !! f); [by left|by right].
        - by destruct (metadata st1 !! f). }
      assert (Hrel : repair_rel f nd st st2).
      { split; [done|]. split; [|split; [done|]].
        - intros g Hg. subst st2. simpl. by rewrite lookup_insert_ne, Hm.
        - exists [MsgAdded f (id n)]. subst st2. simpl. rewrite Ho.
          split; [done|]. by repeat constructor. }
      assert (Hlen : length (nodes st2) = length (nodes st))
        by (apply shape_length; apply Hrel).
      destruct (REPLICATION <=? a + 1); [exact Hrel|].
      eapply sat_mono.
      * apply IH; [apply Hrel| |].
        -- by rewrite Hlen.
        -- unfold in_pool. by rewrite Hlen.
      * intros ? st3 H3. simpl in H3. exact (repair_rel_trans f nd st st2 st3 Hrel H3).
      * intros st3 H3. simpl in H3. exact (repair_rel_trans f nd st st2 st3 Hrel H3).
    + intros st1 ->. by apply repair_rel_refl.
Qed.

End RepairInvariant.

Section RepairKeepsInvariant.

Variable nd : bool.

Lemma seq_lt n : Forall (fun k => (k < n)%nat) (seq 0 n).
Proof. apply Forall_forall. intros k Hk. apply elem_of_seq in Hk. lia. Qed.

(** A repair never indexes the node vector out of range, lets no
    exception escape, and changes only the directories and the record of
    its file, keeping the invariant. *)
Lemma reReplicateFile_sat f st :
  Inv nd st ->
  sat (reReplicateFile f st) (fun _ st' => repair_rel f nd st st') (fun _ => False).
Proof.
  intros HI. unfold reReplicateFile.
  rewrite (bind_val _ _ st (metadata st !! f) st) by done.
  destruct (metadata st !! f) as [ids|] eqn:Hf; [|by apply repair_rel_refl].
  destruct HI as [Hwf Hrec]. destruct (Hrec f ids Hf) as [Hids _].
  assert (HI : Inv nd st) by done.
  rewrite (bind_val _ _ _ _ _ (count_active_eq ids st 0 Hids)).
  destruct (REPLICATION <=? _); [by apply repair_rel_refl|].
  rewrite (bind_val _ _ _ _ _ (find_source_eq ids st Hids)).
  destruct (first_active (nodes st) ids) as [src|] eqn:Hsrc;
    [|by apply repair_rel_refl].
  apply first_active_Some in Hsrc as [Hin _].
  assert (Hpool : in_pool (nodes st) src).
  { rewrite Forall_forall in Hids. by apply Hids. }
  change (default (-1) (Some src)) with src. destruct (src =? -1) eqn:Hm1.
  { apply Z.eqb_eq in Hm1. unfold in_pool in Hpool. lia. }
  apply sat_bind, sat_attempt, sat_bind.
  eapply sat_mono; [by apply (restore_loop_sat f nd src)| |].
  - intros a1 st1 H1. simpl.
    assert (Hlen : length (nodes st1) = length (nodes st))
      by (apply shape_length; apply H1).
    rewrite (bind_val _ _ st1 (seq 0 (length (nodes st1))) st1) by done.
    apply sat_bind.
    assert (Hsave : forall st2, repair_rel f nd st st2 ->
      sat (saveMetadata st2)
        (fun a st' => sat (ret tt st') (fun _ st'' => repair_rel f nd st st'')
                        (fun _ => False))
        (fun st' => sat (print MsgRepairError st')
                        (fun _ st'' => repair_rel f nd st st'') (fun _ => False))).
    { intros st2 H2. simpl. destruct H2 as (? & ? & ? & ?). done. }
    destruct (a1 <? REPLICATION).
    + apply sat_bind. eapply sat_mono.
      * apply (add_loop_sat f nd src); [apply H1|apply seq_lt|].
        unfold in_pool. by rewrite Hlen.
      * intros a2 st2 H2. simpl. apply Hsave.
        exact (repair_rel_trans f nd st st1 st2 H1 H2).
      * intros st2 H2. simpl.
        apply (repair_rel_trans f nd st st2); [exact (repair_rel_trans f nd st st1 st2 H1 H2)|].
        destruct (repair_rel_trans f nd st st1 st2 H1 H2) as (_ & _ & HI2 & _).
        apply (repair_rel_frame f nd st2 _ [MsgRepairError]); try done.
        by repeat constructor.
    + simpl. by apply Hsave.
  - intros st1 H1. simpl.
    apply (repair_rel_trans f nd st st1); [done|].
    destruct H1 as (_ & _ & HI1 & _).
    apply (repair_rel_frame f nd st1 _ [MsgRepairError]); try done.
    by repeat constructor.
Qed.

End RepairKeepsInvariant.

(** ** The health check *)

Section HealthCheck.

Variable nd : bool.

Lemma Inv_current_nodes st g :
  Inv nd st -> Forall (in_pool (nodes st)) (default [] (metadata st !! g)).
Proof.
  intros [_ Hrec]. destruct (metadata st !! g) as [ids|] eqn:Hg; [|by constructor].
  by destruct (Hrec g ids Hg).
Qed.

(** The loop of the health check is a warning and a repair for exactly
    the files that are degraded when the check starts. *)
Lemma health_loop_eq l st0 st :
  NoDup l -> Inv nd st -> shape (nodes st) = shape (nodes st0) ->
  (forall g, g ∈ l -> metadata st !! g = metadata st0 !! g) ->
  health_loop l st = warn_and_repair (filter (degraded st0) l) st.
Proof.
  intros Hnd. revert st. induction Hnd as [|g l Hg Hnd IH]; intros st HI Hs Hm; [done|].
  cbn [health_loop].
  rewrite (bind_val _ _ st (default [] (metadata st !! g)) st) by done.
  rewrite (bind_val _ _ _ _ _ (count_active_eq _ st 0 (Inv_current_nodes st g HI))).
  rewrite filter_cons.
  assert (Hc : active_count (nodes st) (default [] (metadata st !! g)) =
               active_count (nodes st0) (default [] (metadata st0 !! g))).
  { rewrite (Hm g) by left. by apply shape_active_count. }
  assert (Hrest : forall st1,
    shape (nodes st1) = shape (nodes st) ->
    (forall h, h <> g -> metadata st1 !! h = metadata st !! h) ->
    Inv nd st1 ->
    health_loop l st1 = warn_and_repair (filter (degraded st0) l) st1).
  { intros st1 Hs1 Hm1 HI1. apply IH; [done|by rewrite Hs1|].
    intros h Hh. rewrite Hm1 by (intros ->; done). apply Hm. by right. }
  destruct (decide (degraded st0 g)) as [Hd|Hd]; unfold degraded in Hd.
  - cbn [warn_and_repair].
    rewrite (bind_val _ _ st (default [] (metadata st !! g)) st) by done.
    rewrite (bind_val _ _ _ _ _ (count_active_eq _ st 0 (Inv_current_nodes st g HI))).
    rewrite Z.add_0_l, Hc.
    destruct (_ <? 2) eqn:Hlt; [|apply Z.ltb_ge in Hlt; lia].
    mrun. set (st1 := add_cout _ st).
    assert (HI1 : Inv nd st1) by done.
    pose proof (reReplicateFile_sat nd g st1 HI1) as Hsat.
    destruct (reReplicateFile g st1) as [[[]| |] st2]; try done.
    simpl in Hsat. destruct Hsat as (Hs2 & Hm2 & HI2 & _). by apply Hrest.
  - rewrite Z.add_0_l, Hc.
    destruct (_ <? 2) eqn:Hlt; [apply Z.ltb_lt in Hlt; lia|].
    mrun. by apply Hrest.
Qed.

(** What the warnings and repairs of a list of files leave behind. *)
Lemma warn_and_repair_sat l st :
  NoDup l -> Inv nd st ->
  sat (warn_and_repair l st)
    (fun _ st' =>
       Inv nd st' /\ shape (nodes st') = shape (nodes st) /\
       (forall g, g ∉ l -> metadata st' !! g = metadata st !! g) /\
       exists out, cout st' = cout st ++ out /\
         forall g c, MsgWarning g c ∈ out <->
           g ∈ l /\ c = active_count (nodes st) (default [] (metadata st !! g)))
    (fun _ => False).
Proof.
  intros Hnd. revert st. induction Hnd as [|g l Hg Hnd IH]; intros st HI.
  - simpl. split; [done|]. split; [done|]. split; [done|].
    exists []. rewrite app_nil_r. split; [done|].
    intros h c. split; [by intros ?%elem_of_nil|by intros [?%elem_of_nil _]].
  - cbn [warn_and_repair].
    rewrite (bind_val _ _ st (default [] (metadata st !! g)) st) by done.
    rewrite (bind_val _ _ _ _ _ (count_active_eq _ st 0 (Inv_current_nodes st g HI))).
    rewrite Z.add_0_l. mrun.
    set (c0 := active_count (nodes st) (default [] (metadata st !! g))).
    set (st1 := add_cout _ st).
    assert (HI1 : Inv nd st1) by done.
    pose proof (reReplicateFile_sat nd g st1 HI1) as Hsat.
    destruct (reReplicateFile g st1) as [[[]| |] st2]; try done.
    simpl in Hsat. destruct Hsat as (Hs2 & Hm2 & HI2 & out2 & Ho2 & Hr2).
    eapply sat_mono; [apply (IH st2 HI2)| |done].
    intros [] st3 (HI3 & Hs3 & Hm3 & out3 & Ho3 & Hw3).
    split; [done|]. split; [by rewrite Hs3, Hs2|]. split.
    { intros h Hh. apply not_elem_of_cons in Hh as [Hne Hh].
      by rewrite (Hm3 h Hh), (Hm2 h Hne). }
    exists (MsgWarning g c0 :: out2 ++ out3). split.
    { rewrite Ho3, Ho2. subst st1. simpl. by rewrite <- !app_assoc. }
    intros h c. rewrite elem_of_cons, elem_of_app, Hw3, elem_of_cons.
    assert (Hno : MsgWarning h c ∉ out2).
    { intros Hin. rewrite Forall_forall in Hr2. by apply Hr2 in Hin. }
    assert (Hsame : forall h', h' ∈ l ->
      active_count (nodes st2) (default [] (metadata st2 !! h')) =
      active_count (nodes st) (default [] (metadata st !! h'))).
    { intros h' Hh'. rewrite Hm2 by (intros ->; done).
      by apply shape_active_count. }
    split.
    + intros [Heq|[Hin|[Hin ->]]].
      * injection Heq as -> ->. split; [by left|done].
      * done.
      * split; [by right|]. by apply Hsame.
    + intros [[->|Hin] ->].
      * by left.
      * right. right. split; [done|]. by rewrite Hsame.
Qed.

Lemma keys_NoDup st : NoDup (keys st).
Proof.
  unfold keys, entries. rewrite merge_sort_Permutation.
  apply NoDup_fst_map_to_list.
Qed.

Lemma elem_of_keys st g : g ∈ keys st <-> is_Some (metadata st !! g).
Proof.
  unfold keys, entries. rewrite merge_sort_Permutation, list_elem_of_fmap. split.
  - intros ([g' ids] & -> & Hin). apply elem_of_map_to_list in Hin. by exists ids.
  - intros [ids Hg]. exists (g, ids). split; [done|]. by apply elem_of_map_to_list.
Qed.

Lemma checkReplicaHealth_eq st :
  Inv nd st ->
  checkReplicaHealth st = warn_and_repair (filter (degraded st) (keys st)) st.
Proof.
  intros HI. unfold checkReplicaHealth.
  rewrite (bind_val _ _ st (keys st) st) by done.
  apply (health_loop_eq (keys st) st st); [apply keys_NoDup|done|done|done].
Qed.

Lemma elem_of_flagged st g :
  g ∈ filter (degraded st) (keys st) <->
  exists ids, metadata st !! g = Some ids /\ active_count (nodes st) ids < 2.
Proof.
  rewrite list_elem_of_filter, elem_of_keys. unfold degraded. split.
  - intros [Hd [ids Hg]]. exists ids. by rewrite Hg in Hd.
  - intros (ids & Hg & Hd). rewrite Hg. split; [done|by exists ids].
Qed.

Lemma flip_node_shape recover i st :
  id <$> nodes (flip_node recover i st) = id <$> nodes st.
Proof.
  unfold flip_node. simpl.
  apply list_eq. intros k. rewrite !list_lookup_fmap.
  destruct (decide (Z.to_nat (i - 1) = k)) as [<-|Hne].
  - rewrite list_lookup_alter_eq.
    destruct (nodes st !! Z.to_nat (i - 1)); [|done]. by destruct recover.
  - by rewrite list_lookup_alter_ne.
Qed.

Lemma flip_node_Inv recover i st : Inv nd st -> Inv nd (flip_node recover i st).
Proof.
  intros [Hwf Hrec].
  pose proof (flip_node_shape recover i st) as Hids.
  assert (Hlen : length (nodes (flip_node recover i st)) = length (nodes st)).
  { apply (f_equal length) in Hids. by rewrite !length_fmap in Hids. }
  split.
  - intros k n' Hk.
    assert (Hk' : (id <$> nodes st) !! k = Some (id n'))
      by (by rewrite <- Hids, list_lookup_fmap, Hk).
    rewrite list_lookup_fmap in Hk'.
    destruct (nodes st !! k) as [n|] eqn:Hn; [|done].
    injection Hk' as <-. by apply Hwf.
  - intros g ids Hg. destruct (Hrec g ids Hg) as [Hin Hn]. split; [|done].
    eapply Forall_impl; [exact Hin|]. unfold in_pool. intros j. by rewrite Hlen.
Qed.

(** [failNode] and [recoverNode] on the id of a node: the flag is
    written, then the health check runs, then an empty line is printed. *)
Lemma transition_eq (recover : bool) i st :
  in_pool (nodes st) i ->
  (if recover then recoverNode i st else failNode i st) =
  (checkReplicaHealth >> print MsgNewline) (flip_node recover i st).
Proof.
  intros Hi. destruct (node_at_in_pool st i Hi) as (n & Hn & Hat).
  assert (Hok : valid_node_id i st = (Val true, st)).
  { unfold valid_node_id, gets. unfold in_pool in Hi.
    destruct (i <? 1) eqn:H1; [apply Z.ltb_lt in H1; lia|].
    destruct (_ <? i) eqn:H2; [apply Z.ltb_lt in H2; lia|]. done. }
  assert (Halter : forall g : Node -> Node,
    alter g (Z.to_nat (i - 1)) (nodes st) = <[Z.to_nat (i - 1) := g n]> (nodes st)).
  { intros g. apply list_eq. intros k.
    destruct (decide (Z.to_nat (i - 1) = k)) as [<-|Hne].
    - rewrite list_lookup_alter_eq, Hn, list_lookup_insert_eq;
        [done|by apply lookup_lt_Some in Hn].
    - by rewrite list_lookup_alter_ne, list_lookup_insert_ne. }
  unfold flip_node. rewrite Halter.
  destruct recover; unfold recoverNode, failNode;
    rewrite (bind_val _ _ _ _ _ Hok); cbn [negb];
    rewrite (bind_val _ _ _ _ _ Hat); by mrun.
Qed.

End HealthCheck.

(** ** Example states *)

Section Examples.

Lemma pool4_wf a1 a2 a3 a4 : pool_wf (pool4 a1 a2 a3 a4).
Proof.
  intros k n Hk. unfold pool4 in Hk.
  do 4 (destruct k as [|k]; [apply (inj Some) in Hk; by subst n|]).
  discriminate Hk.
Qed.

Lemma st_abc_Inv nd a1 a2 a3 a4 : Inv nd (st_abc a1 a2 a3 a4).
Proof.
  split; [apply pool4_wf|]. simpl. intros f ids Hf.
  apply lookup_singleton_Some in Hf as [Hf1 Hf2]. subst f ids. split.
  - unfold in_pool. simpl. repeat constructor; lia.
  - intros _. by apply (bool_decide_unpack _).
Qed.

End Examples.

(** ** The threshold of the health check *)

(** C2: after [failNode] or [recoverNode] on the id of a node of the
    pool, the flag is written and the health check runs at once over
    every record; a warning followed by a repair happens for a file if
    and only if fewer than 2 of its listed nodes are active at that
    moment. The operation is the flag change followed by a warning and a
    repair for exactly those files, in key order, each once; the
    warnings printed are exactly theirs; and a file with exactly 2
    active replicas, although below the replication factor 3, is not
    flagged, gets no warning, and keeps its record. *)
Theorem health_check_threshold (recover : bool) (i : Z) (st : State) :
  pool_wf (nodes st) ->
  (forall f ids, metadata st !! f = Some ids -> Forall (in_pool (nodes st)) ids) ->
  in_pool (nodes st) i ->
  let op := if recover then recoverNode i else failNode i in
  let st1 := flip_node recover i st in
  let flagged := filter (degraded st1) (keys st1) in
  NoDup flagged /\
  (forall f, f ∈ flagged <->
     exists ids, metadata st1 !! f = Some ids /\ active_count (nodes st1) ids < 2) /\
  op st = (warn_and_repair flagged >> print MsgNewline) st1 /\
  exists st' out,
    op st = (Val tt, st') /\
    cout st' = cout st1 ++ out ++ [MsgNewline] /\
    (forall f c, MsgWarning f c ∈ out <->
       exists ids, metadata st1 !! f = Some ids /\
                   c = active_count (nodes st1) ids /\ c < 2) /\
    (forall f ids, metadata st1 !! f = Some ids ->
       active_count (nodes st1) ids = 2 ->
       (2 < REPLICATION) /\ (f ∉ flagged) /\ (forall c, MsgWarning f c ∉ out) /\
       metadata st' !! f = Some ids).
Proof.
  intros Hwf Hrec Hi op st1 flagged.
  assert (HI : Inv false st).
  { split; [done|]. intros f ids Hf. split; [by apply (Hrec f)|done]. }
  assert (HI1 : Inv false st1) by by apply flip_node_Inv.
  assert (Hnd : NoDup flagged) by apply NoDup_filter, keys_NoDup.
  assert (Hop : op st = (warn_and_repair flagged >> print MsgNewline) st1).
  { transitivity ((checkReplicaHealth >> print MsgNewline) st1).
    - subst op st1. rewrite <- (transition_eq recover i st Hi). by destruct recover.
    - unfold bind. by rewrite (checkReplicaHealth_eq false st1 HI1). }
  clearbody st1.
  split; [done|]. split; [apply elem_of_flagged|]. split; [done|].
  pose proof (warn_and_repair_sat false flagged st1 Hnd HI1) as Hsat.
  rewrite Hop. unfold bind at 1.
  destruct (warn_and_repair flagged st1) as [[[]| |] st2]; try done.
  simpl in Hsat. destruct Hsat as (HI2 & Hs2 & Hm2 & out & Ho & Hw).
  exists (add_cout MsgNewline st2), out. split; [done|]. split.
  { simpl. by rewrite Ho, app_assoc. }
  assert (Hwarn : forall f c, MsgWarning f c ∈ out <->
     exists ids, metadata st1 !! f = Some ids /\
                 c = active_count (nodes st1) ids /\ c < 2).
  { intros f c. rewrite Hw. subst flagged. rewrite elem_of_flagged. split.
    - intros [(ids & Hf & Hlt) ->]. exists ids. by rewrite Hf.
    - intros (ids & Hf & -> & Hlt). rewrite Hf. split; [by exists ids|done]. }
  split; [done|].
  intros f ids Hf Htwo.
  assert (Hnot : f ∉ flagged).
  { subst flagged. rewrite elem_of_flagged. intros (ids' & Hf' & Hlt).
    rewrite Hf in Hf'. injection Hf' as <-. lia. }
  split; [done|]. split; [done|]. split.
  - intros c Hin. apply Hwarn in Hin as (ids' & Hf' & -> & Hlt).
    rewrite Hf in Hf'. injection Hf' as <-. lia.
  - simpl. by rewrite (Hm2 f Hnot).
Qed.

(** The scenario of the specification: four nodes, [a.txt] on nodes 1, 2
    and 3, then [failNode(2)]: two replicas stay active and the record is
    unchanged. *)
Lemma health_check_threshold_witness :
  exists st', failNode 2 (st_abc true true true true) = (Val tt, st') /\
              metadata st' !! "a.txt" = Some [1; 2; 3].
Proof.
  destruct (health_check_threshold false 2 (st_abc true true true true))
    as (_ & _ & _ & st' & out & Hop & _ & _ & Htwo).
  - apply pool4_wf.
  - intros f ids Hf. by destruct (st_abc_Inv false true true true true) as [_ Hrec];
      destruct (Hrec f ids Hf).
  - unfold in_pool. simpl. lia.
  - exists st'. split; [exact Hop|].
    destruct (Htwo "a.txt" [1; 2; 3]) as (_ & _ & _ & Hrec); [reflexivity|reflexivity|].
    exact Hrec.
Defined.

(** ** Upload *)

Section Upload.

Variables f c : string.

Lemma alter_put_blob (ns : list Node) (k : nat) n :
  ns !! k = Some n -> <[k := put_blob f c n]> ns = alter (put_blob f c) k ns.
Proof.
  intros Hk. apply list_eq. intros j.
  destruct (decide (k = j)) as [<-|Hne].
  - rewrite list_lookup_alter_eq, Hk, list_lookup_insert_eq;
      [done|by apply lookup_lt_Some in Hk].
  - by rewrite list_lookup_alter_ne, list_lookup_insert_ne.
Qed.

Lemma shape_alter_put (ns : list Node) (k : nat) :
  shape (alter (put_blob f c) k ns) = shape ns.
Proof.
  destruct (ns !! k) as [n|] eqn:Hk.
  - rewrite <- (alter_put_blob ns k n Hk). by apply shape_put_blob.
  - f_equal. apply list_eq. intros j. destruct (decide (k = j)) as [<-|Hne].
    + by rewrite list_lookup_alter_eq, Hk.
    + by rewrite list_lookup_alter_ne.
Qed.

Lemma shape_put_all targets ns : shape (put_all f c targets ns) = shape ns.
Proof.
  unfold put_all. revert ns. induction targets as [|k targets IH]; intros ns; [done|].
  simpl. by rewrite IH, shape_alter_put.
Qed.

Lemma placement_cons_active ns k idxs r :
  active_at ns k = true -> r < REPLICATION ->
  placement ns (k :: idxs) r = k :: placement ns idxs (r + 1).
Proof.
  intros Hk Hr. unfold placement. rewrite filter_cons_True by done.
  replace (Z.to_nat (REPLICATION - r)) with (S (Z.to_nat (REPLICATION - (r + 1)))) by lia.
  done.
Qed.

Lemma placement_cons_inactive ns k idxs r :
  active_at ns k = false -> placement ns (k :: idxs) r = placement ns idxs r.
Proof.
  intros Hk. unfold placement. rewrite filter_cons_False; [done|]. by rewrite Hk.
Qed.

Lemma placement_full ns idxs : placement ns idxs REPLICATION = [].
Proof. unfold placement. by rewrite Z.sub_diag. Qed.

Lemma placement_shape ns ns' idxs r :
  shape ns' = shape ns -> placement ns' idxs r = placement ns idxs r.
Proof.
  intros H. unfold placement. f_equal. apply list_filter_iff.
  intros k. by rewrite (shape_active_at _ _ _ H).
Qed.

Lemma elem_of_placement ns idxs r k :
  k ∈ placement ns idxs r -> k ∈ idxs /\ active_at ns k = true.
Proof.
  unfold placement. intros Hk. apply elem_of_take in Hk as (j & Hj & _).
  apply list_elem_of_lookup_2 in Hj. by apply list_elem_of_filter in Hj as [? ?].
Qed.

Lemma writable_at_alter_ne (ns : list Node) (k j : nat) :
  k <> j -> writable_at (alter (put_blob f c) k ns) j = writable_at ns j.
Proof. intros Hne. unfold writable_at. by rewrite list_lookup_alter_ne. Qed.

(** The loop of [upload]: it copies the source to the nodes of the
    placement, in order, and stops at the first one that refuses the
    copy. *)
Lemma upload_loop_sat idxs st used r :
  NoDup idxs -> pool_wf (nodes st) ->
  Forall (fun k => (k < length (nodes st))%nat) idxs ->
  0 <= r < REPLICATION ->
  sat (upload_loop f c idxs used r st)
    (fun p st' =>
       let targets := placement (nodes st) idxs r in
       p = (used ++ (id_at <$> targets), r + Z.of_nat (length targets)) /\
       st' = set_nodes (put_all f c targets (nodes st)) st /\
       Forall (fun k => writable_at (nodes st) k = true) targets)
    (fun st' =>
       shape (nodes st') = shape (nodes st) /\ metadata st' = metadata st /\
       files st' = files st /\ cout st' = cout st /\
       exists k, k ∈ placement (nodes st) idxs r /\ writable_at (nodes st) k = false).
Proof.
  intros Hnd. revert st used r.
  induction Hnd as [|k idxs Hk Hnd IH]; intros st used r Hwf Hidxs Hr.
  - assert (Hnil : placement (nodes st) [] r = [])
      by (unfold placement; by rewrite filter_nil, take_nil).
    simpl. rewrite Hnil. simpl.
    split; [by rewrite app_nil_r, Z.add_0_r|]. split; [by destruct st|done].
  - apply Forall_cons in Hidxs as [Hlt Hidxs]. cbn [upload_loop].
    destruct (node_index_lt st k Hlt) as (n & Hn & Hat).
    rewrite (bind_val _ _ _ _ _ Hat).
    assert (Hact : active_at (nodes st) k = active n) by (unfold active_at; by rewrite Hn).
    assert (Hw : writable_at (nodes st) k = writable (directory n))
      by (unfold writable_at; by rewrite Hn).
    destruct (active n) eqn:Han.
    + rewrite (placement_cons_active _ _ _ _ Hact) by lia.
      unfold bind at 1 2. rewrite (copy_to_node_eq f c k st n Hn).
      destruct (writable (directory n)) eqn:Hwn.
      * mrun. rewrite (alter_put_blob _ _ _ Hn), (Hwf k n Hn).
        set (st1 := set_nodes (alter (put_blob f c) k (nodes st)) st).
        assert (Hs1 : shape (nodes st1) = shape (nodes st)) by apply shape_alter_put.
        destruct (r + 1 =? REPLICATION) eqn:Hfull.
        -- apply Z.eqb_eq in Hfull. rewrite Hfull, placement_full. simpl.
           split; [|split; [done|by repeat constructor]].
           f_equal. lia.
        -- apply Z.eqb_neq in Hfull.
           assert (Hother : forall j, j ∈ placement (nodes st) idxs (r + 1) -> k <> j).
           { intros j Hj ->. by apply elem_of_placement in Hj as [? _]. }
           eapply sat_mono.
           ++ apply IH; [by apply (shape_pool_wf (nodes st))| |lia].
              rewrite (shape_length _ _ Hs1). exact Hidxs.
           ++ intros p st'. cbv zeta. rewrite (placement_shape _ _ _ _ Hs1).
              intros (-> & -> & Hws). split; [|split; [done|]].
              ** csimpl. rewrite <- app_assoc. f_equal. lia.
              ** constructor; [done|]. rewrite Forall_forall in Hws |- *.
                 intros j Hj. rewrite <- (Hws j Hj). symmetry.
                 apply writable_at_alter_ne. by apply Hother.
           ++ intros st'. rewrite (placement_shape _ _ _ _ Hs1).
              intros (Hs & Hm & Hf & Ho & j & Hj & Hwj).
              split; [by rewrite Hs|]. split; [done|]. split; [done|]. split; [done|].
              exists j. split; [by right|]. rewrite <- Hwj. symmetry.
              apply writable_at_alter_ne. by apply Hother.
      * simpl. split; [done|]. split; [done|]. split; [done|]. split; [done|].
        exists k. split; [by left|]. by rewrite Hw.
    + rewrite (placement_cons_inactive _ _ _ _ Hact).
      unfold bind at 1. mrun.
      destruct (r =? REPLICATION) eqn:Hfull; [apply Z.eqb_eq in Hfull; lia|].
      by apply IH.
Qed.

End Upload.

Section UploadOutcome.

Lemma is_active_id_at ns k : is_active ns (id_at k) = active_at ns k.
Proof.
  unfold is_active, index_of_id, id_at.
  destruct (1 <=? Z.of_nat k + 1) eqn:H1; [|apply Z.leb_gt in H1; lia].
  destruct (Z.of_nat k + 1 <=? Z.of_nat (length ns)) eqn:H2; simpl.
  - by replace (Z.to_nat (Z.of_nat k + 1 - 1)) with k by lia.
  - apply Z.leb_gt in H2. unfold active_at.
    rewrite (proj2 (lookup_ge_None ns k)); [done|lia].
Qed.

Lemma filter_fmap_comm {X Y} (g : X -> Y) (P : Y -> Prop)
    `{!forall y, Decision (P y)} (l : list X) :
  filter P (g <$> l) = g <$> filter (fun x => P (g x)) l.
Proof.
  induction l as [|x l IH]; [done|]. csimpl. rewrite !filter_cons, IH.
  by destruct (decide (P (g x))).
Qed.

Lemma seqZ_id_at n : seqZ 1 (Z.of_nat n) = id_at <$> seq 0 n.
Proof. unfold seqZ. by rewrite Nat2Z.id. Qed.

(** The ids of the placement are the first [REPLICATION] active ids. *)
Lemma placement_active_ids ns :
  id_at <$> placement ns (seq 0 (length ns)) 0 = take 3 (active_ids ns).
Proof.
  unfold placement, active_ids. rewrite fmap_take, seqZ_id_at, filter_fmap_comm.
  change (Z.to_nat (REPLICATION - 0)) with 3%nat. do 2 f_equal.
  apply list_filter_iff. intros k. by rewrite is_active_id_at.
Qed.

Lemma placement_NoDup ns idxs r : NoDup idxs -> NoDup (placement ns idxs r).
Proof.
  intros H. unfold placement.
  eapply sublist_NoDup; [|apply sublist_take]. by apply NoDup_filter.
Qed.

Lemma placement_length ns idxs : (length (placement ns idxs 0) <= 3)%nat.
Proof.
  unfold placement. change (Z.to_nat (REPLICATION - 0)) with 3%nat.
  rewrite length_take. lia.
Qed.

(** Every way in which [upload] ends. *)
Lemma upload_cases f st :
  pool_wf (nodes st) ->
  let targets := placement (nodes st) (seq 0 (length (nodes st))) 0 in
  exists st', upload f st = (Val tt, st') /\
    ((files st !! f = None /\ st' = add_cout MsgUploadNoSource st) \/
     exists c, files st !! f = Some c /\
       ((shape (nodes st') = shape (nodes st) /\ metadata st' = metadata st /\
         files st' = files st /\ cout st' = cout st ++ [MsgUploadCopyError] /\
         exists k, k ∈ targets /\ writable_at (nodes st) k = false) \/
        (Forall (fun k => writable_at (nodes st) k = true) targets /\
         (length targets < 3)%nat /\
         st' = add_cout MsgNotEnoughNodes
                 (set_nodes (put_all f c targets (nodes st)) st)) \/
        (Forall (fun k => writable_at (nodes st) k = true) targets /\
         length targets = 3%nat /\
         st' = upload_success_state f c st))).
Proof.
  intros Hwf targets. unfold upload.
  rewrite (bind_val _ _ st (files st !! f) st) by done.
  destruct (files st !! f) as [c|] eqn:Hsrc.
  2: { eexists. split; [reflexivity|]. by left. }
  rewrite (bind_val _ _ st (seq 0 (length (nodes st))) st) by done.
  pose proof (upload_loop_sat f c (seq 0 (length (nodes st))) st [] 0
    (NoDup_seq _ _) Hwf (seq_lt _) ltac:(unfold REPLICATION; lia)) as Hsat.
  unfold bind, attempt.
  destruct (upload_loop f c _ [] 0 st) as [[[used r]| |] st1]; [| |done].
  - simpl in Hsat. destruct Hsat as (Hp & -> & Hw). fold targets in Hp, Hw |- *.
    injection Hp as -> ->. pose proof (placement_length (nodes st) (seq 0 (length (nodes st)))) as Hle.
    fold targets in Hle.
    destruct (0 + Z.of_nat (length targets) <? REPLICATION) eqn:Hlt.
    + apply Z.ltb_lt in Hlt. unfold REPLICATION in Hlt.
      eexists. split; [reflexivity|]. right. exists c. split; [done|].
      right. left. split; [done|]. split; [lia|done].
    + apply Z.ltb_ge in Hlt. unfold REPLICATION in Hlt.
      eexists. split; [reflexivity|]. right. exists c. split; [done|].
      right. right. split; [done|]. split; [lia|done].
  - simpl in Hsat. destruct Hsat as (Hs & Hm & Hf & Ho & k & Hk & Hwk).
    eexists. split; [reflexivity|]. right. exists c. split; [done|]. left.
    simpl. rewrite Ho. repeat split; try done. by exists k.
Qed.

End UploadOutcome.


(** ** Placement of an upload *)

Section Placement.

Lemma StronglySorted_seq j n : StronglySorted lt (seq j n).
Proof.
  revert j. induction n as [|n IH]; intros j; simpl; constructor; [apply IH|].
  apply Forall_forall. intros k Hk. apply elem_of_seq in Hk. lia.
Qed.

Lemma Forall_sublist {X} (P : X -> Prop) (l1 l2 : list X) :
  l1 `sublist_of` l2 -> Forall P l2 -> Forall P l1.
Proof.
  intros Hsub%sublist_subseteq H. rewrite Forall_forall in H |- *.
  intros x Hx. apply H. by apply Hsub.
Qed.

Lemma StronglySorted_sublist {X} (R : relation X) (l1 l2 : list X) :
  l1 `sublist_of` l2 -> StronglySorted R l2 -> StronglySorted R l1.
Proof.
  induction 1 as [|x l1 l2 Hsub IH|x l1 l2 Hsub IH]; intros Hs; [done| |].
  - apply StronglySorted_inv in Hs as [Hs Hx]. constructor; [by apply IH|].
    by apply (Forall_sublist _ l1 l2).
  - apply StronglySorted_inv in Hs as [Hs _]. by apply IH.
Qed.

Lemma active_ids_sublist ns : active_ids ns `sublist_of` seqZ 1 (Z.of_nat (length ns)).
Proof. apply sublist_filter. Qed.

Lemma first_active_ids ns :
  let used := take 3 (active_ids ns) in
  NoDup used /\ StronglySorted Z.lt used /\ Forall (in_pool ns) used.
Proof.
  intros used.
  assert (Hsub : used `sublist_of` seqZ 1 (Z.of_nat (length ns))).
  { etrans; [apply sublist_take|apply active_ids_sublist]. }
  split; [|split].
  - eapply sublist_NoDup; [apply NoDup_seqZ|done].
  - eapply StronglySorted_sublist; [done|]. rewrite seqZ_id_at.
    eapply StronglySorted_fmap; [|apply StronglySorted_seq].
    intros x y Hxy. unfold id_at. lia.
  - apply (Forall_sublist _ _ _ Hsub). apply Forall_forall.
    intros i Hi. apply elem_of_seqZ in Hi. unfold in_pool. lia.
Qed.

(** A reported success pins down the final state. *)
Lemma upload_success f st st1 used :
  pool_wf (nodes st) ->
  upload f st = (Val tt, st1) ->
  cout st1 = cout st ++ [MsgUploadSuccess used] ->
  exists c, files st !! f = Some c /\ st1 = upload_success_state f c st /\
            used = take 3 (active_ids (nodes st)) /\ length used = 3%nat.
Proof.
  intros Hwf Hup Hout.
  destruct (upload_cases f st Hwf) as (st' & Heq & Hcases).
  rewrite Hup in Heq. injection Heq as <-.
  destruct Hcases as [[_ ->]|(c & Hc & [Hcase|[Hcase|Hcase]])].
  - simpl in Hout. by apply app_inj_tail in Hout as [_ ?].
  - destruct Hcase as (_ & _ & _ & Ho & _). rewrite Ho in Hout.
    by apply app_inj_tail in Hout as [_ ?].
  - destruct Hcase as (_ & _ & ->). simpl in Hout.
    by apply app_inj_tail in Hout as [_ ?].
  - destruct Hcase as (_ & Hlen & ->). exists c. split; [done|]. split; [done|].
    simpl in Hout. apply app_inj_tail in Hout as [_ Hused].
    injection Hused as <-. rewrite <- placement_active_ids.
    split; [done|]. by rewrite length_fmap.
Qed.

End Placement.

(** C6: right after a successful upload the record of the file lists
    exactly 3 distinct node ids, the first 3 active nodes in ascending
    id order; and a second successful upload of the same name leaves a
    record of exactly 3 ids again, those of the second placement. *)
Theorem upload_replica_count (f : string) (st st1 : State) (used : list Z) :
  pool_wf (nodes st) ->
  upload f st = (Val tt, st1) ->
  cout st1 = cout st ++ [MsgUploadSuccess used] ->
  metadata st1 !! f = Some used /\
  used = take 3 (active_ids (nodes st)) /\
  length used = 3%nat /\ NoDup used /\ StronglySorted Z.lt used /\
  Forall (in_pool (nodes st)) used /\
  forall st2 used2,
    upload f st1 = (Val tt, st2) ->
    cout st2 = cout st1 ++ [MsgUploadSuccess used2] ->
    metadata st2 !! f = Some used2 /\
    used2 = take 3 (active_ids (nodes st1)) /\ length used2 = 3%nat.
Proof.
  intros Hwf Hup Hout.
  destruct (upload_success f st st1 used Hwf Hup Hout) as (c & Hc & Hst1 & Hused & Hlen).
  assert (Hrec : forall s s' u c',
    s' = upload_success_state f c' s -> u = take 3 (active_ids (nodes s)) ->
    metadata s' !! f = Some u).
  { intros s s' u c' -> ->. simpl. rewrite lookup_insert_eq.
    by rewrite placement_active_ids. }
  destruct (first_active_ids (nodes st)) as (Hnd & Hsorted & Hpool).
  rewrite <- Hused in Hnd, Hsorted, Hpool.
  split; [by apply (Hrec st st1 used c)|]. do 5 (split; [done|]).
  intros st2 used2 Hup2 Hout2.
  assert (Hwf1 : pool_wf (nodes st1)).
  { rewrite Hst1. simpl. apply (shape_pool_wf (nodes st)); [|done].
    apply shape_put_all. }
  destruct (upload_success f st1 st2 used2 Hwf1 Hup2 Hout2)
    as (c2 & Hc2 & Hst2 & Hused2 & Hlen2).
  split; [by apply (Hrec st1 st2 used2 c2)|done].
Qed.

Lemma upload_replica_count_witness :
  metadata (upload "b.txt" (st_new_file true false true true)).2 !! "b.txt" =
    Some [1; 3; 4] /\
  metadata (upload "a.txt" (st_new_file true false true true)).2 !! "a.txt" =
    Some [1; 3; 4].
Proof.
  split.
  - destruct (upload_replica_count "b.txt" (st_new_file true false true true)
             (upload "b.txt" (st_new_file true false true true)).2 [1; 3; 4])
      as [H _]; [apply pool4_wf|vm_compute; reflexivity|vm_compute; reflexivity|].
    exact H.
  - destruct (upload_replica_count "a.txt" (st_new_file true false true true)
             (upload "a.txt" (st_new_file true false true true)).2 [1; 3; 4])
      as [H _]; [apply pool4_wf|vm_compute; reflexivity|vm_compute; reflexivity|].
    exact H.
Defined.

(** ** Upload with too few active nodes *)

Section Insufficient.

Lemma put_blob_idemp f c n : put_blob f c (put_blob f c n) = put_blob f c n.
Proof. unfold put_blob, Node_with_directory. simpl. by rewrite insert_insert_eq. Qed.

Lemma put_all_lookup f c targets (ns : list Node) (k : nat) :
  put_all f c targets ns !! k =
  if decide (k ∈ targets) then put_blob f c <$> ns !! k else ns !! k.
Proof.
  unfold put_all. revert ns. induction targets as [|t targets IH]; intros ns.
  - simpl. destruct (decide (k ∈ [])) as [H|_]; [by apply elem_of_nil in H|done].
  - simpl. rewrite IH. destruct (decide (t = k)) as [->|Hne].
    + rewrite list_lookup_alter_eq.
      destruct (decide (k ∈ k :: targets)) as [_|H]; [|exfalso; apply H; by left].
      destruct (decide (k ∈ targets)); [|done].
      destruct (ns !! k); [|done]. simpl. by rewrite put_blob_idemp.
    + rewrite list_lookup_alter_ne by done.
      destruct (decide (k ∈ targets)) as [Hin|Hnin].
      * by destruct (decide (k ∈ t :: targets)) as [_|H]; [|exfalso; apply H; by right].
      * destruct (decide (k ∈ t :: targets)) as [H|_]; [|done].
        apply elem_of_cons in H as [->|H]; done.
Qed.

Lemma active_ids_eq ns :
  active_ids ns = id_at <$> filter (fun k => active_at ns k = true) (seq 0 (length ns)).
Proof.
  unfold active_ids. rewrite seqZ_id_at, filter_fmap_comm. f_equal.
  apply list_filter_iff. intros k. by rewrite is_active_id_at.
Qed.

(** With fewer than 3 active nodes the placement is all of them. *)
Lemma placement_few ns k :
  (length (active_ids ns) < 3)%nat ->
  k ∈ placement ns (seq 0 (length ns)) 0 <->
  (k < length ns)%nat /\ active_at ns k = true.
Proof.
  rewrite active_ids_eq, length_fmap. intros Hlen. unfold placement.
  change (Z.to_nat (REPLICATION - 0)) with 3%nat.
  rewrite take_ge by lia. rewrite list_elem_of_filter, elem_of_seq.
  split; intros [? ?]; split; (done || lia).
Qed.

End Insufficient.

(** C3, amended: with fewer than 3 active nodes, [upload] leaves the
    metadata store and the working directory (hence the saved metadata)
    unchanged and creates no record; when the source exists and the
    active nodes accept the copies, it reports that there are not enough
    nodes, and the copies made on the active nodes stay there. *)
Theorem upload_insufficient_nodes (f : string) (st : State) :
  pool_wf (nodes st) ->
  (length (active_ids (nodes st)) < 3)%nat ->
  exists st',
    upload f st = (Val tt, st') /\
    metadata st' = metadata st /\ files st' = files st /\
    forall c,
      files st !! f = Some c ->
      (forall k n, nodes st !! k = Some n -> active n = true ->
                   writable (directory n) = true) ->
      cout st' = cout st ++ [MsgNotEnoughNodes] /\
      forall k n, nodes st !! k = Some n ->
        nodes st' !! k = Some (if active n then put_blob f c n else n).
Proof.
  intros Hwf Hfew.
  destruct (upload_cases f st Hwf) as (st' & Heq & Hcases).
  exists st'. split; [done|].
  assert (Hlen : (length (placement (nodes st) (seq 0 (length (nodes st))) 0) < 3)%nat).
  { rewrite <- (length_fmap id_at), placement_active_ids, length_take. lia. }
  destruct Hcases as [[Hnone ->]|(c & Hc & [Hcase|[Hcase|Hcase]])].
  - split; [done|]. split; [done|]. intros c Hc. congruence.
  - destruct Hcase as (_ & Hm & Hf & _ & k & Hk & Hwk).
    split; [done|]. split; [done|]. intros c' _ Hw. exfalso.
    apply elem_of_placement in Hk as [_ Hact].
    unfold active_at, writable_at in Hact, Hwk.
    destruct (nodes st !! k) as [n|] eqn:Hn; [|done].
    rewrite (Hw k n Hn Hact) in Hwk. done.
  - destruct Hcase as (_ & _ & ->). split; [done|]. split; [done|].
    intros c' Hc' _. rewrite Hc in Hc'. injection Hc' as <-.
    split; [done|]. intros k n Hn. simpl. rewrite put_all_lookup, Hn.
    assert (Hact : active_at (nodes st) k = active n)
      by (unfold active_at; by rewrite Hn).
    destruct (decide _) as [Hin|Hnin].
    + apply placement_few in Hin as [_ Hin]; [|done]. by rewrite <- Hact, Hin.
    + destruct (active n); [|done]. exfalso. apply Hnin.
      apply placement_few; [done|]. split; [by apply lookup_lt_Some in Hn|done].
  - destruct Hcase as (_ & Hlen3 & _). lia.
Qed.

Lemma upload_insufficient_nodes_witness :
  exists st',
    upload "b.txt" (st_new_file true true false false) = (Val tt, st') /\
    metadata st' = metadata (st_new_file true true false false).
Proof.
  destruct (upload_insufficient_nodes "b.txt" (st_new_file true true false false))
    as (st' & Hup & Hm & _).
  - apply pool4_wf.
  - vm_compute. lia.
  - by exists st'.
Defined.

(** C3 as stated fails: with two active nodes out of four the upload is
    refused for lack of nodes and the metadata is unchanged, but node 1,
    which did not hold [b.txt], holds a copy of it afterwards. *)
Lemma upload_partial_copies_counterexample :
  (length (active_ids (nodes (st_new_file true true false false))) < 3)%nat /\
  cout (upload "b.txt" (st_new_file true true false false)).2 = [MsgNotEnoughNodes] /\
  metadata (upload "b.txt" (st_new_file true true false false)).2 =
    metadata (st_new_file true true false false) /\
  blob_on (nodes (st_new_file true true false false)) 1 "b.txt" = None /\
  blob_on (nodes (upload "b.txt" (st_new_file true true false false)).2) 1 "b.txt" =
    Some "data".
Proof.
  split; [vm_compute; lia|].
  split; [vm_compute; reflexivity|]. split; [vm_compute; reflexivity|].
  split; vm_compute; reflexivity.
Qed.

(** ** Download *)

Section Download.

Variable f : string.

Lemma blob_on_lookup ns i n :
  in_pool ns i -> ns !! Z.to_nat (i - 1) = Some n ->
  blob_on ns i f = blobs (directory n) !! f.
Proof.
  intros Hi Hn. unfold blob_on.
  destruct (index_of_id_in_pool ns i Hi) as [-> _]. by rewrite Hn.
Qed.

(** The loop of [download] stops at the first listed node that is
    active, whether or not that node holds the file. *)
Lemma download_loop_eq ids st :
  Forall (in_pool (nodes st)) ids ->
  download_loop f ids st =
  match first_active (nodes st) ids with
  | None => (Val false, st)
  | Some i =>
      match blob_on (nodes st) i f with
      | Some c => (Val true, download_success_state f c i st)
      | None => (Thrown, st)
      end
  end.
Proof.
  unfold first_active. induction 1 as [|i ids Hi _ IH]; [done|].
  cbn [download_loop].
  destruct (node_at_in_pool st i Hi) as (n & Hn & Hat).
  rewrite (bind_val _ _ _ _ _ Hat), filter_cons.
  rewrite <- (is_active_lookup _ _ _ Hi Hn).
  destruct (decide (is_active (nodes st) i = true)) as [Ha|Hna].
  - rewrite Ha. cbn [head]. rewrite (blob_on_lookup _ _ _ Hi Hn).
    by destruct (blobs (directory n) !! f).
  - destruct (is_active (nodes st) i); [done|]. exact IH.
Qed.

Lemma first_active_None_Forall ns ids :
  first_active ns ids = None <-> Forall (fun i => is_active ns i = false) ids.
Proof.
  unfold first_active. induction ids as [|i ids IH]; [by split; [constructor|]|].
  rewrite filter_cons, Forall_cons.
  destruct (decide (is_active ns i = true)) as [Ha|Hna].
  - rewrite Ha. simpl. split; [done|]. by intros [? _].
  - rewrite IH. destruct (is_active ns i); [done|]. tauto.
Qed.

(** Every way in which [download] ends. *)
Lemma download_eq st :
  (forall ids, metadata st !! f = Some ids -> Forall (in_pool (nodes st)) ids) ->
  download f st =
  (Val tt,
   match metadata st !! f with
   | None => add_cout MsgDownloadNoRecord st
   | Some ids =>
       match first_active (nodes st) ids with
       | None => add_cout MsgAllReplicasUnavailable st
       | Some i =>
           match blob_on (nodes st) i f with
           | Some c => download_success_state f c i st
           | None => add_cout MsgDownloadError st
           end
       end
   end).
Proof.
  intros Hpool. unfold download.
  rewrite (bind_val _ _ st (metadata st !! f) st) by done.
  destruct (metadata st !! f) as [ids|]; [|done].
  unfold bind, attempt. rewrite (download_loop_eq ids st (Hpool ids eq_refl)).
  destruct (first_active (nodes st) ids) as [i|]; [|done].
  by destruct (blob_on (nodes st) i f).
Qed.

End Download.

(** C4, amended: [download] reports that the file is not in the system
    if and only if it has no record. Otherwise it goes through the
    recorded ids in stored order up to the first node that is active:
    when that node holds the file the download succeeds with its
    content; when it does not, the download fails with a copy error and
    no later node is tried; and it reports that all replicas are
    unavailable if and only if no listed node is active. *)
Theorem download_outcome (f : string) (st : State) :
  (forall ids, metadata st !! f = Some ids -> Forall (in_pool (nodes st)) ids) ->
  exists st',
    download f st = (Val tt, st') /\
    nodes st' = nodes st /\ metadata st' = metadata st /\
    (cout st' = cout st ++ [MsgDownloadNoRecord] <-> metadata st !! f = None) /\
    forall ids, metadata st !! f = Some ids ->
      (cout st' = cout st ++ [MsgAllReplicasUnavailable] <->
       Forall (fun i => is_active (nodes st) i = false) ids) /\
      forall i, first_active (nodes st) ids = Some i ->
        i ∈ ids /\ is_active (nodes st) i = true /\
        match blob_on (nodes st) i f with
        | Some c =>
            cout st' = cout st ++ [MsgDownloadSuccess i] /\
            files st' = <["downloaded_" +:+ f := c]> (files st)
        | None =>
            cout st' = cout st ++ [MsgDownloadError] /\ files st' = files st
        end.
Proof.
  intros Hpool. eexists. split; [by apply download_eq|].
  destruct (metadata st !! f) as [ids|] eqn:Hrec.
  2: { simpl. split; [done|]. split; [done|]. split; [done|]. intros ids [=]. }
  destruct (first_active (nodes st) ids) as [i|] eqn:Hfirst.
  - pose proof (first_active_Some _ _ _ Hfirst) as [Hin Hact].
    destruct (blob_on (nodes st) i f) as [c|] eqn:Hblob; simpl.
    + split; [done|]. split; [done|]. split.
      { split; [|done]. by intros [_ ?]%app_inj_tail. }
      intros ids' [= <-]. split.
      { rewrite <- first_active_None_Forall, Hfirst.
        split; [|done]. by intros [_ ?]%app_inj_tail. }
      intros i' Hi'. rewrite Hfirst in Hi'. injection Hi' as <-.
      rewrite Hblob. done.
    + split; [done|]. split; [done|]. split.
      { split; [|done]. by intros [_ ?]%app_inj_tail. }
      intros ids' [= <-]. split.
      { rewrite <- first_active_None_Forall, Hfirst.
        split; [|done]. by intros [_ ?]%app_inj_tail. }
      intros i' Hi'. rewrite Hfirst in Hi'. injection Hi' as <-.
      rewrite Hblob. done.
  - simpl. split; [done|]. split; [done|]. split.
    { split; [|done]. by intros [_ ?]%app_inj_tail. }
    intros ids' [= <-]. rewrite <- first_active_None_Forall, Hfirst.
    split; [done|]. intros i' [=].
Qed.

Lemma download_outcome_witness :
  files (download "a.txt" (st_abc false true true true)).2 !! "downloaded_a.txt" =
  Some "hello".
Proof.
  destruct (download_outcome "a.txt" (st_abc false true true true))
    as (st' & Hd & _ & _ & _ & Hrec).
  - intros ids Hids. vm_compute in Hids. injection Hids as <-.
    unfold in_pool. simpl. repeat constructor; lia.
  - rewrite Hd. simpl.
    destruct (Hrec [1; 2; 3] eq_refl) as [_ Hfirst].
    destruct (Hfirst 2 eq_refl) as (_ & _ & Hblob).
    change (blob_on (nodes (st_abc false true true true)) 2 "a.txt")
      with (Some "hello") in Hblob.
    destruct Hblob as [_ ->]. apply lookup_insert_eq.
Defined.

(** C4 as stated fails: node 1 is listed and active but does not hold
    the file, while node 2 is listed, active and holds it; the download
    ends with a copy error, nothing is downloaded, and the message is
    not the one for unavailable replicas. *)
Lemma download_missing_blob_counterexample :
  metadata st_stale !! "a.txt" = Some [1; 2; 3] /\
  is_active (nodes st_stale) 2 = true /\
  blob_on (nodes st_stale) 2 "a.txt" = Some "hello" /\
  cout (download "a.txt" st_stale).2 = [MsgDownloadError] /\
  files (download "a.txt" st_stale).2 !! "downloaded_a.txt" = None.
Proof. repeat split; vm_compute; reflexivity. Qed.

(** ** Delete *)

Section Delete.

Variable f : string.

Lemma dir_remove_Some d d' :
  dir_remove d f = Some d' ->
  blobs d' !! f = None /\
  (forall g, g <> f -> blobs d' !! g = blobs d !! g) /\
  bool_decide (is_Some (blobs d !! f)) && negb (writable d) = false.
Proof.
  unfold dir_remove. destruct (blobs d !! f) as [c|] eqn:Hb.
  - destruct (writable d); [|done]. intros [= <-]. simpl.
    split; [apply lookup_delete_eq|]. split; [|by rewrite ?andb_false_r].
    intros g Hg. by rewrite lookup_delete_ne.
  - intros [= <-]. split; [done|]. split; [done|].
    rewrite bool_decide_eq_false_2; [done|]. by intros [? ?].
Qed.

Lemma dir_remove_None d :
  dir_remove d f = None ->
  bool_decide (is_Some (blobs d !! f)) && negb (writable d) = true.
Proof.
  unfold dir_remove. destruct (blobs d !! f) as [c|] eqn:Hb; [|done].
  destruct (writable d); [done|]. intros _.
  rewrite bool_decide_eq_true_2; [done|]. by exists c.
Qed.

Lemma remove_blob_shape n : id (remove_blob f n) = id n /\ active (remove_blob f n) = active n.
Proof. unfold remove_blob. by destruct (dir_remove (directory n) f). Qed.

Lemma shape_alter_remove (ns : list Node) (k : nat) :
  shape (alter (remove_blob f) k ns) = shape ns.
Proof.
  unfold shape. apply list_eq. intros j. rewrite !list_lookup_fmap.
  destruct (decide (k = j)) as [<-|Hne].
  - rewrite list_lookup_alter_eq. destruct (ns !! k) as [n|]; [|done]. simpl.
    by destruct (remove_blob_shape n) as [-> ->].
  - by rewrite list_lookup_alter_ne.
Qed.

Lemma shape_remove_all ids ns : shape (remove_all f ids ns) = shape ns.
Proof.
  unfold remove_all. revert ns. induction ids as [|i ids IH]; intros ns; [done|].
  simpl. by rewrite IH, shape_alter_remove.
Qed.

(** A removal that went through does not change which removals are
    refused. *)
Lemma refuses_alter (ns : list Node) (k : nat) n d j :
  ns !! k = Some n -> dir_remove (directory n) f = Some d ->
  refuses_remove (alter (remove_blob f) k ns) f j = refuses_remove ns f j.
Proof.
  intros Hk Hd. unfold refuses_remove, index_of_id. rewrite length_alter.
  destruct (_ && _); [|done].
  destruct (decide (k = Z.to_nat (j - 1))) as [<-|Hne].
  - rewrite list_lookup_alter_eq, Hk. simpl. unfold remove_blob. rewrite Hd. simpl.
    destruct (dir_remove_Some _ _ Hd) as (Hnone & _ & ->).
    rewrite Hnone. rewrite bool_decide_eq_false_2; [done|]. by intros [? ?].
  - by rewrite list_lookup_alter_ne.
Qed.

(** The loop of [deleteFile]: it removes the file on the listed nodes in
    order, whatever their activity, and stops at the first removal that
    is refused. *)
Lemma delete_loop_sat ids st :
  Forall (in_pool (nodes st)) ids ->
  sat (delete_loop f ids st)
    (fun _ st' =>
       st' = set_nodes (remove_all f ids (nodes st)) st /\
       Forall (fun i => refuses_remove (nodes st) f i = false) ids)
    (fun st' =>
       shape (nodes st') = shape (nodes st) /\ metadata st' = metadata st /\
       files st' = files st /\ cout st' = cout st /\
       exists i, i ∈ ids /\ refuses_remove (nodes st) f i = true).
Proof.
  revert st. induction ids as [|i ids IH]; intros st Hids.
  - simpl. split; [by destruct st|done].
  - apply Forall_cons in Hids as [Hi Hids]. cbn [delete_loop].
    destruct (node_at_in_pool st i Hi) as (n & Hn & Hat).
    rewrite (bind_val _ _ _ _ _ Hat).
    assert (Hrefuse : refuses_remove (nodes st) f i =
      bool_decide (is_Some (blobs (directory n) !! f)) && negb (writable (directory n))).
    { unfold refuses_remove. destruct (index_of_id_in_pool _ _ Hi) as [-> _].
      by rewrite Hn. }
    destruct (dir_remove (directory n) f) as [d|] eqn:Hd.
    + mrun.
      assert (Halter : <[Z.to_nat (i - 1) := Node_with_directory n d]> (nodes st) =
                       alter (remove_blob f) (Z.to_nat (i - 1)) (nodes st)).
      { apply list_eq. intros j. destruct (decide (Z.to_nat (i - 1) = j)) as [<-|Hne].
        - rewrite list_lookup_alter_eq, Hn, list_lookup_insert_eq;
            [|by apply lookup_lt_Some in Hn].
          simpl. unfold remove_blob. by rewrite Hd.
        - by rewrite list_lookup_alter_ne, list_lookup_insert_ne. }
      rewrite Halter.
      set (st1 := set_nodes (alter (remove_blob f) (Z.to_nat (i - 1)) (nodes st)) st).
      assert (Hs1 : shape (nodes st1) = shape (nodes st)) by apply shape_alter_remove.
      eapply sat_mono.
      * apply (IH st1). eapply Forall_impl; [exact Hids|].
        intros j. by apply shape_in_pool.
      * intros [] st' [-> Hnr]. split; [done|]. constructor.
        -- rewrite Hrefuse. by destruct (dir_remove_Some _ _ Hd) as (_ & _ & ->).
        -- eapply Forall_impl; [exact Hnr|]. intros j Hj. simpl in Hj.
           by rewrite (refuses_alter _ _ n d j Hn Hd) in Hj.
      * intros st' (Hs & Hm & Hf & Ho & j & Hj & Hrj).
        split; [by rewrite Hs|]. do 3 (split; [done|]).
        exists j. split; [by right|]. simpl in Hrj.
        by rewrite (refuses_alter _ _ n d j Hn Hd) in Hrj.
    + simpl. do 4 (split; [done|]). exists i. split; [by left|].
      rewrite Hrefuse. by apply dir_remove_None.
Qed.

(** Every way in which [deleteFile] ends. *)
Lemma deleteFile_cases st :
  (forall ids, metadata st !! f = Some ids -> Forall (in_pool (nodes st)) ids) ->
  exists st', deleteFile f st = (Val tt, st') /\
    match metadata st !! f with
    | None => st' = add_cout MsgDeleteNoRecord st
    | Some ids =>
        (Forall (fun i => refuses_remove (nodes st) f i = false) ids /\
         st' = delete_success_state f ids st) \/
        ((exists i, i ∈ ids /\ refuses_remove (nodes st) f i = true) /\
         shape (nodes st') = shape (nodes st) /\ metadata st' = metadata st /\
         files st' = files st /\ cout st' = cout st ++ [MsgDeleteError])
    end.
Proof.
  intros Hpool. unfold deleteFile.
  rewrite (bind_val _ _ st (metadata st !! f) st) by done.
  destruct (metadata st !! f) as [ids|]; [|by eexists].
  pose proof (delete_loop_sat ids st (Hpool ids eq_refl)) as Hsat.
  unfold bind, attempt.
  destruct (delete_loop f ids st) as [[[]| |] st1]; [| |done]; simpl in Hsat.
  - destruct Hsat as [-> Hnr]. eexists. split; [reflexivity|]. by left.
  - destruct Hsat as (Hs & Hm & Hf & Ho & Hex). eexists. split; [reflexivity|].
    right. simpl. by rewrite Ho.
Qed.

Lemma remove_blob_idemp n : remove_blob f (remove_blob f n) = remove_blob f n.
Proof.
  unfold remove_blob at 2 3. destruct (dir_remove (directory n) f) as [d|] eqn:Hd.
  - unfold remove_blob. simpl. destruct (dir_remove_Some _ _ Hd) as (Hnone & _).
    unfold dir_remove. by rewrite Hnone.
  - unfold remove_blob. by rewrite Hd.
Qed.

Lemma remove_all_lookup ids (ns : list Node) (k : nat) :
  remove_all f ids ns !! k =
  if decide (k ∈ (fun i => Z.to_nat (i - 1)) <$> ids)
  then remove_blob f <$> ns !! k else ns !! k.
Proof.
  unfold remove_all. revert ns. induction ids as [|i ids IH]; intros ns.
  - simpl. destruct (decide (k ∈ [])) as [H|_]; [by apply elem_of_nil in H|done].
  - csimpl. rewrite IH. destruct (decide (Z.to_nat (i - 1) = k)) as [<-|Hne].
    + rewrite list_lookup_alter_eq.
      destruct (decide (_ ∈ _ :: _)) as [_|H]; [|exfalso; apply H; by left].
      destruct (decide (_ ∈ _ <$> ids)); [|done].
      destruct (ns !! Z.to_nat (i - 1)); [|done]. simpl. by rewrite remove_blob_idemp.
    + rewrite list_lookup_alter_ne by done.
      destruct (decide (k ∈ _ <$> ids)) as [Hin|Hnin].
      * by destruct (decide (k ∈ _ :: _)) as [_|H]; [|exfalso; apply H; by right].
      * destruct (decide (k ∈ _ :: _)) as [H|_]; [|done].
        apply elem_of_cons in H as [->|H]; done.
Qed.

End Delete.

(** C7, amended: [deleteFile] reports that the file is not found if and
    only if it has no record. When no removal on a listed node raises an
    error, the record is removed and the metadata is saved. A removal
    error on a listed node is reported and ends the delete: the record
    stays in the metadata and nothing is saved. *)
Theorem delete_outcome (f : string) (st : State) :
  (forall ids, metadata st !! f = Some ids -> Forall (in_pool (nodes st)) ids) ->
  exists st',
    deleteFile f st = (Val tt, st') /\
    (cout st' = cout st ++ [MsgDeleteNoRecord] <-> metadata st !! f = None) /\
    forall ids, metadata st !! f = Some ids ->
      (Forall (fun i => refuses_remove (nodes st) f i = false) ids ->
         cout st' = cout st ++ [MsgDeleteSuccess] /\
         metadata st' = delete f (metadata st) /\
         files st' !! METADATA_FILE =
           Some (Text.show_entries (entries (metadata st')))) /\
      (Exists (fun i => refuses_remove (nodes st) f i = true) ids ->
         cout st' = cout st ++ [MsgDeleteError] /\
         metadata st' = metadata st /\ files st' = files st).
Proof.
  intros Hpool. destruct (deleteFile_cases f st Hpool) as (st' & Heq & Hcases).
  exists st'. split; [done|].
  destruct (metadata st !! f) as [ids|] eqn:Hrec.
  - destruct Hcases as [[Hnr ->]|(Hex & _ & Hm & Hf & Ho)].
    + split. { split; [|done]. simpl. by intros [_ ?]%app_inj_tail. }
      intros ids' [= <-]. split.
      * intros _. simpl. split; [done|]. split; [done|]. apply lookup_insert_eq.
      * intros Hexists. exfalso. apply Exists_exists in Hexists as (i & Hi & Hr).
        rewrite Forall_forall in Hnr. by rewrite (Hnr i Hi) in Hr.
    + split. { split; [|done]. rewrite Ho. by intros [_ ?]%app_inj_tail. }
      intros ids' [= <-]. split; [|done].
      intros Hnr. exfalso. destruct Hex as (i & Hi & Hr).
      rewrite Forall_forall in Hnr. by rewrite (Hnr i Hi) in Hr.
  - subst st'. split; [done|]. intros ids [=].
Qed.

Lemma delete_outcome_witness :
  metadata (deleteFile "a.txt" (st_abc true true true true)).2 !! "a.txt" = None.
Proof.
  destruct (delete_outcome "a.txt" (st_abc true true true true))
    as (st' & Hd & _ & Hrec).
  - intros ids Hids. vm_compute in Hids. injection Hids as <-.
    unfold in_pool. simpl. repeat constructor; lia.
  - rewrite Hd. simpl.
    destruct (Hrec [1; 2; 3] eq_refl) as [Hok _].
    destruct Hok as (_ & -> & _); [by repeat constructor|].
    apply lookup_delete_eq.
Defined.

(** C7 as stated fails: the removal on node 2 raises an error; the error
    is reported, and the record is still in the metadata, which is not
    saved. *)
Lemma delete_error_counterexample :
  refuses_remove (nodes st_locked) "a.txt" 2 = true /\
  cout (deleteFile "a.txt" st_locked).2 = [MsgDeleteError] /\
  metadata (deleteFile "a.txt" st_locked).2 !! "a.txt" = Some [1; 2; 3] /\
  files (deleteFile "a.txt" st_locked).2 !! METADATA_FILE = None.
Proof. repeat split; vm_compute; reflexivity. Qed.

(** C8, amended: [deleteFile] removes the file on every listed node,
    whether the node is active or not; when no removal raises an error,
    no listed node holds the file afterwards, the other files of the
    listed nodes and the nodes that are not listed are unchanged, and so
    are the activity flags. *)
Theorem delete_on_every_listed_node (f : string) (st : State) (ids : list Z) :
  metadata st !! f = Some ids ->
  Forall (in_pool (nodes st)) ids ->
  Forall (fun i => refuses_remove (nodes st) f i = false) ids ->
  exists st',
    deleteFile f st = (Val tt, st') /\
    shape (nodes st') = shape (nodes st) /\
    (forall i, i ∈ ids -> blob_on (nodes st') i f = None) /\
    (forall i g, g <> f -> blob_on (nodes st') i g = blob_on (nodes st) i g) /\
    (forall i, in_pool (nodes st) i -> i ∉ ids ->
       nodes st' !! Z.to_nat (i - 1) = nodes st !! Z.to_nat (i - 1)).
Proof.
  intros Hrec Hpool Hnr.
  destruct (deleteFile_cases f st) as (st' & Heq & Hcases).
  { intros ids' Hids'. rewrite Hrec in Hids'. by injection Hids' as <-. }
  exists st'. split; [done|]. rewrite Hrec in Hcases.
  destruct Hcases as [[_ ->]|((i & Hi & Hr) & _)].
  2: { rewrite Forall_forall in Hnr. by rewrite (Hnr i Hi) in Hr. }
  simpl. split; [apply shape_remove_all|].
  assert (Hlen : length (remove_all f ids (nodes st)) = length (nodes st))
    by apply shape_length, shape_remove_all.
  split; [|split].
  - intros i Hi. rewrite Forall_forall in Hpool, Hnr.
    pose proof (Hpool i Hi) as Hip. pose proof (Hnr i Hi) as Hri.
    unfold blob_on, refuses_remove in *. unfold index_of_id in *. rewrite Hlen.
    destruct (index_of_id_in_pool _ _ Hip) as [Hidx Hlt]. unfold index_of_id in Hidx.
    rewrite Hidx in Hri |- *. rewrite remove_all_lookup.
    destruct (decide _) as [_|Hnin].
    2: { exfalso. apply Hnin. apply list_elem_of_fmap. by exists i. }
    destruct (nodes st !! Z.to_nat (i - 1)) as [n|]; [|done]. simpl.
    unfold remove_blob. destruct (dir_remove (directory n) f) as [d|] eqn:Hd.
    + by destruct (dir_remove_Some _ _ _ Hd) as [? _].
    + apply dir_remove_None in Hd. congruence.
  - intros i g Hg. unfold blob_on, index_of_id. rewrite Hlen.
    destruct (_ && _); [|done]. rewrite remove_all_lookup.
    destruct (decide _); [|done].
    destruct (nodes st !! Z.to_nat (i - 1)) as [n|]; [|done]. simpl.
    unfold remove_blob. destruct (dir_remove (directory n) f) as [d|] eqn:Hd; [|done].
    destruct (dir_remove_Some _ _ _ Hd) as (_ & Hother & _). by apply Hother.
  - intros i Hip Hnin. rewrite remove_all_lookup.
    destruct (decide _) as [Hin|]; [|done]. exfalso. apply Hnin.
    apply list_elem_of_fmap in Hin as (j & Hj & Hjin).
    rewrite Forall_forall in Hpool. pose proof (Hpool j Hjin) as Hjp.
    unfold in_pool in Hip, Hjp. by replace i with j by lia.
Qed.

Lemma delete_on_every_listed_node_witness :
  blob_on (nodes (deleteFile "a.txt" (st_abc true false true true)).2) 2 "a.txt" = None.
Proof.
  destruct (delete_on_every_listed_node "a.txt" (st_abc true false true true) [1; 2; 3])
    as (st' & Hd & _ & Hgone & _).
  - reflexivity.
  - unfold in_pool. simpl. repeat constructor; lia.
  - by repeat constructor.
  - rewrite Hd. simpl. apply Hgone. by apply (bool_decide_unpack _).
Defined.

(** C8 as stated fails: node 2 is listed and inactive and holds the
    file; after the delete, which succeeds, it no longer holds it. *)
Lemma delete_inactive_counterexample :
  is_active (nodes (st_abc true false true true)) 2 = false /\
  blob_on (nodes (st_abc true false true true)) 2 "a.txt" = Some "hello" /\
  cout (deleteFile "a.txt" (st_abc true false true true)).2 = [MsgDeleteSuccess] /\
  is_active (nodes (deleteFile "a.txt" (st_abc true false true true)).2) 2 = false /\
  blob_on (nodes (deleteFile "a.txt" (st_abc true false true true)).2) 2 "a.txt" = None.
Proof. repeat split; vm_compute; reflexivity. Qed.

(** ** The invariant of the records *)

Section Invariant.

Variable nd : bool.

Lemma Inv_records st st' :
  Inv nd st -> shape (nodes st') = shape (nodes st) ->
  (forall g ids, metadata st' !! g = Some ids ->
     metadata st !! g = Some ids \/
     (Forall (in_pool (nodes st)) ids /\ NoDup ids)) ->
  Inv nd st'.
Proof.
  intros [Hwf Hrec] Hs Hm. split; [by apply (shape_pool_wf (nodes st))|].
  intros g ids Hg.
  assert (Hok : Forall (in_pool (nodes st)) ids /\ (nd = true -> NoDup ids)).
  { destruct (Hm g ids Hg) as [Hold|[? ?]]; [by apply (Hrec g)|done]. }
  destruct Hok as [Hin Hn]. split; [|done].
  eapply Forall_impl; [exact Hin|]. intros i. by apply shape_in_pool.
Qed.

Lemma upload_Inv f st :
  Inv nd st -> (upload f st).1 = Val tt /\ Inv nd (upload f st).2.
Proof.
  intros HI. pose proof HI as [Hwf _].
  destruct (upload_cases f st Hwf) as (st' & -> & Hcases). split; [done|]. simpl.
  destruct Hcases as [[_ ->]|(c & _ & [Hcase|[Hcase|Hcase]])].
  - done.
  - destruct Hcase as (Hs & Hm & _). by apply (Inv_frame nd st).
  - destruct Hcase as (_ & _ & ->). apply (Inv_frame nd st); [done| |done].
    simpl. apply shape_put_all.
  - destruct Hcase as (_ & _ & ->). apply (Inv_records st); [done| |].
    + simpl. apply shape_put_all.
    + simpl. intros g ids Hg. destruct (decide (f = g)) as [<-|Hne].
      * rewrite lookup_insert_eq in Hg. injection Hg as <-. right.
        rewrite placement_active_ids.
        by destruct (first_active_ids (nodes st)) as (? & _ & ?).
      * rewrite lookup_insert_ne in Hg by done. by left.
Qed.

Lemma download_Inv f st :
  Inv nd st -> (download f st).1 = Val tt /\ Inv nd (download f st).2.
Proof.
  intros HI. rewrite download_eq.
  2: { intros ids Hids. destruct HI as [_ Hrec]. by destruct (Hrec f ids Hids). }
  split; [done|]. simpl. apply (Inv_frame nd st); [done| |].
  - destruct (metadata st !! f); [|done].
    destruct (first_active _ _); [|done]. by destruct (blob_on _ _ _).
  - destruct (metadata st !! f); [|done].
    destruct (first_active _ _); [|done]. by destruct (blob_on _ _ _).
Qed.

Lemma deleteFile_Inv f st :
  Inv nd st -> (deleteFile f st).1 = Val tt /\ Inv nd (deleteFile f st).2.
Proof.
  intros HI. destruct (deleteFile_cases f st) as (st' & -> & Hcases).
  { intros ids Hids. destruct HI as [_ Hrec]. by destruct (Hrec f ids Hids). }
  split; [done|]. simpl.
  destruct (metadata st !! f) as [ids|] eqn:Hrec; [|by subst st'].
  destruct Hcases as [[_ ->]|(_ & Hs & Hm & _)].
  - apply (Inv_records st); [done|simpl; apply shape_remove_all|].
    simpl. intros g ids' Hg. left.
    apply lookup_delete_Some in Hg as [_ Hg]. done.
  - by apply (Inv_frame nd st).
Qed.

Lemma reReplicateFile_Inv f st :
  Inv nd st -> (reReplicateFile f st).1 = Val tt /\ Inv nd (reReplicateFile f st).2.
Proof.
  intros HI. pose proof (reReplicateFile_sat nd f st HI) as Hsat.
  destruct (reReplicateFile f st) as [[[]| |] st']; try done.
  simpl in *. by destruct Hsat as (_ & _ & ? & _).
Qed.

Lemma checkReplicaHealth_Inv st :
  Inv nd st -> (checkReplicaHealth st).1 = Val tt /\ Inv nd (checkReplicaHealth st).2.
Proof.
  intros HI. rewrite (checkReplicaHealth_eq nd st HI).
  pose proof (warn_and_repair_sat nd (filter (degraded st) (keys st)) st
                (NoDup_filter _ _ (keys_NoDup st)) HI) as Hsat.
  destruct (warn_and_repair _ st) as [[[]| |] st']; try done.
  simpl in *. by destruct Hsat as (? & _).
Qed.

Lemma transition_Inv (recover : bool) i st :
  Inv nd st ->
  let r := if recover then recoverNode i st else failNode i st in
  r.1 = Val tt /\ Inv nd r.2.
Proof.
  intros HI r.
  destruct (decide (in_pool (nodes st) i)) as [Hi|Hi].
  - subst r. rewrite (transition_eq recover i st Hi).
    pose proof (checkReplicaHealth_Inv _ (flip_node_Inv nd recover i st HI)) as Hc.
    unfold bind. destruct (checkReplicaHealth (flip_node recover i st)) as [[[]| |] st'];
      simpl in Hc; destruct Hc as [Hv HI']; try done.
  - assert (Hbad : valid_node_id i st = (Val false, st)).
    { unfold valid_node_id, gets. unfold in_pool in Hi.
      destruct (i <? 1) eqn:H1; [done|]. apply Z.ltb_ge in H1.
      destruct (_ <? i) eqn:H2; [done|]. apply Z.ltb_ge in H2. lia. }
    subst r. destruct recover; unfold recoverNode, failNode;
      rewrite (bind_val _ _ _ _ _ Hbad); done.
Qed.



End Invariant.

(** C9: every operation of the engine ([upload], [download],
    [deleteFile], [reReplicateFile], [failNode], [recoverNode])
    completes without undefined behaviour and preserves the invariant
    that the nodes carry the ids 1..N in order and that every record is a
    duplicate-free sequence of ids of nodes of the pool. *)
Theorem operations_preserve_invariant (st : State) (f : string) (i : Z) :
  Inv true st ->
  ((upload f st).1 = Val tt /\ Inv true (upload f st).2) /\
  ((download f st).1 = Val tt /\ Inv true (download f st).2) /\
  ((deleteFile f st).1 = Val tt /\ Inv true (deleteFile f st).2) /\
  ((reReplicateFile f st).1 = Val tt /\ Inv true (reReplicateFile f st).2) /\
  ((failNode i st).1 = Val tt /\ Inv true (failNode i st).2) /\
  ((recoverNode i st).1 = Val tt /\ Inv true (recoverNode i st).2).
Proof.
  intros HI.
  split; [by apply upload_Inv|]. split; [by apply download_Inv|].
  split; [by apply deleteFile_Inv|]. split; [by apply reReplicateFile_Inv|].
  split; [exact (transition_Inv true false i st HI)|].
  exact (transition_Inv true true i st HI).
Qed.

Lemma operations_preserve_invariant_witness :
  Inv true (failNode 1 (st_abc true false true true)).2.
Proof.
  destruct (operations_preserve_invariant (st_abc true false true true) "a.txt" 1)
    as (_ & _ & _ & _ & [_ H] & _).
  - apply st_abc_Inv.
  - exact H.
Defined.

(** ** Accesses to the node vector *)

Section Bounds.

(** A line of the metadata file is read back whatever its ids are. *)
Lemma load_unchecked_id totalNodes dirs z :
  int_range z ->
  metadata (DistributedFS_new totalNodes dirs
              {[ METADATA_FILE := Text.show_entries [("f", [z])] ]}).2 !! "f" =
  Some [z].
Proof.
  intros Hz.
  assert (Hgood : Forall good_entry [("f", [z])]).
  { constructor; [|constructor]. split; [by split|]. split; [done|].
    constructor; [exact Hz|constructor]. }
  unfold DistributedFS_new, loadMetadata. mrun.
  rewrite lookup_singleton_eq.
  rewrite getlines_show_entries, load_lines_show_entries by done.
  simpl. apply lookup_insert_eq.
Qed.

Lemma download_out_of_pool st z ids :
  metadata st !! "f" = Some (z :: ids) -> ~ in_pool (nodes st) z ->
  (download "f" st).1 = Undefined.
Proof.
  intros Hrec Hz. unfold download.
  rewrite (bind_val _ _ st (metadata st !! "f") st) by done. rewrite Hrec.
  unfold bind, attempt. cbn [download_loop].
  rewrite (bind_undefined _ _ _ _ (node_at_undefined st z Hz)). done.
Qed.

Lemma frame_rel_refl f st : frame_rel f st st.
Proof. by split. Qed.

Lemma frame_rel_trans f st1 st2 st3 :
  frame_rel f st1 st2 -> frame_rel f st2 st3 -> frame_rel f st1 st3.
Proof.
  intros [Hs1 Hm1] [Hs2 Hm2]. split; [by rewrite Hs2|].
  intros g Hg. by rewrite (Hm2 g Hg), (Hm1 g Hg).
Qed.

Lemma restore_loop_frame f src ids st a :
  Forall (in_pool (nodes st)) ids -> in_pool (nodes st) src ->
  sat (restore_loop f src ids a st)
    (fun _ st' => frame_rel f st st') (fun st' => frame_rel f st st').
Proof.
  revert st a. induction ids as [|i ids IH]; intros st a Hids Hsrc.
  - apply frame_rel_refl.
  - apply Forall_cons in Hids as [Hi Hids]. cbn [restore_loop].
    destruct (node_at_in_pool st i Hi) as (n & Hn & Hat).
    rewrite (bind_val _ _ _ _ _ Hat).
    destruct (negb (active n) && (a <? REPLICATION)); [|by apply IH].
    apply sat_bind.
    eapply sat_mono;
      [apply copy_from_node_sat; [done|by apply lookup_lt_is_Some_1]| |].
    + intros [] st1 (Hs & Hm & _). mrun.
      assert (Hrel : frame_rel f st (add_cout (MsgRestored f i) st1)).
      { split; [done|]. intros g _. simpl. by rewrite Hm. }
      eapply sat_mono.
      * apply IH.
        -- simpl. eapply Forall_impl; [exact Hids|].
           intros j. by apply shape_in_pool.
        -- simpl. by apply (shape_in_pool (nodes st)).
      * intros ? st2 H2. simpl in H2. exact (frame_rel_trans f st _ st2 Hrel H2).
      * intros st2 H2. simpl in H2. exact (frame_rel_trans f st _ st2 Hrel H2).
    + intros st1 ->. apply frame_rel_refl.
Qed.

Lemma add_loop_frame f src idxs st a :
  Forall (fun k => (k < length (nodes st))%nat) idxs -> in_pool (nodes st) src ->
  sat (add_loop f src idxs a st)
    (fun _ st' => frame_rel f st st') (fun st' => frame_rel f st st').
Proof.
  revert st a. induction idxs as [|k idxs IH]; intros st a Hidxs Hsrc.
  - apply frame_rel_refl.
  - apply Forall_cons in Hidxs as [Hk Hidxs]. cbn [add_loop].
    destruct (node_index_lt st k Hk) as (n & Hn & Hat).
    rewrite (bind_val _ _ _ _ _ Hat).
    rewrite (bind_val _ _ st (default [] (metadata st !! f)) st) by done.
    destruct (active n && bool_decide _); [|by apply IH].
    apply sat_bind.
    eapply sat_mono; [by apply copy_from_node_sat| |].
    + intros [] st1 (Hs & Hm & _). mrun.
      set (st2 := add_cout _ _).
      assert (Hrel : frame_rel f st st2).
      { split; [done|]. intros g Hg. subst st2. simpl.
        by rewrite lookup_insert_ne, Hm. }
      assert (Hlen : length (nodes st2) = length (nodes st))
        by (apply shape_length; apply Hrel).
      destruct (REPLICATION <=? a + 1); [exact Hrel|].
      eapply sat_mono.
      * apply IH; [by rewrite Hlen|]. unfold in_pool. by rewrite Hlen.
      * intros ? st3 H3. simpl in H3. exact (frame_rel_trans f st st2 st3 Hrel H3).
      * intros st3 H3. simpl in H3. exact (frame_rel_trans f st st2 st3 Hrel H3).
    + intros st1 ->. apply frame_rel_refl.
Qed.

(** A repair makes no access out of range as soon as the ids of the
    record of its file are ids of the pool. *)
Lemma reReplicateFile_frame f st :
  (forall ids, metadata st !! f = Some ids -> Forall (in_pool (nodes st)) ids) ->
  sat (reReplicateFile f st) (fun _ st' => frame_rel f st st') (fun _ => False).
Proof.
  intros Hpool. unfold reReplicateFile.
  rewrite (bind_val _ _ st (metadata st !! f) st) by done.
  destruct (metadata st !! f) as [ids|] eqn:Hf; [|apply frame_rel_refl].
  pose proof (Hpool ids eq_refl) as Hids.
  rewrite (bind_val _ _ _ _ _ (count_active_eq ids st 0 Hids)).
  destruct (REPLICATION <=? _); [apply frame_rel_refl|].
  rewrite (bind_val _ _ _ _ _ (find_source_eq ids st Hids)).
  destruct (first_active (nodes st) ids) as [src|] eqn:Hsrc;
    [|apply frame_rel_refl].
  apply first_active_Some in Hsrc as [Hin _].
  assert (Hsrc : in_pool (nodes st) src).
  { rewrite Forall_forall in Hids. by apply Hids. }
  change (default (-1) (Some src)) with src. destruct (src =? -1) eqn:Hm1.
  { apply Z.eqb_eq in Hm1. unfold in_pool in Hsrc. lia. }
  apply sat_bind, sat_attempt, sat_bind.
  eapply sat_mono; [by apply restore_loop_frame| |].
  - intros a1 st1 H1. simpl.
    assert (Hlen : length (nodes st1) = length (nodes st))
      by (apply shape_length; apply H1).
    rewrite (bind_val _ _ st1 (seq 0 (length (nodes st1))) st1) by done.
    apply sat_bind. destruct (a1 <? REPLICATION).
    + apply sat_bind. eapply sat_mono.
      * apply add_loop_frame; [apply seq_lt|]. unfold in_pool. by rewrite Hlen.
      * intros a2 st2 H2. simpl.
        exact (frame_rel_trans f st st1 st2 H1 H2).
      * intros st2 H2. simpl.
        exact (frame_rel_trans f st st1 st2 H1 H2).
    + simpl. exact H1.
  - intros st1 H1. simpl. exact H1.
Qed.

(** The loop of the health check makes no access out of range as soon
    as the ids of the records it visits are ids of the pool. *)
Lemma health_loop_frame l st :
  NoDup l ->
  (forall g ids, g ∈ l -> metadata st !! g = Some ids ->
     Forall (in_pool (nodes st)) ids) ->
  sat (health_loop l st) (fun _ _ => True) (fun _ => False).
Proof.
  intros Hnd. revert st. induction Hnd as [|g l Hg Hnd IH]; intros st Hpool; [done|].
  cbn [health_loop].
  rewrite (bind_val _ _ st (default [] (metadata st !! g)) st) by done.
  assert (Hids : Forall (in_pool (nodes st)) (default [] (metadata st !! g))).
  { destruct (metadata st !! g) as [ids|] eqn:Hrec; [|by constructor].
    apply (Hpool g); [by left|done]. }
  rewrite (bind_val _ _ _ _ _ (count_active_eq _ st 0 Hids)).
  assert (Hrest : forall st1, frame_rel g st st1 ->
    sat (health_loop l st1) (fun _ _ => True) (fun _ => False)).
  { intros st1 [Hs Hm]. apply IH. intros h ids Hh Hrec.
    rewrite Hm in Hrec by (intros ->; done).
    eapply Forall_impl; [apply (Hpool h ids); [by right|done]|].
    intros j. by apply shape_in_pool. }
  destruct (_ <? 2).
  - mrun. set (st1 := add_cout _ st).
    assert (Hsat : sat (reReplicateFile g st1)
                     (fun _ st' => frame_rel g st1 st') (fun _ => False)).
    { apply reReplicateFile_frame. intros ids Hrec. apply (Hpool g); [by left|done]. }
    destruct (reReplicateFile g st1) as [[[]| |] st2]; try done.
    by apply Hrest.
  - mrun. apply Hrest, frame_rel_refl.
Qed.

End Bounds.

(** C10: when every id stored in the metadata is the id of a node of the
    pool, no access [nodes[id - 1]] made by [download], [deleteFile],
    [checkReplicaHealth] or [reReplicateFile] is out of range: each of
    them completes. [loadMetadata] checks no range: a saved line is read
    back with whatever id it carries, for any pool size, and if that id
    is not the id of a node a later [download] indexes the vector out of
    range. *)
Theorem accesses_in_bounds (st : State) (f : string) :
  (forall g ids, metadata st !! g = Some ids -> Forall (in_pool (nodes st)) ids) ->
  (download f st).1 = Val tt /\
  (deleteFile f st).1 = Val tt /\
  (checkReplicaHealth st).1 = Val tt /\
  (reReplicateFile f st).1 = Val tt /\
  forall totalNodes dirs z,
    int_range z ->
    let loaded := (DistributedFS_new totalNodes dirs
                     {[ METADATA_FILE := Text.show_entries [("f", [z])] ]}).2 in
    metadata loaded !! "f" = Some [z] /\
    (~ in_pool (nodes loaded) z -> (download "f" loaded).1 = Undefined).
Proof.
  intros Hrec. split; [|split; [|split; [|split]]].
  - by rewrite download_eq by apply Hrec.
  - by destruct (deleteFile_cases f st (Hrec f)) as (st' & -> & _).
  - unfold checkReplicaHealth.
    rewrite (bind_val _ _ st (keys st) st) by done.
    pose proof (health_loop_frame (keys st) st (keys_NoDup st)
                  (fun g ids _ => Hrec g ids)) as Hsat.
    by destruct (health_loop (keys st) st) as [[[]| |] st'].
  - pose proof (reReplicateFile_frame f st (Hrec f)) as Hsat.
    by destruct (reReplicateFile f st) as [[[]| |] st'].
  - intros totalNodes dirs z Hz loaded.
    pose proof (load_unchecked_id totalNodes dirs z Hz) as Hload.
    split; [done|]. intros Hout. by apply (download_out_of_pool loaded z []).
Qed.

Lemma accesses_in_bounds_witness :
  (reReplicateFile "a.txt" (st_abc false false true true)).1 = Val tt /\
  (download "f" (DistributedFS_new 4 (fun _ => empty_dir)
                   {[ METADATA_FILE := Text.show_entries [("f", [9])] ]}).2).1 =
  Undefined.
Proof.
  destruct (accesses_in_bounds (st_abc false false true true) "a.txt")
    as (_ & _ & _ & Hre & Hload).
  - intros g ids Hg. destruct (st_abc_Inv false false false true true) as [_ Hrec].
    by destruct (Hrec g ids Hg).
  - split; [exact Hre|].
    destruct (Hload 4 (fun _ => empty_dir) 9) as [_ Hundef].
    + unfold int_range, Text.INT_MIN, Text.INT_MAX. lia.
    + apply Hundef. vm_compute. intros [_ Hle]. by apply Hle.
Defined.

(** ** What a repair does *)

Section Repair.

Variables f c : string.
Variable src : Z.

Lemma all_writable_alter (ns : list Node) (k : nat) :
  all_writable ns -> all_writable (alter (put_blob f c) k ns).
Proof.
  intros Hw j n' Hj. destruct (decide (k = j)) as [<-|Hne].
  - rewrite list_lookup_alter_eq in Hj. destruct (ns !! k); [|done].
    by injection Hj as <-.
  - rewrite list_lookup_alter_ne in Hj by done. by apply (Hw j).
Qed.

Lemma blob_on_alter (ns : list Node) (k : nat) i :
  blob_on ns i f = Some c -> blob_on (alter (put_blob f c) k ns) i f = Some c.
Proof.
  unfold blob_on, index_of_id. rewrite length_alter.
  destruct (_ && _); [|done]. destruct (decide (k = Z.to_nat (i - 1))) as [<-|Hne].
  - rewrite list_lookup_alter_eq. destruct (ns !! k) as [n|]; [|done].
    simpl. intros _. apply lookup_insert_eq.
  - by rewrite list_lookup_alter_ne.
Qed.

(** One copy from the source to the node at index [k]. *)
Lemma copy_from_source st k :
  in_pool (nodes st) src -> blob_on (nodes st) src f = Some c ->
  all_writable (nodes st) -> (k < length (nodes st))%nat ->
  copy_from_node f src k st =
  (Val tt, set_nodes (alter (put_blob f c) k (nodes st)) st).
Proof.
  intros Hsrc Hblob Hw Hk.
  destruct (node_at_in_pool st src Hsrc) as (s & Hs & _).
  destruct (lookup_lt_is_Some_2 _ _ Hk) as [n Hn].
  rewrite (copy_from_node_eq f src k st s n Hsrc Hs Hn).
  rewrite (blob_on_lookup f _ _ _ Hsrc Hs) in Hblob. rewrite Hblob.
  rewrite (Hw k n Hn). by rewrite (alter_put_blob f c _ _ _ Hn).
Qed.

Lemma ghost_nodes_shape ns ns' ids :
  shape ns' = shape ns -> ghost_nodes ns' ids = ghost_nodes ns ids.
Proof.
  intros H. unfold ghost_nodes. apply list_filter_iff.
  intros i. by rewrite (shape_is_active _ _ _ H).
Qed.

(** The first loop of the repair restores the file on the first
    inactive listed nodes, as many as the counter allows. *)
Lemma restore_loop_eq ids st a :
  Forall (in_pool (nodes st)) ids ->
  in_pool (nodes st) src -> blob_on (nodes st) src f = Some c ->
  all_writable (nodes st) ->
  let restored := take (Z.to_nat (REPLICATION - a)) (ghost_nodes (nodes st) ids) in
  restore_loop f src ids a st =
  (Val (a + Z.of_nat (length restored)),
   {| nodes := put_all f c (idx <$> restored) (nodes st);
      metadata := metadata st; files := files st;
      cout := cout st ++ (MsgRestored f <$> restored) |}).
Proof.
  revert st a. induction ids as [|i ids IH]; intros st a Hids Hsrc Hblob Hw.
  - cbv zeta. unfold ghost_nodes. rewrite filter_nil, take_nil. simpl.
    rewrite app_nil_r, Z.add_0_r. by destruct st.
  - apply Forall_cons in Hids as [Hi Hids]. cbn [restore_loop].
    destruct (node_at_in_pool st i Hi) as (n & Hn & Hat).
    rewrite (bind_val _ _ _ _ _ Hat).
    pose proof (is_active_lookup _ _ _ Hi Hn) as Hact.
    unfold ghost_nodes. rewrite filter_cons. fold (ghost_nodes (nodes st) ids).
    destruct (active n) eqn:Han; cbn [negb andb].
    + destruct (decide (is_active (nodes st) i = false)) as [Hc|_]; [congruence|].
      by apply IH.
    + destruct (decide (is_active (nodes st) i = false)) as [_|Hc]; [|congruence].
      destruct (a <? REPLICATION) eqn:Hlt; cbn [negb andb].
      * apply Z.ltb_lt in Hlt.
        assert (Hk : (Z.to_nat (i - 1) < length (nodes st))%nat)
          by by apply lookup_lt_Some in Hn.
        unfold bind at 1. rewrite (copy_from_source st _ Hsrc Hblob Hw Hk). mrun.
        set (st1 := add_cout _ _).
        assert (Hs1 : shape (nodes st1) = shape (nodes st))
          by apply shape_alter_put.
        rewrite (IH st1 (a + 1)).
        -- rewrite (ghost_nodes_shape _ _ _ Hs1).
           replace (Z.to_nat (REPLICATION - a))
             with (S (Z.to_nat (REPLICATION - (a + 1)))) by lia.
           cbv zeta. csimpl. f_equal; [f_equal; lia|].
           subst st1. simpl. by rewrite <- app_assoc.
        -- eapply Forall_impl; [exact Hids|]. intros j. by apply shape_in_pool.
        -- by apply (shape_in_pool (nodes st)).
        -- by apply blob_on_alter.
        -- by apply all_writable_alter.
      * apply Z.ltb_ge in Hlt. rewrite IH by done.
        replace (Z.to_nat (REPLICATION - a)) with 0%nat by lia. done.
Qed.

Lemma filter_ext_in {X} (P Q : X -> Prop)
    `{!forall x, Decision (P x), !forall x, Decision (Q x)} (l : list X) :
  (forall x, x ∈ l -> P x <-> Q x) -> filter P l = filter Q l.
Proof.
  induction l as [|x l IH]; intros Hext; [done|].
  rewrite !filter_cons, IH by (intros y Hy; apply Hext; by right).
  destruct (decide (P x)) as [HP|HP], (decide (Q x)) as [HQ|HQ]; try done.
  - exfalso. apply HQ. apply Hext; [by left|done].
  - exfalso. apply HP. apply Hext; [by left|done].
Qed.

(** The second loop of the repair adds the file on the first active
    nodes that are not listed, as many as the counter allows. *)
Lemma add_loop_eq idxs st a cur :
  NoDup idxs -> Forall (fun k => (k < length (nodes st))%nat) idxs ->
  pool_wf (nodes st) ->
  in_pool (nodes st) src -> blob_on (nodes st) src f = Some c ->
  all_writable (nodes st) ->
  metadata st !! f = Some cur -> a < REPLICATION ->
  let added :=
    take (Z.to_nat (REPLICATION - a))
      (filter (fun k => active_at (nodes st) k = true /\ id_at k ∉ cur) idxs) in
  exists a',
    add_loop f src idxs a st =
    (Val a',
     {| nodes := put_all f c added (nodes st);
        metadata := <[f := cur ++ (id_at <$> added)]> (metadata st);
        files := files st;
        cout := cout st ++ (MsgAdded f <$> (id_at <$> added)) |}).
Proof.
  intros Hnd. revert st a cur.
  induction Hnd as [|k idxs Hk Hnd IH];
    intros st a cur Hidxs Hwf Hsrc Hblob Hw Hcur Ha.
  - cbv zeta. rewrite filter_nil, take_nil. simpl. exists a.
    rewrite !app_nil_r, insert_id by done. by destruct st.
  - apply Forall_cons in Hidxs as [Hlt Hidxs]. cbn [add_loop].
    destruct (node_index_lt st k Hlt) as (n & Hn & Hat).
    rewrite (bind_val _ _ _ _ _ Hat).
    rewrite (bind_val _ _ st (default [] (metadata st !! f)) st) by done.
    rewrite Hcur. cbn [default from_option]. rewrite (Hwf k n Hn).
    change (Z.of_nat k + 1) with (id_at k).
    assert (Hact : active_at (nodes st) k = active n)
      by (unfold active_at; by rewrite Hn).
    rewrite filter_cons.
    destruct (decide (active_at (nodes st) k = true /\ id_at k ∉ cur))
      as [[Hka Hkc]|Hno].
    + rewrite <- Hact, Hka, bool_decide_eq_true_2 by done. cbn [andb].
      unfold bind at 1. rewrite (copy_from_source st k Hsrc Hblob Hw Hlt). mrun.
      replace (Z.to_nat (REPLICATION - a))
        with (S (Z.to_nat (REPLICATION - (a + 1)))) by lia.
      set (st2 := add_cout _ _).
      assert (Hs2 : shape (nodes st2) = shape (nodes st)) by apply shape_alter_put.
      destruct (REPLICATION <=? a + 1) eqn:Hfull.
      * apply Z.leb_le in Hfull.
        replace (Z.to_nat (REPLICATION - (a + 1))) with 0%nat by lia.
        by exists (a + 1).
      * apply Z.leb_gt in Hfull.
        destruct (IH st2 (a + 1) (cur ++ [id_at k])) as (a' & Heq).
        -- by rewrite (shape_length _ _ Hs2).
        -- by apply (shape_pool_wf (nodes st)).
        -- by apply (shape_in_pool (nodes st)).
        -- by apply blob_on_alter.
        -- by apply all_writable_alter.
        -- subst st2. simpl. apply lookup_insert_eq.
        -- done.
        -- exists a'. rewrite Heq. cbv zeta.
           assert (Hfilter :
             filter (fun j => active_at (nodes st2) j = true /\
                              id_at j ∉ cur ++ [id_at k]) idxs =
             filter (fun j => active_at (nodes st) j = true /\ id_at j ∉ cur) idxs).
           { apply filter_ext_in. intros j Hj.
             rewrite (shape_active_at _ _ _ Hs2), not_elem_of_app,
               list_elem_of_singleton.
             assert (id_at j <> id_at k).
             { unfold id_at. intros Heq'. apply Hk. by replace k with j by lia. }
             tauto. }
           rewrite Hfilter. subst st2. simpl. f_equal. f_equal.
           ++ by rewrite insert_insert_eq, <- app_assoc.
           ++ by rewrite <- app_assoc.
    + destruct (active n && bool_decide _) eqn:Hcond; [|by apply IH].
      exfalso. apply andb_prop in Hcond as [Hka Hkc].
      apply bool_decide_eq_true in Hkc. apply Hno. by rewrite Hact.
Qed.

End Repair.

Section RepairOutcome.

Variables f c : string.

Lemma fresh_nodes_idx ns ns' ids :
  shape ns' = shape ns ->
  id_at <$> filter (fun k => active_at ns' k = true /\ id_at k ∉ ids)
              (seq 0 (length ns)) =
  fresh_nodes ns ids.
Proof.
  intros Hs. unfold fresh_nodes. rewrite seqZ_id_at, filter_fmap_comm. f_equal.
  apply list_filter_iff. intros k.
  by rewrite is_active_id_at, (shape_active_at _ _ _ Hs).
Qed.

Lemma idx_id_at (l : list nat) : idx <$> (id_at <$> l) = l.
Proof.
  rewrite <- list_fmap_compose. rewrite <- (list_fmap_id l) at 2.
  apply list_fmap_ext. intros _ k _. unfold idx, id_at. simpl. lia.
Qed.

Lemma put_all_app targets1 targets2 ns :
  put_all f c (targets1 ++ targets2) ns = put_all f c targets2 (put_all f c targets1 ns).
Proof. unfold put_all. apply foldl_app. Qed.

Lemma length_put_all targets ns : length (put_all f c targets ns) = length ns.
Proof. apply shape_length, shape_put_all. Qed.

Lemma all_writable_put_all targets ns :
  all_writable ns -> all_writable (put_all f c targets ns).
Proof.
  unfold put_all. revert ns. induction targets as [|k targets IH]; intros ns Hw; [done|].
  simpl. apply IH. by apply all_writable_alter.
Qed.

Lemma blob_on_put_all targets ns i :
  blob_on ns i f = Some c -> blob_on (put_all f c targets ns) i f = Some c.
Proof.
  unfold put_all. revert ns. induction targets as [|k targets IH]; intros ns Hb; [done|].
  simpl. apply IH. by apply blob_on_alter.
Qed.

(** A repair that has something to do and meets no copy error. *)
Lemma reReplicateFile_eq st ids src :
  pool_wf (nodes st) -> metadata st !! f = Some ids ->
  Forall (in_pool (nodes st)) ids ->
  active_count (nodes st) ids < REPLICATION ->
  first_active (nodes st) ids = Some src ->
  blob_on (nodes st) src f = Some c ->
  all_writable (nodes st) ->
  reReplicateFile f st = (Val tt, repair_state f c ids st).
Proof.
  intros Hwf Hrec Hids Hlow Hfirst Hblob Hw.
  pose proof (first_active_Some _ _ _ Hfirst) as [Hin _].
  assert (Hsrc : in_pool (nodes st) src) by (rewrite Forall_forall in Hids; by apply Hids).
  pose proof (active_count_nonneg (nodes st) ids) as Hnonneg.
  unfold reReplicateFile.
  rewrite (bind_val _ _ st (metadata st !! f) st) by done. rewrite Hrec.
  rewrite (bind_val _ _ _ _ _ (count_active_eq ids st 0 Hids)), Z.add_0_l.
  destruct (REPLICATION <=? _) eqn:Hge; [apply Z.leb_le in Hge; lia|].
  rewrite (bind_val _ _ _ _ _ (find_source_eq ids st Hids)), Hfirst.
  change (default (-1) (Some src)) with src.
  destruct (src =? -1) eqn:Hm1; [apply Z.eqb_eq in Hm1; unfold in_pool in Hsrc; lia|].
  unfold repair_state.
  set (restored := repair_restored (nodes st) ids).
  set (added := repair_added (nodes st) ids).
  pose proof (restore_loop_eq f c src ids st (active_count (nodes st) ids)
                Hids Hsrc Hblob Hw) as Hrestore.
  cbv zeta in Hrestore. fold (deficit (nodes st) ids) in Hrestore.
  fold (repair_restored (nodes st) ids) in Hrestore. fold restored in Hrestore.
  unfold bind at 1. unfold attempt. unfold bind at 1. rewrite Hrestore.
  set (st1 := {| nodes := put_all f c (idx <$> restored) (nodes st);
                 metadata := metadata st; files := files st;
                 cout := cout st ++ (MsgRestored f <$> restored) |}).
  assert (Hs1 : shape (nodes st1) = shape (nodes st)) by apply shape_put_all.
  assert (Hlen1 : length (nodes st1) = length (nodes st)) by apply length_put_all.
  rewrite (bind_val _ _ st1 (seq 0 (length (nodes st1))) st1) by done.
  assert (Hlr : length restored = Nat.min (deficit (nodes st) ids)
                                    (length (ghost_nodes (nodes st) ids)))
    by apply length_take.
  assert (Hdef : Z.of_nat (deficit (nodes st) ids) =
                 REPLICATION - active_count (nodes st) ids)
    by (unfold deficit; lia).
  destruct (_ <? REPLICATION) eqn:Hlt.
  - apply Z.ltb_lt in Hlt.
    destruct (add_loop_eq f c src (seq 0 (length (nodes st1))) st1
                (active_count (nodes st) ids + Z.of_nat (length restored)) ids)
      as (a' & Hadd); try done.
    + apply NoDup_seq.
    + apply seq_lt.
    + by apply (shape_pool_wf (nodes st)).
    + by apply (shape_in_pool (nodes st)).
    + by apply blob_on_put_all.
    + by apply all_writable_put_all.
    + cbv zeta in Hadd. unfold bind at 1. unfold bind at 1. rewrite Hadd.
      assert (Hadded : id_at <$>
        take (Z.to_nat (REPLICATION -
                (active_count (nodes st) ids + Z.of_nat (length restored))))
          (filter (fun k => active_at (nodes st1) k = true /\ id_at k ∉ ids)
             (seq 0 (length (nodes st1)))) = added).
      { rewrite fmap_take, Hlen1, (fresh_nodes_idx (nodes st) (nodes st1) ids Hs1).
        subst added. unfold repair_added. f_equal. lia. }
      assert (Htake : take (Z.to_nat (REPLICATION -
                (active_count (nodes st) ids + Z.of_nat (length restored))))
          (filter (fun k => active_at (nodes st1) k = true /\ id_at k ∉ ids)
             (seq 0 (length (nodes st1)))) = idx <$> added)
        by (by rewrite <- Hadded, idx_id_at).
      rewrite Hadded, Htake. mrun.
      unfold saveMetadata. mrun. subst st1. simpl.
      rewrite <- put_all_app, <- fmap_app, <- app_assoc. done.
  - apply Z.ltb_ge in Hlt.
    assert (Hnone : added = []).
    { subst added. unfold repair_added.
      replace (deficit (nodes st) ids - length (ghost_nodes (nodes st) ids))%nat
        with 0%nat by lia. done. }
    rewrite Hnone. mrun. unfold saveMetadata. mrun. subst st1. simpl.
    rewrite !app_nil_r, (insert_id _ _ _ Hrec). done.
Qed.

(** A repair with nothing to do. *)
Lemma reReplicateFile_noop st ids :
  metadata st !! f = Some ids -> Forall (in_pool (nodes st)) ids ->
  REPLICATION <= active_count (nodes st) ids \/ first_active (nodes st) ids = None ->
  reReplicateFile f st = (Val tt, st).
Proof.
  intros Hrec Hids Hcase. unfold reReplicateFile.
  rewrite (bind_val _ _ st (metadata st !! f) st) by done. rewrite Hrec.
  rewrite (bind_val _ _ _ _ _ (count_active_eq ids st 0 Hids)), Z.add_0_l.
  destruct (REPLICATION <=? _) eqn:Hge; [done|]. apply Z.leb_gt in Hge.
  destruct Hcase as [Hcase|Hcase]; [lia|].
  by rewrite (bind_val _ _ _ _ _ (find_source_eq ids st Hids)), Hcase.
Qed.

End RepairOutcome.

(** C1, amended: a repair does nothing when the number of listed nodes
    that are active is already at least 3, or when no listed node is
    active. Otherwise, when the first listed active node holds the file
    and no copy raises an error, it copies the file from that node to the
    targets of [chooseRepairTargets]: first the listed nodes that are
    inactive, in the order of the record, on which the file is restored
    without any change of the record, then the active nodes that are not
    listed, in ascending id order, whose ids are appended to the record.
    It stops when the count of replicas, which starts at the number of
    listed active nodes and grows by one with every copy, restorations
    on inactive nodes included, reaches 3, or when no candidate is left;
    then the metadata is saved. *)
Theorem repair_outcome (f : string) (st : State) (ids : list Z) :
  pool_wf (nodes st) ->
  metadata st !! f = Some ids ->
  Forall (in_pool (nodes st)) ids ->
  let a := active_count (nodes st) ids in
  let targets := chooseRepairTargets (nodes st) ids in
  (REPLICATION <= a \/ a = 0 -> reReplicateFile f st = (Val tt, st)) /\
  (forall src c,
     a < REPLICATION ->
     first_active (nodes st) ids = Some src ->
     blob_on (nodes st) src f = Some c ->
     all_writable (nodes st) ->
     reReplicateFile f st = (Val tt, repair_state f c ids st)) /\
  repair_restored (nodes st) ids ++ repair_added (nodes st) ids = targets /\
  (a < REPLICATION ->
   a + Z.of_nat (length targets) = REPLICATION \/
   targets = ghost_nodes (nodes st) ids ++ fresh_nodes (nodes st) ids).
Proof.
  intros Hwf Hrec Hids a targets. split; [|split; [|split]].
  - intros Hcase. apply (reReplicateFile_noop f st ids Hrec Hids).
    destruct Hcase as [?|Hz]; [by left|right]. by apply first_active_None.
  - intros src c Hlow Hfirst Hblob Hw. by apply (reReplicateFile_eq f c st ids src).
  - subst targets. unfold repair_restored, repair_added, chooseRepairTargets.
    by rewrite take_app.
  - intros Hlow. subst targets a. unfold chooseRepairTargets.
    pose proof (active_count_nonneg (nodes st) ids) as Hnonneg.
    set (cands := ghost_nodes (nodes st) ids ++ fresh_nodes (nodes st) ids).
    destruct (decide (deficit (nodes st) ids <= length cands)%nat) as [Hle|Hgt].
    + left. rewrite length_take_le by done. unfold deficit. lia.
    + right. apply take_ge. lia.
Qed.

Lemma repair_outcome_witness :
  metadata (reReplicateFile "a.txt" st_short).2 !! "a.txt" = Some [1; 2; 3] /\
  blob_on (nodes (reReplicateFile "a.txt" st_short).2) 3 "a.txt" = Some "hello" /\
  cout (reReplicateFile "a.txt" st_short).2 =
    [MsgRestored "a.txt" 1; MsgAdded "a.txt" 3].
Proof.
  destruct (repair_outcome "a.txt" st_short [1; 2]) as (_ & Heq & _).
  - intros k n Hk. unfold st_short in Hk. simpl in Hk.
    do 4 (destruct k as [|k]; [apply (inj Some) in Hk; by subst n|]).
    discriminate Hk.
  - reflexivity.
  - unfold in_pool. simpl. repeat constructor; lia.
  - rewrite (Heq 2 "hello").
    + repeat split; vm_compute; reflexivity.
    + vm_compute. reflexivity.
    + reflexivity.
    + reflexivity.
    + intros k n Hk. unfold st_short in Hk. simpl in Hk.
      do 4 (destruct k as [|k]; [apply (inj Some) in Hk; by subst n|]).
      discriminate Hk.
Defined.

(** C1 as stated fails: with nodes 1 and 2 failed and [a.txt] recorded
    on nodes 1, 2 and 3, the repair restores the file on the two failed
    nodes and stops; the number of listed nodes that are active is still
    1, and node 4, active and not listed, is left out of the record. *)
Lemma repair_stops_early_counterexample :
  active_count (nodes (st_abc false false true true)) [1; 2; 3] = 1 /\
  first_active (nodes (st_abc false false true true)) [1; 2; 3] = Some 3 /\
  cout (reReplicateFile "a.txt" (st_abc false false true true)).2 =
    [MsgRestored "a.txt" 1; MsgRestored "a.txt" 2] /\
  metadata (reReplicateFile "a.txt" (st_abc false false true true)).2 !! "a.txt" =
    Some [1; 2; 3] /\
  active_count (nodes (reReplicateFile "a.txt" (st_abc false false true true)).2)
    [1; 2; 3] = 1 /\
  fresh_nodes (nodes (reReplicateFile "a.txt" (st_abc false false true true)).2)
    [1; 2; 3] = [4].
Proof. repeat split; vm_compute; reflexivity. Qed.

(** * Further properties of the operations *)

(** ** Listing the files and the nodes *)

Section Reports.

Lemma entries_sorted (m : gmap string (list Z)) :
  StronglySorted (fun a b => String.leb a b = true) (entries m).*1.
Proof.
  unfold entries. apply (StronglySorted_fmap fst key_le); [by intros ?? H|].
  apply StronglySorted_merge_sort.
  - intros e1 e2 e3 H12 H23. unfold key_le in *.
    apply Is_true_true. apply Is_true_true in H12, H23.
    exact (transitivity (R := String.le) H12 H23).
  - intros e1 e2. unfold key_le. destruct (String.leb_total e1.1 e2.1); auto.
Qed.

Lemma elem_of_entries (m : gmap string (list Z)) f ids :
  (f, ids) ∈ entries m <-> m !! f = Some ids.
Proof. unfold entries. rewrite merge_sort_Permutation. apply elem_of_map_to_list. Qed.

Lemma entries_NoDup (m : gmap string (list Z)) : NoDup (entries m).*1.
Proof. unfold entries. rewrite merge_sort_Permutation. apply NoDup_fst_map_to_list. Qed.

Lemma StronglySorted_lookup {X} (R : relation X) (l : list X) (i j : nat) x y :
  StronglySorted R l -> (i < j)%nat -> l !! i = Some x -> l !! j = Some y -> R x y.
Proof.
  intros Hs. revert i j. induction Hs as [|a l Hs IH Hall]; intros i j Hij Hi Hj; [done|].
  destruct j as [|j]; [lia|]. destruct i as [|i]; simpl in *.
  - injection Hi as <-. rewrite Forall_forall in Hall.
    apply Hall. by eapply list_elem_of_lookup_2.
  - apply (IH i j); [lia|done..].
Qed.

Lemma leb_ne_ltb (s1 s2 : string) :
  String.leb s1 s2 = true -> s1 <> s2 -> String.ltb s1 s2 = true.
Proof.
  unfold String.leb, String.ltb. intros Hle Hne.
  destruct (String.compare s1 s2) eqn:Hc; try done.
  by apply String.compare_eq_iff in Hc.
Qed.

End Reports.

(** X1 ([listFiles]).  The listing shows the notice of an empty store
    exactly when there is no record; otherwise it shows one line for
    each record, with the ids of the record, and the lines come in
    strictly ascending order of the file names, so no name is listed
    twice. *)
Theorem listFiles_shows_records (st : State) :
  (listFiles st = [ReportNoFiles] <-> metadata st = ∅) /\
  (forall f ids, ReportFile f ids ∈ listFiles st <-> metadata st !! f = Some ids) /\
  (forall (k1 k2 : nat) f1 ids1 f2 ids2,
     (k1 < k2)%nat ->
     listFiles st !! k1 = Some (ReportFile f1 ids1) ->
     listFiles st !! k2 = Some (ReportFile f2 ids2) ->
     String.ltb f1 f2 = true).
Proof.
  unfold listFiles. destruct (decide (metadata st = ∅)) as [He|Hne].
  - split; [done|]. split.
    + intros f ids. rewrite He, lookup_empty, list_elem_of_singleton. split; done.
    + intros k1 k2 ?????? Hk2. destruct k2 as [|k2]; [lia|]. done.
  - split; [split; [done|by intros ?]|]. split.
    + intros f ids. rewrite elem_of_cons, list_elem_of_fmap. split.
      * intros [?|([g l] & Heq & Hin)]; [done|]. simpl in Heq.
        injection Heq as -> ->. by apply elem_of_entries.
      * intros Hm. right. exists (f, ids). split; [done|]. by apply elem_of_entries.
    + intros k1 k2 f1 ids1 f2 ids2 Hlt H1 H2.
      destruct k1 as [|k1]; [done|]. destruct k2 as [|k2]; [lia|].
      simpl in H1, H2. rewrite list_lookup_fmap in H1, H2.
      destruct (entries (metadata st) !! k1) as [[g1 l1]|] eqn:E1; [|done].
      destruct (entries (metadata st) !! k2) as [[g2 l2]|] eqn:E2; [|done].
      simpl in H1, H2. injection H1 as -> ->. injection H2 as -> ->.
      assert (Hk1 : (entries (metadata st)).*1 !! k1 = Some f1)
        by by rewrite list_lookup_fmap, E1.
      assert (Hk2 : (entries (metadata st)).*1 !! k2 = Some f2)
        by by rewrite list_lookup_fmap, E2.
      apply leb_ne_ltb.
      * apply (StronglySorted_lookup _ _ k1 k2 _ _ (entries_sorted (metadata st))); [lia|done..].
      * intros ->. assert (k1 = k2); [|lia].
        eapply NoDup_lookup; [apply entries_NoDup|done..].
Qed.

(** ** Loading a damaged metadata file *)

Section Loading.

Lemma load_line_corrupt line m : corrupt_line line -> load_line line m = None.
Proof.
  intros (name & nodeStr & -> & Hname & Hparse). unfold load_line.
  destruct (decide _) as [He|_]; [by destruct name|].
  by rewrite (find_app _ _ _ Hname), substr_from_app, Hparse.
Qed.

Lemma load_lines_app_entries es rest m :
  Forall good_entry es ->
  load_lines ((Text.show_entry <$> es) ++ rest) m = load_lines rest (assign_all es m).
Proof.
  intros H. revert m. induction H as [|[f ids] es (Hp & Hne & Hr) _ IH];
    intros m; csimpl; [done|].
  rewrite load_line_show_entry by (done || apply Hp). apply IH.
Qed.

Lemma assign_all_last es m f :
  assign_all es m !! f =
  match last_entry f es with
  | Some ids => Some ids
  | None => m !! f
  end.
Proof.
  unfold assign_all, last_entry. induction es as [|e es IH] using rev_ind; [done|].
  rewrite foldl_snoc, filter_app. destruct (decide (e.1 = f)) as [He|He].
  - rewrite filter_cons_True by done. rewrite filter_nil, last_snoc. simpl.
    rewrite <- He. apply lookup_insert_eq.
  - rewrite filter_cons_False by done. rewrite filter_nil, app_nil_r.
    by rewrite lookup_insert_ne.
Qed.

Lemma constructor_eq totalNodes dirs fs text :
  fs !! METADATA_FILE = Some text ->
  DistributedFS_new totalNodes dirs fs =
  (Val tt,
   {| nodes := (fun i => Node_new i (dirs i)) <$> seqZ 1 totalNodes;
      metadata := (load_lines (Text.getlines Text.NL text) ∅).1;
      files := fs;
      cout := [MsgInitialized totalNodes;
               if (load_lines (Text.getlines Text.NL text) ∅).2
               then MsgMetadataLoaded else MsgLoadFailed] |}).
Proof.
  intros Hfile. unfold DistributedFS_new, loadMetadata. mrun. rewrite Hfile.
  by destruct (load_lines _ _) as [m' finished].
Qed.

Lemma restart_saved st totalNodes dirs :
  (forall f ids, metadata st !! f = Some ids -> good_entry (f, ids)) ->
  saved st ->
  metadata (DistributedFS_new totalNodes dirs (files st)).2 = metadata st.
Proof.
  intros Hgood Hsaved. rewrite (constructor_eq _ _ _ _ Hsaved). cbn [snd metadata].
  rewrite getlines_show_entries, load_lines_show_entries by by apply entries_good.
  apply assign_all_entries.
Qed.

End Loading.

(** X2 ([loadMetadata], [DistributedFS::DistributedFS]).  When a line of
    the metadata file holds an id that [stoi] rejects, the constructor
    still completes: it reports the failure, keeps the records of the
    lines read before that line, and reads none of the lines after it,
    whatever they hold. *)
Theorem load_stops_at_corrupt_line (totalNodes : Z) (dirs : Z -> Directory)
    (fs : gmap string string) (text : string) (es : list (string * list Z))
    (bad : string) (rest : list string) :
  fs !! METADATA_FILE = Some text ->
  Text.getlines Text.NL text = (Text.show_entry <$> es) ++ bad :: rest ->
  Forall good_entry es ->
  corrupt_line bad ->
  (DistributedFS_new totalNodes dirs fs).1 = Val tt /\
  cout (DistributedFS_new totalNodes dirs fs).2 =
    [MsgInitialized totalNodes; MsgLoadFailed] /\
  forall f, metadata (DistributedFS_new totalNodes dirs fs).2 !! f = last_entry f es.
Proof.
  intros Hfile Hlines Hgood Hbad. rewrite (constructor_eq _ _ _ _ Hfile), Hlines.
  rewrite load_lines_app_entries by done. cbn [load_lines].
  rewrite (load_line_corrupt _ _ Hbad). cbn [fst snd metadata cout].
  split; [done|]. split; [done|]. intros f.
  rewrite assign_all_last, lookup_empty. by destruct (last_entry f es).
Qed.

Lemma load_stops_at_corrupt_line_witness :
  metadata (DistributedFS_new 4 (fun _ => empty_dir)
     {[ METADATA_FILE :=
          "a.txt:1,2,3," +:+ String Text.NL ("b.txt:1,x,3," +:+ String Text.NL
          ("c.txt:2,3,4," +:+ String Text.NL "")) ]}).2 !! "c.txt" = None.
Proof.
  pose proof (load_stops_at_corrupt_line 4 (fun _ => empty_dir)
    {[ METADATA_FILE :=
          "a.txt:1,2,3," +:+ String Text.NL ("b.txt:1,x,3," +:+ String Text.NL
          ("c.txt:2,3,4," +:+ String Text.NL "")) ]}
    ("a.txt:1,2,3," +:+ String Text.NL ("b.txt:1,x,3," +:+ String Text.NL
          ("c.txt:2,3,4," +:+ String Text.NL "")))
    [("a.txt", [1; 2; 3])] "b.txt:1,x,3," ["c.txt:2,3,4,"]) as H.
  destruct H as (_ & _ & H).
  - vm_compute; reflexivity.
  - vm_compute; reflexivity.
  - repeat constructor; try (vm_compute; reflexivity); try discriminate;
      unfold Text.INT_MIN, Text.INT_MAX; lia.
  - exists "b.txt", "1,x,3,". repeat split; vm_compute; reflexivity.
  - exact (H "c.txt").
Defined.

(** X3 ([loadMetadata]).  A metadata file made of well-formed lines
    loads completely, and when several lines name the same file the
    last of them gives the record: each line overwrites what an earlier
    line stored under the same name. *)
Theorem load_last_line_wins (totalNodes : Z) (dirs : Z -> Directory)
    (fs : gmap string string) (es : list (string * list Z)) (f : string) :
  fs !! METADATA_FILE = Some (Text.show_entries es) ->
  Forall good_entry es ->
  cout (DistributedFS_new totalNodes dirs fs).2 =
    [MsgInitialized totalNodes; MsgMetadataLoaded] /\
  metadata (DistributedFS_new totalNodes dirs fs).2 !! f = last_entry f es.
Proof.
  intros Hfile Hgood. rewrite (constructor_eq _ _ _ _ Hfile).
  rewrite getlines_show_entries, load_lines_show_entries by done.
  cbn [fst snd metadata cout]. split; [done|].
  rewrite assign_all_last, lookup_empty. by destruct (last_entry f es).
Qed.

Lemma load_last_line_wins_witness :
  metadata (DistributedFS_new 4 (fun _ => empty_dir)
     {[ METADATA_FILE :=
          Text.show_entries [("a.txt", [1; 2; 3]); ("b.txt", [2; 3; 4]);
                             ("a.txt", [4])] ]}).2 !! "a.txt" = Some [4].
Proof.
  refine (proj2 (load_last_line_wins 4 (fun _ => empty_dir) _
    [("a.txt", [1; 2; 3]); ("b.txt", [2; 3; 4]); ("a.txt", [4])] "a.txt" _ _)).
  - apply lookup_singleton_eq.
  - repeat constructor; try (vm_compute; reflexivity); try discriminate;
      unfold Text.INT_MIN, Text.INT_MAX; lia.
Defined.

(** X4 ([upload], [saveMetadata], [loadMetadata]).  A successful upload
    survives a restart: when the file names in use contain neither a
    colon nor an end of line and the ids of the pool fit an [int], a
    process started on the working directory that the upload leaves
    loads exactly the records held in memory after the upload. *)
Theorem upload_survives_restart (f : string) (st st1 : State) (used : list Z)
    (totalNodes : Z) (dirs : Z -> Directory) :
  pool_wf (nodes st) ->
  Z.of_nat (length (nodes st)) <= Text.INT_MAX ->
  (forall g ids, metadata st !! g = Some ids -> good_entry (g, ids)) ->
  plain_name f ->
  upload f st = (Val tt, st1) ->
  cout st1 = cout st ++ [MsgUploadSuccess used] ->
  metadata (DistributedFS_new totalNodes dirs (files st1)).2 = metadata st1 /\
  metadata st1 !! f = Some used.
Proof.
  intros Hwf Hmax Hgood Hplain Hup Hout.
  destruct (upload_success f st st1 used Hwf Hup Hout) as (c & Hc & -> & Hused & Hlen).
  assert (Hm : metadata (upload_success_state f c st) = <[f := used]> (metadata st)).
  { unfold upload_success_state. cbn [metadata].
    by rewrite placement_active_ids, <- Hused. }
  split; [|by rewrite Hm, lookup_insert_eq].
  apply restart_saved.
  - intros g ids. rewrite Hm. destruct (decide (g = f)) as [->|Hne].
    + rewrite lookup_insert_eq. intros [= <-]. split; [done|]. split.
      * simpl. intros Hnil. rewrite Hnil in Hlen. discriminate Hlen.
      * destruct (first_active_ids (nodes st)) as (_ & _ & Hpool).
        rewrite <- Hused in Hpool. eapply Forall_impl; [exact Hpool|].
        intros i [Hi1 Hi2]. unfold int_range, Text.INT_MIN. lia.
    + rewrite lookup_insert_ne by done. apply Hgood.
  - unfold saved, upload_success_state. cbn [files metadata]. apply lookup_insert_eq.
Qed.

Lemma upload_survives_restart_witness :
  metadata (DistributedFS_new 4 (fun _ => empty_dir)
     (files (upload "b.txt" (st_new_file true false true true)).2)).2 =
  metadata (upload "b.txt" (st_new_file true false true true)).2.
Proof.
  refine (proj1 (upload_survives_restart "b.txt" (st_new_file true false true true)
    (upload "b.txt" (st_new_file true false true true)).2 [1; 3; 4] 4
    (fun _ => empty_dir) _ _ _ _ _ _)).
  - apply pool4_wf.
  - vm_compute. discriminate.
  - intros g ids Hg. cbn [st_new_file metadata] in Hg.
    apply lookup_singleton_Some in Hg as [<- <-].
    repeat constructor; try (vm_compute; reflexivity); try discriminate;
      unfold Text.INT_MIN, Text.INT_MAX; lia.
  - split; vm_compute; reflexivity.
  - vm_compute; reflexivity.
  - vm_compute; reflexivity.
Defined.



(** ** Operations in sequence *)

Section Sequences.

Lemma blob_on_put_target f c targets (ns : list Node) (k : nat) :
  k ∈ targets -> (k < length ns)%nat ->
  blob_on (put_all f c targets ns) (id_at k) f = Some c.
Proof.
  intros Hin Hlt. unfold blob_on.
  assert (Hp : in_pool (put_all f c targets ns) (id_at k)).
  { unfold in_pool, id_at. rewrite length_put_all. lia. }
  destruct (index_of_id_in_pool _ _ Hp) as [-> _].
  replace (Z.to_nat (id_at k - 1)) with k by (unfold id_at; lia).
  rewrite put_all_lookup, decide_True by done.
  destruct (lookup_lt_is_Some_2 ns k Hlt) as [n ->]. simpl.
  apply lookup_insert_eq.
Qed.

Lemma refuses_put_target f c targets (ns : list Node) (k : nat) :
  k ∈ targets -> refuses_remove (put_all f c targets ns) f (id_at k) = false.
Proof.
  intros Hin. unfold refuses_remove.
  destruct (index_of_id _ _) as [j|] eqn:Hj; [|done].
  apply index_of_id_Some in Hj as [_ ->].
  replace (Z.to_nat (id_at k - 1)) with k by (unfold id_at; lia).
  rewrite put_all_lookup, decide_True by done.
  destruct (ns !! k) as [n|]; [|done]. simpl. apply andb_false_r.
Qed.

(** After a successful upload the record lists the nodes of the
    placement, which are in the pool, active, and hold the content. *)
Lemma upload_success_replicas f c st :
  let st1 := upload_success_state f c st in
  let targets := placement (nodes st) (seq 0 (length (nodes st))) 0 in
  metadata st1 !! f = Some (id_at <$> targets) /\
  Forall (fun k => (k < length (nodes st))%nat /\ active_at (nodes st) k = true) targets /\
  Forall (in_pool (nodes st1)) (id_at <$> targets) /\
  Forall (fun i => is_active (nodes st1) i = true) (id_at <$> targets) /\
  Forall (fun i => blob_on (nodes st1) i f = Some c) (id_at <$> targets) /\
  Forall (fun i => refuses_remove (nodes st1) f i = false) (id_at <$> targets).
Proof.
  intros st1 targets.
  assert (Ht : Forall (fun k => (k < length (nodes st))%nat /\
                                active_at (nodes st) k = true) targets).
  { apply Forall_forall. intros k Hk. apply elem_of_placement in Hk as [Hk Ha].
    split; [|done]. apply elem_of_seq in Hk. lia. }
  split; [apply lookup_insert_eq|]. split; [done|].
  rewrite !Forall_fmap. rewrite Forall_forall in Ht.
  repeat split; apply Forall_forall; intros k Hk; destruct (Ht k Hk) as [Hlt Ha]; simpl.
  - unfold in_pool, id_at. rewrite length_put_all. lia.
  - rewrite is_active_id_at. by rewrite (shape_active_at _ _ _ (shape_put_all f c _ _)).
  - by apply blob_on_put_target.
  - by apply refuses_put_target.
Qed.


Lemma downloaded_name_ne f : "downloaded_" +:+ f <> METADATA_FILE.
Proof. done. Qed.

End Sequences.





(** X8 ([download]).  A download writes nothing but the downloaded
    copy: every other file of the working directory, the metadata file
    included, keeps its content, whatever the outcome; and a second
    download of the same file right after it leaves the nodes, the
    records and the working directory as the first one left them. *)
Theorem download_writes_only_its_copy (f : string) (st : State) :
  (forall ids, metadata st !! f = Some ids -> Forall (in_pool (nodes st)) ids) ->
  (forall g, g <> "downloaded_" +:+ f ->
     files (download f st).2 !! g = files st !! g) /\
  files (download f st).2 !! METADATA_FILE = files st !! METADATA_FILE /\
  (download f (download f st).2).1 = Val tt /\
  nodes (download f (download f st).2).2 = nodes (download f st).2 /\
  metadata (download f (download f st).2).2 = metadata (download f st).2 /\
  files (download f (download f st).2).2 = files (download f st).2.
Proof.
  intros Hpool.
  assert (Hframe : forall g, g <> "downloaded_" +:+ f ->
            files (download f st).2 !! g = files st !! g).
  { intros g Hg. rewrite (download_eq f st Hpool). cbn [snd].
    destruct (metadata st !! f) as [ids|]; [|done].
    destruct (first_active _ _) as [i|]; [|done].
    destruct (blob_on _ _ _) as [c|]; [|done].
    cbn [download_success_state add_cout set_files files]. by rewrite lookup_insert_ne. }
  split; [done|]. split.
  { apply Hframe. intros H. by apply (downloaded_name_ne f). }
  assert (Hst : nodes (download f st).2 = nodes st /\
                metadata (download f st).2 = metadata st).
  { rewrite (download_eq f st Hpool). cbn [snd].
    destruct (metadata st !! f) as [ids|]; [|done].
    destruct (first_active _ _) as [i|]; [|done].
    by destruct (blob_on _ _ _) as [c|]. }
  destruct Hst as [Hn Hm].
  assert (Hpool1 : forall ids, metadata (download f st).2 !! f = Some ids ->
            Forall (in_pool (nodes (download f st).2)) ids).
  { intros ids. rewrite Hn, Hm. apply Hpool. }
  rewrite (download_eq f _ Hpool1). cbn [fst snd]. split; [done|].
  rewrite Hn, Hm. rewrite (download_eq f st Hpool). cbn [snd].
  destruct (metadata st !! f) as [ids|] eqn:Hrec; [|done].
  - destruct (first_active (nodes st) ids) as [i|] eqn:Hfirst.
    + destruct (blob_on (nodes st) i f) as [c|] eqn:Hb.
      * cbn [download_success_state add_cout set_files files nodes metadata].
        split; [done|]. split; [done|]. apply insert_insert_eq.
      * done.
    + done.
Qed.

Lemma download_writes_only_its_copy_witness :
  files (download "a.txt" (st_abc false true true true)).2 !! "a.txt" = Some "hello".
Proof.
  refine (eq_trans (proj1 (download_writes_only_its_copy "a.txt"
            (st_abc false true true true) _) "a.txt" _) _).
  - intros ids Hg. cbn [st_abc metadata] in Hg.
    apply lookup_singleton_Some in Hg as [_ <-].
    repeat constructor; vm_compute; discriminate.
  - discriminate.
  - vm_compute; reflexivity.
Defined.

(** ** What the operations leave untouched *)

Section Frames.

Lemma only_writes_refl f ns : only_writes f ns ns.
Proof. split; [done|]. intros k n Hn. by exists n. Qed.

Lemma only_writes_trans f ns1 ns2 ns3 :
  only_writes f ns1 ns2 -> only_writes f ns2 ns3 -> only_writes f ns1 ns3.
Proof.
  intros [Hs1 H1] [Hs2 H2]. split; [by rewrite Hs2|].
  intros k n Hn. destruct (H1 k n Hn) as (n2 & Hn2 & Ho1 & Hf1).
  destruct (H2 k n2 Hn2) as (n3 & Hn3 & Ho2 & Hf2).
  exists n3. split; [done|]. split; [|by auto].
  intros g Hg. by rewrite (Ho2 g Hg), (Ho1 g Hg).
Qed.

Lemma only_writes_put f c (ns : list Node) (k : nat) n :
  ns !! k = Some n -> only_writes f ns (<[k := put_blob f c n]> ns).
Proof.
  intros Hn. split; [by apply shape_put_blob|].
  intros j m Hm. destruct (decide (j = k)) as [->|Hne].
  - rewrite Hn in Hm. injection Hm as <-. exists (put_blob f c n).
    split; [apply list_lookup_insert_eq; by eapply lookup_lt_Some|].
    split.
    + intros g Hg. simpl. by rewrite lookup_insert_ne.
    + intros _. simpl. rewrite lookup_insert_eq. by eexists.
  - exists m. by rewrite list_lookup_insert_ne.
Qed.

Lemma only_writes_blob_on f ns ns' :
  only_writes f ns ns' ->
  (forall i g, g <> f -> blob_on ns' i g = blob_on ns i g) /\
  (forall i, is_Some (blob_on ns i f) -> is_Some (blob_on ns' i f)).
Proof.
  intros [Hs H]. pose proof (shape_length _ _ Hs) as Hlen.
  split.
  - intros i g Hg. unfold blob_on, index_of_id. rewrite Hlen.
    destruct (_ && _); [|done].
    destruct (ns !! Z.to_nat (i - 1)) as [n|] eqn:Hn.
    + destruct (H _ _ Hn) as (n' & -> & Ho & _). simpl. by apply Ho.
    + apply lookup_ge_None in Hn. rewrite <- Hlen in Hn.
      apply lookup_ge_None in Hn. by rewrite Hn.
  - intros i. unfold blob_on, index_of_id. rewrite Hlen.
    destruct (_ && _); [|done].
    destruct (ns !! Z.to_nat (i - 1)) as [n|] eqn:Hn; [|by intros [? ?]].
    destruct (H _ _ Hn) as (n' & -> & _ & Hf). simpl. exact Hf.
Qed.

Lemma only_writes_keeps f ns ns' : only_writes f ns ns' -> keeps_blobs ns ns'.
Proof.
  intros [Hs H]. split; [done|]. intros k n Hn.
  destruct (H k n Hn) as (n' & Hn' & Ho & Hf). exists n'. split; [done|].
  intros g Hg. destruct (decide (g = f)) as [->|Hne]; [by apply Hf|].
  by rewrite (Ho g Hne).
Qed.

Lemma keeps_blobs_refl ns : keeps_blobs ns ns.
Proof. split; [done|]. intros k n Hn. by exists n. Qed.

Lemma keeps_blobs_trans ns1 ns2 ns3 :
  keeps_blobs ns1 ns2 -> keeps_blobs ns2 ns3 -> keeps_blobs ns1 ns3.
Proof.
  intros [Hs1 H1] [Hs2 H2]. split; [by rewrite Hs2|].
  intros k n Hn. destruct (H1 k n Hn) as (n2 & Hn2 & Hk1).
  destruct (H2 k n2 Hn2) as (n3 & Hn3 & Hk2).
  exists n3. split; [done|]. auto.
Qed.

Lemma keeps_blobs_blob_on ns ns' i g :
  keeps_blobs ns ns' -> is_Some (blob_on ns i g) -> is_Some (blob_on ns' i g).
Proof.
  intros [Hs H]. pose proof (shape_length _ _ Hs) as Hlen.
  unfold blob_on, index_of_id. rewrite Hlen.
  destruct (_ && _); [|done].
  destruct (ns !! Z.to_nat (i - 1)) as [n|] eqn:Hn; [|by intros [? ?]].
  destruct (H _ _ Hn) as (n' & -> & Hk). simpl. apply Hk.
Qed.

Lemma records_extended_refl m : records_extended m m.
Proof. intros g. exists []. destruct (m !! g); [|done]. simpl. by rewrite app_nil_r. Qed.

Lemma records_extended_trans m1 m2 m3 :
  records_extended m1 m2 -> records_extended m2 m3 -> records_extended m1 m3.
Proof.
  intros H1 H2 g. destruct (H1 g) as [e1 He1]. destruct (H2 g) as [e2 He2].
  exists (e1 ++ e2). rewrite He2, He1. destruct (m1 !! g); [|done].
  simpl. by rewrite app_assoc.
Qed.

Lemma repair_frame_refl f st : repair_frame f st st.
Proof.
  split; [apply only_writes_refl|]. split; [done|]. split; [|done].
  exists []. destruct (metadata st !! f); [|done]. simpl. by rewrite app_nil_r.
Qed.

Lemma repair_frame_trans f st1 st2 st3 :
  repair_frame f st1 st2 -> repair_frame f st2 st3 -> repair_frame f st1 st3.
Proof.
  intros (Hw1 & Hm1 & [e1 He1] & Hf1) (Hw2 & Hm2 & [e2 He2] & Hf2).
  split; [by eapply only_writes_trans|]. split; [|split].
  - intros g Hg. by rewrite (Hm2 g Hg), (Hm1 g Hg).
  - exists (e1 ++ e2). rewrite He2, He1. destruct (metadata st1 !! f); [|done].
    simpl. by rewrite app_assoc.
  - intros g Hg. by rewrite (Hf2 g Hg), (Hf1 g Hg).
Qed.

Lemma repair_frame_health f st st' : repair_frame f st st' -> health_frame st st'.
Proof.
  intros (Hw & Hm & [e He] & Hf). split; [by eapply only_writes_keeps|].
  split; [|done]. intros g. destruct (decide (g = f)) as [->|Hne].
  - by exists e.
  - exists []. rewrite (Hm g Hne). destruct (metadata st !! g); [|done].
    simpl. by rewrite app_nil_r.
Qed.

Lemma health_frame_refl st : health_frame st st.
Proof.
  split; [apply keeps_blobs_refl|]. split; [apply records_extended_refl|done].
Qed.

Lemma health_frame_trans st1 st2 st3 :
  health_frame st1 st2 -> health_frame st2 st3 -> health_frame st1 st3.
Proof.
  intros (Hk1 & Hr1 & Hf1) (Hk2 & Hr2 & Hf2).
  split; [by eapply keeps_blobs_trans|]. split; [by eapply records_extended_trans|].
  intros g Hg. by rewrite (Hf2 g Hg), (Hf1 g Hg).
Qed.


Lemma copy_from_node_writes f src k st :
  in_pool (nodes st) src -> (k < length (nodes st))%nat ->
  sat (copy_from_node f src k st)
    (fun _ st' => only_writes f (nodes st) (nodes st') /\
                  metadata st' = metadata st /\ files st' = files st /\
                  cout st' = cout st)
    (fun st' => st' = st).
Proof.
  intros Hsrc Hk. destruct (lookup_lt_is_Some_2 _ _ Hk) as [n Hn].
  destruct (index_of_id_in_pool _ _ Hsrc) as [_ Hlt].
  destruct (lookup_lt_is_Some_2 _ _ Hlt) as [s Hs].
  rewrite (copy_from_node_eq f src k st s n Hsrc Hs Hn).
  destruct (blobs (directory s) !! f) as [c|]; [|done].
  destruct (writable (directory n)); [|done]. simpl.
  split; [by apply only_writes_put|done].
Qed.


End Frames.


(** ** What a repair and a health check leave untouched *)

Section RepairFrames.

Variable f : string.

Lemma repair_frame_length st st' :
  repair_frame f st st' -> length (nodes st') = length (nodes st).
Proof. intros [[Hs _] _]. by apply shape_length. Qed.

Lemma restore_loop_writes src ids st a :
  Forall (in_pool (nodes st)) ids -> in_pool (nodes st) src ->
  sat (restore_loop f src ids a st)
    (fun _ st' => repair_frame f st st') (fun st' => repair_frame f st st').
Proof.
  revert st a. induction ids as [|i ids IH]; intros st a Hids Hsrc.
  - apply repair_frame_refl.
  - apply Forall_cons in Hids as [Hi Hids]. cbn [restore_loop].
    destruct (node_at_in_pool st i Hi) as (n & Hn & Hat).
    rewrite (bind_val _ _ _ _ _ Hat).
    destruct (negb (active n) && (a <? REPLICATION)); [|by apply IH].
    apply sat_bind.
    eapply sat_mono;
      [apply copy_from_node_writes; [done|by apply lookup_lt_is_Some_1]| |].
    + intros [] st1 (Hw & Hm & Hf & _). mrun.
      assert (Hrel : repair_frame f st (add_cout (MsgRestored f i) st1)).
      { split; [done|]. simpl. rewrite Hm, Hf. split; [done|]. split; [|done].
        exists []. destruct (metadata st !! f); [|done]. simpl. by rewrite app_nil_r. }
      pose proof (repair_frame_length _ _ Hrel) as Hlen.
      eapply sat_mono.
      * apply IH.
        -- eapply Forall_impl; [exact Hids|]. intros j. unfold in_pool. by rewrite Hlen.
        -- unfold in_pool. by rewrite Hlen.
      * intros ? st2 H2. simpl in H2. exact (repair_frame_trans f st _ st2 Hrel H2).
      * intros st2 H2. simpl in H2. exact (repair_frame_trans f st _ st2 Hrel H2).
    + intros st1 ->. apply repair_frame_refl.
Qed.

Lemma add_loop_writes src idxs st a :
  Forall (fun k => (k < length (nodes st))%nat) idxs -> in_pool (nodes st) src ->
  is_Some (metadata st !! f) ->
  sat (add_loop f src idxs a st)
    (fun _ st' => repair_frame f st st') (fun st' => repair_frame f st st').
Proof.
  revert st a. induction idxs as [|k idxs IH]; intros st a Hidxs Hsrc [cur Hcur].
  - apply repair_frame_refl.
  - apply Forall_cons in Hidxs as [Hk Hidxs]. cbn [add_loop].
    destruct (node_index_lt st k Hk) as (n & Hn & Hat).
    rewrite (bind_val _ _ _ _ _ Hat).
    rewrite (bind_val _ _ st (default [] (metadata st !! f)) st) by done.
    destruct (active n && bool_decide _); [|by apply IH].
    apply sat_bind.
    eapply sat_mono; [by apply copy_from_node_writes| |].
    + intros [] st1 (Hw & Hm & Hf & _). mrun.
      set (st2 := add_cout _ _).
      assert (Hrel : repair_frame f st st2).
      { split; [done|]. subst st2. simpl. split; [|split].
        - intros g Hg. by rewrite lookup_insert_ne, Hm.
        - exists [id n]. by rewrite lookup_insert_eq, Hcur.
        - intros g _. by rewrite Hf. }
      pose proof (repair_frame_length _ _ Hrel) as Hlen.
      destruct (REPLICATION <=? a + 1); [exact Hrel|].
      eapply sat_mono.
      * apply IH; [by rewrite Hlen| unfold in_pool; by rewrite Hlen|].
        subst st2. simpl. rewrite lookup_insert_eq. by eexists.
      * intros ? st3 H3. simpl in H3. exact (repair_frame_trans f st st2 st3 Hrel H3).
      * intros st3 H3. simpl in H3. exact (repair_frame_trans f st st2 st3 Hrel H3).
    + intros st1 ->. apply repair_frame_refl.
Qed.

Lemma repair_frame_save st st' :
  repair_frame f st st' -> repair_frame f st (saveMetadata st').2.
Proof.
  intros (Hw & Hm & He & Hf). split; [done|]. split; [done|]. split; [done|].
  intros g Hg. unfold saveMetadata. mrun. rewrite lookup_insert_ne by done. by apply Hf.
Qed.

Lemma reReplicateFile_writes st :
  (forall ids, metadata st !! f = Some ids -> Forall (in_pool (nodes st)) ids) ->
  sat (reReplicateFile f st) (fun _ st' => repair_frame f st st') (fun _ => False).
Proof.
  intros Hpool. unfold reReplicateFile.
  rewrite (bind_val _ _ st (metadata st !! f) st) by done.
  destruct (metadata st !! f) as [ids|] eqn:Hf; [|apply repair_frame_refl].
  pose proof (Hpool ids eq_refl) as Hids.
  rewrite (bind_val _ _ _ _ _ (count_active_eq ids st 0 Hids)).
  destruct (REPLICATION <=? _); [apply repair_frame_refl|].
  rewrite (bind_val _ _ _ _ _ (find_source_eq ids st Hids)).
  destruct (first_active (nodes st) ids) as [src|] eqn:Hsrc;
    [|apply repair_frame_refl].
  apply first_active_Some in Hsrc as [Hin _].
  assert (Hsrc : in_pool (nodes st) src).
  { rewrite Forall_forall in Hids. by apply Hids. }
  change (default (-1) (Some src)) with src. destruct (src =? -1) eqn:Hm1.
  { apply Z.eqb_eq in Hm1. unfold in_pool in Hsrc. lia. }
  apply sat_bind, sat_attempt, sat_bind.
  eapply sat_mono; [by apply restore_loop_writes| |].
  - intros a1 st1 H1. simpl.
    pose proof (repair_frame_length _ _ H1) as Hlen.
    rewrite (bind_val _ _ st1 (seq 0 (length (nodes st1))) st1) by done.
    apply sat_bind. destruct (a1 <? REPLICATION).
    + apply sat_bind. eapply sat_mono.
      * apply add_loop_writes; [apply seq_lt|unfold in_pool; by rewrite Hlen|].
        destruct H1 as (_ & _ & [e He] & _). rewrite He, Hf. by eexists.
      * intros a2 st2 H2. simpl.
        apply repair_frame_save. exact (repair_frame_trans f st st1 st2 H1 H2).
      * intros st2 H2. simpl.
        exact (repair_frame_trans f st st1 st2 H1 H2).
    + simpl. by apply repair_frame_save.
  - intros st1 H1. simpl. exact H1.
Qed.

End RepairFrames.

Section HealthFrames.

Lemma health_loop_writes l st :
  NoDup l ->
  (forall g ids, g ∈ l -> metadata st !! g = Some ids ->
     Forall (in_pool (nodes st)) ids) ->
  sat (health_loop l st) (fun _ st' => health_frame st st') (fun _ => False).
Proof.
  intros Hnd. revert st. induction Hnd as [|g l Hg Hnd IH]; intros st Hpool.
  { apply health_frame_refl. }
  cbn [health_loop].
  rewrite (bind_val _ _ st (default [] (metadata st !! g)) st) by done.
  assert (Hids : Forall (in_pool (nodes st)) (default [] (metadata st !! g))).
  { destruct (metadata st !! g) as [ids|] eqn:Hrec; [|by constructor].
    apply (Hpool g); [by left|done]. }
  rewrite (bind_val _ _ _ _ _ (count_active_eq _ st 0 Hids)).
  assert (Hrest : forall st1, repair_frame g st st1 ->
    sat (health_loop l st1) (fun _ st' => health_frame st st') (fun _ => False)).
  { intros st1 Hrel. pose proof (repair_frame_length _ _ _ Hrel) as Hlen.
    eapply sat_mono.
    - apply IH. intros h ids Hh Hrec.
      destruct Hrel as (_ & Hm & _). rewrite Hm in Hrec by (intros ->; done).
      eapply Forall_impl; [apply (Hpool h ids); [by right|done]|].
      intros j. unfold in_pool. by rewrite Hlen.
    - intros ? st2 H2. simpl in H2.
      exact (health_frame_trans _ _ _ (repair_frame_health _ _ _ Hrel) H2).
    - done. }
  destruct (_ <? 2).
  - mrun. set (st1 := add_cout _ st).
    assert (Hsat : sat (reReplicateFile g st1)
                     (fun _ st' => repair_frame g st1 st') (fun _ => False)).
    { apply reReplicateFile_writes. intros ids Hrec. apply (Hpool g); [by left|done]. }
    destruct (reReplicateFile g st1) as [[[]| |] st2]; try done.
    by apply Hrest.
  - mrun. apply Hrest, repair_frame_refl.
Qed.

Lemma is_active_flip (recover : bool) i (ns : list Node) j :
  in_pool ns i ->
  is_active (alter (if recover then Node_recover else Node_fail) (Z.to_nat (i - 1)) ns) j =
  if decide (j = i) then recover else is_active ns j.
Proof.
  intros Hi. unfold is_active, index_of_id, active_at. rewrite length_alter.
  destruct (decide (j = i)) as [->|Hne].
  - destruct (index_of_id_in_pool _ _ Hi) as [Hidx Hlt]. unfold index_of_id in Hidx.
    rewrite Hidx. rewrite list_lookup_alter_eq.
    destruct (lookup_lt_is_Some_2 _ _ Hlt) as [n ->]. by destruct recover.
  - destruct (_ && _) eqn:Hj; [|done].
    rewrite list_lookup_alter_ne; [done|].
    apply andb_prop in Hj as [Hj1 Hj2]. apply Z.leb_le in Hj1.
    unfold in_pool in Hi. lia.
Qed.

Lemma blob_on_flip (recover : bool) i (ns : list Node) j g :
  blob_on (alter (if recover then Node_recover else Node_fail) (Z.to_nat (i - 1)) ns) j g =
  blob_on ns j g.
Proof.
  unfold blob_on, index_of_id. rewrite length_alter.
  destruct (_ && _); [|done].
  destruct (decide (Z.to_nat (j - 1) = Z.to_nat (i - 1))) as [->|Hne].
  - rewrite list_lookup_alter_eq. destruct (ns !! _) as [n|]; [|done].
    by destruct recover.
  - by rewrite list_lookup_alter_ne.
Qed.

(** [failNode] and [recoverNode] on a node of the pool: the flag is
    written, the health check completes, and the empty line follows. *)
Lemma transition_health_frame (recover : bool) i st :
  (forall g ids, metadata st !! g = Some ids -> Forall (in_pool (nodes st)) ids) ->
  in_pool (nodes st) i ->
  exists st2,
    (if recover then recoverNode i st else failNode i st) =
      (Val tt, add_cout MsgNewline st2) /\
    health_frame (flip_node recover i st) st2.
Proof.
  intros Hpool Hi. rewrite transition_eq by done.
  set (st1 := flip_node recover i st).
  assert (Hsat : sat (health_loop (keys st1) st1)
                   (fun _ st' => health_frame st1 st') (fun _ => False)).
  { apply health_loop_writes; [apply keys_NoDup|].
    intros g ids _ Hrec. subst st1. cbn [flip_node add_cout set_nodes metadata nodes] in *.
    eapply Forall_impl; [by apply (Hpool g)|].
    intros j. unfold in_pool. by rewrite length_alter. }
  destruct (health_loop (keys st1) st1) as [[[]| |] st2] eqn:Hrun; try done.
  assert (Hc : checkReplicaHealth st1 = (Val tt, st2)) by exact Hrun.
  rewrite (bind_val _ _ _ _ _ Hc). by exists st2.
Qed.

End HealthFrames.

(** X10 ([reReplicateFile]).  Whatever it finds, a repair of [f]
    completes without raising an error, keeps the ids and the activity
    flags of the nodes, changes no record and no stored file of another
    name, removes no copy of [f], only ever adds ids at the end of the
    record of [f], and creates no record when there is none. *)
Theorem repair_only_adds (f : string) (st : State) :
  (forall ids, metadata st !! f = Some ids -> Forall (in_pool (nodes st)) ids) ->
  exists st',
    reReplicateFile f st = (Val tt, st') /\
    shape (nodes st') = shape (nodes st) /\
    (forall g, g <> f -> metadata st' !! g = metadata st !! g) /\
    (exists extra, metadata st' !! f = (fun ids => ids ++ extra) <$> metadata st !! f) /\
    (forall i g, g <> f -> blob_on (nodes st') i g = blob_on (nodes st) i g) /\
    (forall i, is_Some (blob_on (nodes st) i f) -> is_Some (blob_on (nodes st') i f)) /\
    (forall g, g <> METADATA_FILE -> files st' !! g = files st !! g).
Proof.
  intros Hpool. pose proof (reReplicateFile_writes f st Hpool) as Hsat.
  destruct (reReplicateFile f st) as [[[]| |] st']; try done.
  exists st'. destruct Hsat as (Hw & Hm & He & Hf).
  destruct (only_writes_blob_on _ _ _ Hw) as [Hother Hkeep].
  split; [done|]. split; [apply Hw|]. done.
Qed.

Lemma repair_only_adds_witness :
  exists st',
    reReplicateFile "a.txt" st_short = (Val tt, st') /\
    shape (nodes st') = shape (nodes st_short) /\
    (forall g, g <> "a.txt" -> metadata st' !! g = metadata st_short !! g) /\
    (exists extra, metadata st' !! "a.txt" =
                   (fun ids => ids ++ extra) <$> metadata st_short !! "a.txt") /\
    (forall i g, g <> "a.txt" -> blob_on (nodes st') i g = blob_on (nodes st_short) i g) /\
    (forall i, is_Some (blob_on (nodes st_short) i "a.txt") ->
               is_Some (blob_on (nodes st') i "a.txt")) /\
    (forall g, g <> METADATA_FILE -> files st' !! g = files st_short !! g).
Proof.
  apply (repair_only_adds "a.txt" st_short).
  intros ids Hg. cbn [st_short metadata] in Hg.
  apply lookup_singleton_Some in Hg as [_ <-].
  repeat constructor; vm_compute; discriminate.
Defined.

(** X11 ([failNode], [recoverNode], [checkReplicaHealth]).  For a node
    of the pool, [failNode] and [recoverNode] complete, set the flag of
    that node and of no other, and the health check they run loses no
    data: every copy that a node held is still there, every record is
    still there with at most ids added at its end, and no file of the
    working directory other than the metadata file is written. *)
Theorem node_transition_keeps_data (recover : bool) (i : Z) (st : State) :
  (forall g ids, metadata st !! g = Some ids -> Forall (in_pool (nodes st)) ids) ->
  in_pool (nodes st) i ->
  exists st',
    (if recover then recoverNode i st else failNode i st) = (Val tt, st') /\
    (forall j, is_active (nodes st') j =
               if decide (j = i) then recover else is_active (nodes st) j) /\
    (forall j g, is_Some (blob_on (nodes st) j g) -> is_Some (blob_on (nodes st') j g)) /\
    records_extended (metadata st) (metadata st') /\
    (forall g, g <> METADATA_FILE -> files st' !! g = files st !! g).
Proof.
  intros Hpool Hi.
  destruct (transition_health_frame recover i st Hpool Hi) as (st2 & -> & [Hs Hk] & Hr & Hf).
  eexists. split; [reflexivity|]. cbn [add_cout nodes metadata files].
  split; [|split; [|done]].
  - intros j. rewrite (shape_is_active _ _ j Hs).
    cbn [flip_node add_cout set_nodes nodes]. by apply is_active_flip.
  - intros j g Hb. apply (keeps_blobs_blob_on (nodes (flip_node recover i st))); [done|].
    cbn [flip_node add_cout set_nodes nodes]. by rewrite blob_on_flip.
Qed.

Lemma node_transition_keeps_data_witness :
  exists st',
    failNode 2 (st_abc true false true true) = (Val tt, st') /\
    (forall j, is_active (nodes st') j =
               if decide (j = 2) then false
               else is_active (nodes (st_abc true false true true)) j) /\
    (forall j g, is_Some (blob_on (nodes (st_abc true false true true)) j g) ->
                 is_Some (blob_on (nodes st') j g)) /\
    records_extended (metadata (st_abc true false true true)) (metadata st') /\
    (forall g, g <> METADATA_FILE ->
               files st' !! g = files (st_abc true false true true) !! g).
Proof.
  apply (node_transition_keeps_data false 2 (st_abc true false true true)).
  - intros g ids Hg. cbn [st_abc metadata] in Hg.
    apply lookup_singleton_Some in Hg as [_ <-].
    repeat constructor; vm_compute; discriminate.
  - split; vm_compute; discriminate.
Defined.

(** X12 ([failNode], [recoverNode]).  An id below 1 or above the number
    of nodes is rejected before any node is touched: the only effect is
    the line that reports the invalid id. *)
Theorem invalid_node_id_rejected (recover : bool) (i : Z) (st : State) :
  ~ in_pool (nodes st) i ->
  (if recover then recoverNode i st else failNode i st) =
  (Val tt, add_cout (MsgInvalidNode i) st).
Proof.
  intros Hi. unfold in_pool in Hi.
  assert (Hv : (i <? 1) || (Z.of_nat (length (nodes st)) <? i) = true).
  { apply orb_true_iff. destruct (Z.ltb_spec i 1); [by left|right].
    apply Z.ltb_lt. lia. }
  destruct recover; unfold recoverNode, failNode; mrun; by rewrite Hv.
Qed.

Lemma invalid_node_id_rejected_witness :
  failNode 5 (st_abc true true true true) =
  (Val tt, add_cout (MsgInvalidNode 5) (st_abc true true true true)) /\
  recoverNode 0 (st_abc true true true true) =
  (Val tt, add_cout (MsgInvalidNode 0) (st_abc true true true true)).
Proof.
  split.
  - apply (invalid_node_id_rejected false 5 (st_abc true true true true)).
    unfold in_pool. simpl. lia.
  - apply (invalid_node_id_rejected true 0 (st_abc true true true true)).
    unfold in_pool. simpl. lia.
Defined.

(** ** Failures and the replication of a file *)

Section Failures.

Lemma active_count_all ns ids :
  Forall (fun i => is_active ns i = true) ids ->
  active_count ns ids = Z.of_nat (length ids).
Proof.
  induction 1 as [|i ids Hi _ IH]; [done|].
  rewrite active_count_cons, Hi, IH. simpl length. lia.
Qed.

Lemma active_count_flip_notin (recover : bool) i ns ids :
  in_pool ns i -> i ∉ ids ->
  active_count
    (alter (if recover then Node_recover else Node_fail) (Z.to_nat (i - 1)) ns) ids =
  active_count ns ids.
Proof.
  intros Hi. induction ids as [|j ids IH]; intros Hnin; [done|].
  apply not_elem_of_cons in Hnin as [Hne Hnin].
  rewrite !active_count_cons, is_active_flip by done.
  rewrite decide_False by done. by rewrite IH.
Qed.

Lemma active_count_fail i ns ids :
  in_pool ns i -> NoDup ids ->
  active_count ns ids - 1 <= active_count (alter Node_fail (Z.to_nat (i - 1)) ns) ids.
Proof.
  intros Hi. induction 1 as [|j ids Hj _ IH].
  - unfold active_count. simpl. lia.
  - rewrite !active_count_cons.
    pose proof (is_active_flip false i ns j Hi) as Hf. cbn [negb] in Hf.
    change (if false then Node_recover else Node_fail) with Node_fail in Hf.
    rewrite Hf. destruct (decide (j = i)) as [->|Hne].
    + pose proof (active_count_flip_notin false i ns ids Hi Hj) as Hsame.
      change (if false then Node_recover else Node_fail) with Node_fail in Hsame.
      rewrite Hsame. destruct (is_active ns i); lia.
    + destruct (is_active ns j); lia.
Qed.

(** The health check leaves alone a file of which no listed node is
    active: nothing can be copied, so neither its record nor any copy of
    it changes while the other files are repaired. *)
Lemma warn_and_repair_dark nd f ids l st :
  NoDup l -> Inv nd st ->
  metadata st !! f = Some ids -> active_count (nodes st) ids = 0 ->
  sat (warn_and_repair l st)
    (fun _ st' =>
       shape (nodes st') = shape (nodes st) /\
       metadata st' !! f = Some ids /\
       forall j, blob_on (nodes st') j f = blob_on (nodes st) j f)
    (fun _ => False).
Proof.
  intros Hnd. revert st. induction Hnd as [|g l Hg Hnd IH]; intros st HI Hrec Hzero.
  { done. }
  cbn [warn_and_repair].
  rewrite (bind_val _ _ st (default [] (metadata st !! g)) st) by done.
  rewrite (bind_val _ _ _ _ _ (count_active_eq _ st 0 (Inv_current_nodes nd st g HI))).
  mrun. set (st1 := add_cout _ st).
  assert (HI1 : Inv nd st1) by done.
  assert (Hstep : exists st2, reReplicateFile g st1 = (Val tt, st2) /\ Inv nd st2 /\
            shape (nodes st2) = shape (nodes st) /\
            metadata st2 !! f = Some ids /\
            forall j, blob_on (nodes st2) j f = blob_on (nodes st) j f).
  { destruct (decide (g = f)) as [->|Hne].
    - exists st1. split; [|done].
      apply (reReplicateFile_noop f st1 ids); [done| |].
      + destruct HI as [_ HI]. by apply (HI f).
      + right. by apply first_active_None.
    - destruct (reReplicateFile_Inv nd g st1 HI1) as [Hval HI2].
      assert (Hp : forall ids', metadata st1 !! g = Some ids' ->
                Forall (in_pool (nodes st1)) ids').
      { intros ids' H'. destruct HI1 as [_ HI1]. by apply (HI1 g). }
      pose proof (reReplicateFile_writes g st1 Hp) as Hsat.
      destruct (reReplicateFile g st1) as [[[]| |] st2]; try done.
      exists st2. split; [done|]. split; [done|].
      destruct Hsat as (Hw & Hm & _ & _).
      destruct (only_writes_blob_on _ _ _ Hw) as [Hother _].
      split; [apply Hw|]. split; [by rewrite Hm|].
      intros j. by apply Hother. }
  destruct Hstep as (st2 & -> & HI2 & Hs2 & Hrec2 & Hb2).
  eapply sat_mono; [apply (IH st2 HI2 Hrec2)| |done].
  - by rewrite (shape_active_count _ _ _ Hs2).
  - intros [] st3 (Hs3 & Hrec3 & Hb3). split; [by rewrite Hs3|]. split; [done|].
    intros j. by rewrite Hb3.
Qed.

End Failures.

(** X13 ([upload], [failNode], [checkReplicaHealth]).  A file that was
    just uploaded tolerates the failure of any one node: the health
    check that [failNode] runs prints no warning for it and leaves its
    record as the upload wrote it, with at least two of its three nodes
    still active. *)
Theorem upload_tolerates_one_failure (f : string) (st st1 : State) (used : list Z)
    (i : Z) :
  pool_wf (nodes st) ->
  (forall g ids, metadata st !! g = Some ids -> Forall (in_pool (nodes st)) ids) ->
  upload f st = (Val tt, st1) ->
  cout st1 = cout st ++ [MsgUploadSuccess used] ->
  in_pool (nodes st) i ->
  exists st2 out,
    failNode i st1 = (Val tt, st2) /\
    cout st2 = cout st1 ++ out /\
    (forall c, MsgWarning f c ∉ out) /\
    metadata st2 !! f = Some used /\
    2 <= active_count (nodes st2) used.
Proof.
  intros Hwf Hrecs Hup Hout Hi.
  assert (HI : Inv false st).
  { split; [done|]. intros g ids Hg. split; [by apply (Hrecs g)|done]. }
  destruct (upload_Inv false f st HI) as [_ HI1]. rewrite Hup in HI1. cbn [snd] in HI1.
  destruct (upload_success f st st1 used Hwf Hup Hout) as (c & Hc & Hst1 & Hused & Hlen).
  destruct (upload_success_replicas f c st) as (Hrec & _ & _ & Hact & _ & _).
  rewrite <- Hst1, placement_active_ids, <- Hused in Hrec, Hact.
  destruct (first_active_ids (nodes st)) as (Hnd & _ & _). rewrite <- Hused in Hnd.
  assert (Hi1 : in_pool (nodes st1) i).
  { rewrite Hst1. unfold in_pool. cbn [upload_success_state nodes].
    by rewrite length_put_all. }
  set (st1' := flip_node false i st1).
  assert (HI1' : Inv false st1') by by apply flip_node_Inv.
  assert (Hcount : 2 <= active_count (nodes st1') used).
  { pose proof (active_count_fail i (nodes st1) used Hi1 Hnd) as Hge.
    rewrite (active_count_all _ _ Hact), Hlen in Hge.
    subst st1'. cbn [flip_node add_cout set_nodes nodes]. lia. }
  set (flagged := filter (degraded st1') (keys st1')).
  assert (Hnot : f ∉ flagged).
  { subst flagged. rewrite elem_of_flagged. intros (ids' & Hf' & Hlt).
    change (metadata st1') with (metadata st1) in Hf'.
    rewrite Hrec in Hf'. injection Hf' as <-. lia. }
  assert (Hop : failNode i st1 = (warn_and_repair flagged >> print MsgNewline) st1').
  { transitivity ((checkReplicaHealth >> print MsgNewline) st1').
    - exact (transition_eq false i st1 Hi1).
    - unfold bind. by rewrite (checkReplicaHealth_eq false st1' HI1'). }
  pose proof (warn_and_repair_sat false flagged st1'
                (NoDup_filter _ _ (keys_NoDup st1')) HI1') as Hsat.
  rewrite Hop. unfold bind at 1.
  destruct (warn_and_repair flagged st1') as [[[]| |] st2]; try done.
  simpl in Hsat. destruct Hsat as (_ & Hs2 & Hm2 & out & Ho & Hw).
  exists (add_cout MsgNewline st2), ([MsgNodeFailed i] ++ out ++ [MsgNewline]).
  split; [done|]. cbn [add_cout cout metadata nodes]. split; [|split; [|split]].
  - rewrite Ho. subst st1'. cbn [flip_node add_cout cout]. by rewrite <- !app_assoc.
  - intros c' Hin. apply elem_of_app in Hin as [Hin|Hin].
    { by apply list_elem_of_singleton in Hin. }
    apply elem_of_app in Hin as [Hin|Hin].
    + apply Hw in Hin as [Hin _]. done.
    + by apply list_elem_of_singleton in Hin.
  - rewrite (Hm2 f Hnot). exact Hrec.
  - by rewrite (shape_active_count _ _ _ Hs2).
Qed.

Lemma upload_tolerates_one_failure_witness :
  exists st2 out,
    failNode 3 (upload "b.txt" (st_new_file true false true true)).2 = (Val tt, st2) /\
    cout st2 = cout (upload "b.txt" (st_new_file true false true true)).2 ++ out /\
    (forall c, MsgWarning "b.txt" c ∉ out) /\
    metadata st2 !! "b.txt" = Some [1; 3; 4] /\
    2 <= active_count (nodes st2) [1; 3; 4].
Proof.
  apply (upload_tolerates_one_failure "b.txt" (st_new_file true false true true)).
  - apply pool4_wf.
  - intros g ids Hg. cbn [st_new_file metadata] in Hg.
    apply lookup_singleton_Some in Hg as [_ <-].
    repeat constructor; vm_compute; discriminate.
  - vm_compute; reflexivity.
  - vm_compute; reflexivity.
  - split; vm_compute; discriminate.
Defined.

(** X14 ([failNode], [checkReplicaHealth], [reReplicateFile],
    [download]).  When the failure of a node leaves a file without any
    active listed node, the health check warns that the file has 0
    active replicas and can repair nothing: the record and every stored
    copy of the file stay as they were, and a download of the file
    reports that all replicas are unavailable. *)
Theorem last_replica_lost (f : string) (ids : list Z) (i : Z) (st : State) :
  pool_wf (nodes st) ->
  (forall g l, metadata st !! g = Some l -> Forall (in_pool (nodes st)) l) ->
  in_pool (nodes st) i ->
  metadata st !! f = Some ids ->
  (forall j, j ∈ ids -> j = i \/ is_active (nodes st) j = false) ->
  exists st',
    failNode i st = (Val tt, st') /\
    MsgWarning f 0 ∈ cout st' /\
    metadata st' !! f = Some ids /\
    (forall j, blob_on (nodes st') j f = blob_on (nodes st) j f) /\
    download f st' = (Val tt, add_cout MsgAllReplicasUnavailable st').
Proof.
  intros Hwf Hrecs Hi Hrec Hdown.
  assert (HI : Inv false st).
  { split; [done|]. intros g l Hg. split; [by apply (Hrecs g)|done]. }
  set (st1 := flip_node false i st).
  assert (HI1 : Inv false st1) by by apply flip_node_Inv.
  assert (Hrec1 : metadata st1 !! f = Some ids) by done.
  assert (Hzero : active_count (nodes st1) ids = 0).
  { apply first_active_None, first_active_None_Forall, Forall_forall.
    intros j Hj. subst st1. cbn [flip_node add_cout set_nodes nodes].
    pose proof (is_active_flip false i (nodes st) j Hi) as Hf.
    change (if false then Node_recover else Node_fail) with Node_fail in Hf.
    rewrite Hf. destruct (decide (j = i)); [done|].
    by destruct (Hdown j Hj). }
  set (flagged := filter (degraded st1) (keys st1)).
  assert (Hin : f ∈ flagged).
  { subst flagged. rewrite elem_of_flagged. exists ids. split; [done|]. lia. }
  assert (Hop : failNode i st = (warn_and_repair flagged >> print MsgNewline) st1).
  { transitivity ((checkReplicaHealth >> print MsgNewline) st1).
    - exact (transition_eq false i st Hi).
    - unfold bind. by rewrite (checkReplicaHealth_eq false st1 HI1). }
  assert (Hnd : NoDup flagged) by apply NoDup_filter, keys_NoDup.
  pose proof (warn_and_repair_sat false flagged st1 Hnd HI1) as Hsat.
  pose proof (warn_and_repair_dark false f ids flagged st1 Hnd HI1 Hrec1 Hzero) as Hdark.
  rewrite Hop. unfold bind at 1.
  destruct (warn_and_repair flagged st1) as [[[]| |] st2]; try done.
  simpl in Hsat, Hdark.
  destruct Hsat as (HI2 & _ & _ & out & Ho & Hw).
  destruct Hdark as (Hs2 & Hrec2 & Hb2).
  exists (add_cout MsgNewline st2). split; [done|].
  cbn [add_cout cout metadata nodes]. split; [|split; [done|split]].
  - rewrite Ho. apply elem_of_app. left. apply elem_of_app. right.
    apply Hw. split; [done|]. rewrite Hrec. symmetry. exact Hzero.
  - intros j. rewrite Hb2. subst st1. cbn [flip_node add_cout set_nodes nodes].
    apply (blob_on_flip false).
  - rewrite download_eq.
    2: { cbn [add_cout metadata nodes]. intros l Hl. destruct HI2 as [_ HI2].
         by apply (HI2 f). }
    cbn [add_cout metadata nodes]. rewrite Hrec2.
    assert (Hnone : first_active (nodes st2) ids = None).
    { apply first_active_None. by rewrite (shape_active_count _ _ _ Hs2). }
    by rewrite Hnone.
Qed.

Lemma last_replica_lost_witness :
  exists st',
    failNode 3 (st_abc false false true true) = (Val tt, st') /\
    MsgWarning "a.txt" 0 ∈ cout st' /\
    metadata st' !! "a.txt" = Some [1; 2; 3] /\
    (forall j, blob_on (nodes st') j "a.txt" =
               blob_on (nodes (st_abc false false true true)) j "a.txt") /\
    download "a.txt" st' = (Val tt, add_cout MsgAllReplicasUnavailable st').
Proof.
  apply (last_replica_lost "a.txt" [1; 2; 3] 3 (st_abc false false true true)).
  - apply pool4_wf.
  - intros g ids Hg. cbn [st_abc metadata] in Hg.
    apply lookup_singleton_Some in Hg as [_ <-].
    repeat constructor; vm_compute; discriminate.
  - split; vm_compute; discriminate.
  - vm_compute; reflexivity.
  - intros j Hj. apply elem_of_cons in Hj as [->|Hj]; [by right|].
    apply elem_of_cons in Hj as [->|Hj]; [by right|].
    apply list_elem_of_singleton in Hj as ->. by left.
Defined.

(** ** The pool after a restart and after a transition *)

Section PoolReports.

Lemma showNodes_shape st :
  showNodes st = ReportNodesHeader :: ((fun p => ReportNode p.1 p.2) <$> shape (nodes st)).
Proof. unfold showNodes, shape. by rewrite <- list_fmap_compose. Qed.

(** In a pool built by the constructor the node at index [k] has id
    [k + 1], so the ids are 1, 2, ... in order. *)
Lemma shape_pool_wf_eq ns :
  pool_wf ns ->
  shape ns = (fun j => (j, is_active ns j)) <$> seqZ 1 (Z.of_nat (length ns)).
Proof.
  intros Hwf. rewrite seqZ_id_at, <- list_fmap_compose. unfold shape.
  apply list_eq. intros k. rewrite !list_lookup_fmap.
  destruct (ns !! k) as [n|] eqn:Hn.
  - rewrite lookup_seq_lt by by eapply lookup_lt_Some. simpl.
    rewrite is_active_id_at. unfold active_at. rewrite Hn.
    by rewrite (Hwf k n Hn).
  - rewrite lookup_seq_ge by by apply lookup_ge_None. done.
Qed.

Lemma constructor_state totalNodes dirs fs :
  (DistributedFS_new totalNodes dirs fs).1 = Val tt /\
  nodes (DistributedFS_new totalNodes dirs fs).2 =
    (fun i => Node_new i (dirs i)) <$> seqZ 1 totalNodes /\
  files (DistributedFS_new totalNodes dirs fs).2 = fs.
Proof.
  destruct (fs !! METADATA_FILE) as [text|] eqn:Hfile.
  - by rewrite (constructor_eq _ _ _ _ Hfile).
  - unfold DistributedFS_new, loadMetadata. mrun. by rewrite Hfile.
Qed.

End PoolReports.

(** X15 ([Node::Node], [DistributedFS::DistributedFS], [showNodes]).
    The constructor always completes, whatever the metadata file holds,
    and changes no file of the working directory.  It builds the nodes
    1 to [totalNodes] in order, all of them active (the activity flags
    are not stored anywhere, so a node that had failed is active again
    after a restart), each with the content that its directory has on
    disk. *)
Theorem constructor_starts_all_active (totalNodes : Z) (dirs : Z -> Directory)
    (fs : gmap string string) :
  (DistributedFS_new totalNodes dirs fs).1 = Val tt /\
  files (DistributedFS_new totalNodes dirs fs).2 = fs /\
  showNodes (DistributedFS_new totalNodes dirs fs).2 =
    ReportNodesHeader :: ((fun j => ReportNode j true) <$> seqZ 1 totalNodes) /\
  (forall j, is_active (nodes (DistributedFS_new totalNodes dirs fs).2) j = true <->
             1 <= j <= totalNodes) /\
  (forall j g, 1 <= j <= totalNodes ->
     blob_on (nodes (DistributedFS_new totalNodes dirs fs).2) j g = blobs (dirs j) !! g).
Proof.
  destruct (constructor_state totalNodes dirs fs) as (Hval & Hnodes & Hfiles).
  split; [done|]. split; [done|]. rewrite Hnodes.
  assert (Hlook : forall j, 1 <= j <= totalNodes ->
            ((fun i => Node_new i (dirs i)) <$> seqZ 1 totalNodes) !! Z.to_nat (j - 1) =
            Some (Node_new j (dirs j))).
  { intros j Hj. rewrite list_lookup_fmap, lookup_seqZ_lt by lia.
    replace (1 + Z.of_nat (Z.to_nat (j - 1))) with j by lia. done. }
  assert (Hlen : Z.of_nat (length ((fun i => Node_new i (dirs i)) <$> seqZ 1 totalNodes)) =
                 Z.max 0 totalNodes).
  { rewrite length_fmap, length_seqZ. lia. }
  split; [|split].
  - unfold showNodes. rewrite Hnodes, <- list_fmap_compose. done.
  - intros j. unfold is_active, index_of_id, active_at. rewrite Hlen.
    destruct (Z.leb_spec 1 j) as [H1|H1]; simpl; [|split; [done|lia]].
    destruct (Z.leb_spec j (Z.max 0 totalNodes)) as [H2|H2]; [|split; [done|lia]].
    rewrite Hlook by lia. simpl. split; [lia|done].
  - intros j g Hj. unfold blob_on, index_of_id. rewrite Hlen.
    destruct (Z.leb_spec 1 j) as [H1|H1]; [|lia].
    destruct (Z.leb_spec j (Z.max 0 totalNodes)) as [H2|H2]; [|lia].
    simpl. by rewrite Hlook.
Qed.

(** X16 ([failNode], [recoverNode], [showNodes]).  After [failNode] or
    [recoverNode] on a node of the pool, [showNodes] lists the nodes 1
    to N in order, the node of the command with its new status and
    every other node with the status it had: the repairs that the
    health check runs change no status. *)
Theorem showNodes_after_transition (recover : bool) (i : Z) (st : State) :
  pool_wf (nodes st) ->
  (forall g ids, metadata st !! g = Some ids -> Forall (in_pool (nodes st)) ids) ->
  in_pool (nodes st) i ->
  exists st',
    (if recover then recoverNode i st else failNode i st) = (Val tt, st') /\
    showNodes st' =
      ReportNodesHeader ::
      ((fun j => ReportNode j (if decide (j = i) then recover
                               else is_active (nodes st) j))
         <$> seqZ 1 (Z.of_nat (length (nodes st)))).
Proof.
  intros Hwf Hpool Hi.
  destruct (transition_health_frame recover i st Hpool Hi) as (st2 & -> & [Hs _] & _).
  eexists. split; [reflexivity|].
  rewrite showNodes_shape. cbn [add_cout nodes]. rewrite Hs.
  assert (Hwf1 : pool_wf (nodes (flip_node recover i st))).
  { assert (HI : Inv false st).
    { split; [done|]. intros g ids Hg. split; [by apply (Hpool g)|done]. }
    apply (flip_node_Inv false recover i st HI). }
  rewrite (shape_pool_wf_eq _ Hwf1), <- list_fmap_compose.
  cbn [flip_node add_cout set_nodes nodes]. rewrite length_alter.
  f_equal. apply list_fmap_ext. intros k j _. simpl.
  by rewrite is_active_flip.
Qed.

Lemma showNodes_after_transition_witness :
  exists st',
    failNode 2 (st_abc true true true true) = (Val tt, st') /\
    showNodes st' =
      ReportNodesHeader ::
      ((fun j => ReportNode j (if decide (j = 2) then false
                               else is_active (nodes (st_abc true true true true)) j))
         <$> seqZ 1 (Z.of_nat (length (nodes (st_abc true true true true))))).
Proof.
  apply (showNodes_after_transition false 2 (st_abc true true true true)).
  - apply pool4_wf.
  - intros g ids Hg. cbn [st_abc metadata] in Hg.
    apply lookup_singleton_Some in Hg as [_ <-].
    repeat constructor; vm_compute; discriminate.
  - split; vm_compute; discriminate.
Defined.

(** ** The command loop *)

Section Parsing.

Lemma is_blank_space c :
  is_blank c = true -> Text.isspace c = true /\ Ascii.eqb c Text.NL = false.
Proof.
  unfold is_blank. intros H. apply orb_prop in H as [H|H];
    apply Ascii.eqb_eq in H; by subst c.
Qed.

Lemma read_word_word w tail :
  all_chars (fun c => negb (Text.isspace c)) w = true -> ends_word tail ->
  read_word (w +:+ tail) = (w, tail).
Proof.
  intros Hw Htail. induction w as [|a w IH]; simpl.
  - destruct tail as [|c tail]; [done|]. simpl in *. by rewrite Htail.
  - rewrite all_chars_cons in Hw. apply andb_prop in Hw as [Ha Hw].
    apply negb_true_iff in Ha. by rewrite Ha, (IH Hw).
Qed.

Lemma skip_space_blanks ws s :
  all_chars Text.isspace ws = true ->
  Text.skip_space (ws +:+ s) = Text.skip_space s.
Proof.
  induction ws as [|a ws IH]; [done|]. rewrite all_chars_cons. intros H.
  apply andb_prop in H as [Ha H]. simpl. by rewrite Ha, IH.
Qed.

Lemma skip_space_only ws :
  all_chars Text.isspace ws = true -> Text.skip_space ws = EmptyString.
Proof.
  induction ws as [|a ws IH]; [done|]. rewrite all_chars_cons. intros H.
  apply andb_prop in H as [Ha H]. simpl. by rewrite Ha, IH.
Qed.

(** The first word of a stream, after any white space. *)
Lemma extract_word_word target ws w tail :
  all_chars Text.isspace ws = true -> is_word w -> ends_word tail ->
  extract_word target (Some (ws +:+ w +:+ tail)) =
  (w, if decide (tail = EmptyString) then None else Some tail).
Proof.
  intros Hws [Hne Hw] Htail. unfold extract_word. rewrite (skip_space_blanks _ _ Hws).
  destruct w as [|a w]; [done|]. pose proof Hw as Hw'.
  rewrite all_chars_cons in Hw. apply andb_prop in Hw as [Ha _].
  apply negb_true_iff in Ha. simpl Text.skip_space. rewrite Ha.
  change (String a (w +:+ tail)) with (String a w +:+ tail).
  by rewrite (read_word_word _ _ Hw' Htail).
Qed.

Lemma extract_word_none target ws :
  all_chars Text.isspace ws = true ->
  extract_word target (Some ws) = (target, None).
Proof. intros Hws. unfold extract_word. by rewrite (skip_space_only _ Hws). Qed.

Lemma before_newline_id s : Text.find Text.NL s = None -> before_newline s = s.
Proof.
  induction s as [|a s IH]; [done|]. simpl.
  destruct (Ascii.eqb a Text.NL); [done|].
  destruct (Text.find Text.NL s); [done|]. intros _. by rewrite IH.
Qed.

Lemma before_newline_blanks ws s :
  all_chars is_blank ws = true -> Text.find Text.NL s = None ->
  before_newline (ws +:+ s) = ws +:+ s.
Proof.
  intros Hws Hs. induction ws as [|a ws IH]; simpl.
  - by apply before_newline_id.
  - rewrite all_chars_cons in Hws. apply andb_prop in Hws as [Ha Hws].
    destruct (is_blank_space _ Ha) as [_ ->]. by rewrite (IH Hws).
Qed.

Lemma trim_left_blanks ws s :
  all_chars is_blank ws = true -> trim_left (ws +:+ s) = trim_left s.
Proof.
  induction ws as [|a ws IH]; [done|]. rewrite all_chars_cons. intros H.
  apply andb_prop in H as [Ha H]. simpl. by rewrite Ha, IH.
Qed.

Lemma blanks_ends_word ws s :
  ws <> EmptyString -> all_chars is_blank ws = true -> ends_word (ws +:+ s).
Proof.
  destruct ws as [|a ws]; [done|]. intros _. rewrite all_chars_cons.
  intros H. apply andb_prop in H as [Ha _]. simpl. by apply is_blank_space.
Qed.

Lemma blanks_space ws : all_chars is_blank ws = true -> all_chars Text.isspace ws = true.
Proof. apply all_chars_impl. intros a Ha. by apply is_blank_space. Qed.

Lemma append_not_empty (s1 s2 : string) : s1 <> EmptyString -> s1 +:+ s2 <> EmptyString.
Proof. by destruct s1. Qed.

(** The dispatch on the first word of the line. *)
Lemma main_step_word (ws w tail : string) (sh : Shell) :
  all_chars Text.isspace ws = true -> is_word w -> ends_word tail ->
  let ss := if decide (tail = EmptyString) then None else Some tail in
  let sh1 := {| dfs := dfs sh; cmd := w; arg := arg sh;
                screen := screen sh ++ [OutPrompt] |} in
  main_step (ws +:+ w +:+ tail) sh =
    if decide (w = "upload") then file_command "upload" upload ss sh1
    else if decide (w = "download") then file_command "download" download ss sh1
    else if decide (w = "delete") then file_command "delete" deleteFile ss sh1
    else if decide (w = "list") then Running (show (OutReport <$> listFiles (dfs sh1)) sh1)
    else if decide (w = "fail") then node_command "fail" failNode ss sh1
    else if decide (w = "recover") then node_command "recover" recoverNode ss sh1
    else if decide (w = "nodes") then Running (show (OutReport <$> showNodes (dfs sh1)) sh1)
    else if decide (w = "exit") then Exited sh1
    else Running (show [OutInvalidCommand] sh1).
Proof.
  intros Hws Hw Htail ss sh1. unfold main_step.
  rewrite decide_False.
  2: { destruct ws as [|a ws]; [|done]. simpl. apply (append_not_empty w tail), Hw. }
  by rewrite (extract_word_word (cmd (show [OutPrompt] sh)) ws w tail Hws Hw Htail).
Qed.

Lemma main_step_first_word (w tail : string) (sh : Shell) :
  is_word w -> ends_word tail ->
  let ss := if decide (tail = EmptyString) then None else Some tail in
  let sh1 := {| dfs := dfs sh; cmd := w; arg := arg sh;
                screen := screen sh ++ [OutPrompt] |} in
  main_step (w +:+ tail) sh =
    if decide (w = "upload") then file_command "upload" upload ss sh1
    else if decide (w = "download") then file_command "download" download ss sh1
    else if decide (w = "delete") then file_command "delete" deleteFile ss sh1
    else if decide (w = "list") then Running (show (OutReport <$> listFiles (dfs sh1)) sh1)
    else if decide (w = "fail") then node_command "fail" failNode ss sh1
    else if decide (w = "recover") then node_command "recover" recoverNode ss sh1
    else if decide (w = "nodes") then Running (show (OutReport <$> showNodes (dfs sh1)) sh1)
    else if decide (w = "exit") then Exited sh1
    else Running (show [OutInvalidCommand] sh1).
Proof. exact (main_step_word EmptyString w tail sh eq_refl). Qed.

Lemma append_empty_r (s : string) : s +:+ EmptyString = s.
Proof.
  induction s as [|a s IH]; [done|].
  change (String a (s +:+ EmptyString) = String a s). by f_equal.
Qed.

(** A line that is one word. *)
Lemma main_step_one_word (w : string) (sh : Shell) :
  is_word w ->
  let ss : option string := None in
  let sh1 := {| dfs := dfs sh; cmd := w; arg := arg sh;
                screen := screen sh ++ [OutPrompt] |} in
  main_step w sh =
    if decide (w = "upload") then file_command "upload" upload ss sh1
    else if decide (w = "download") then file_command "download" download ss sh1
    else if decide (w = "delete") then file_command "delete" deleteFile ss sh1
    else if decide (w = "list") then Running (show (OutReport <$> listFiles (dfs sh1)) sh1)
    else if decide (w = "fail") then node_command "fail" failNode ss sh1
    else if decide (w = "recover") then node_command "recover" recoverNode ss sh1
    else if decide (w = "nodes") then Running (show (OutReport <$> showNodes (dfs sh1)) sh1)
    else if decide (w = "exit") then Exited sh1
    else Running (show [OutInvalidCommand] sh1).
Proof.
  intros Hw. pose proof (main_step_first_word w EmptyString sh Hw I) as H.
  by rewrite append_empty_r in H.
Qed.

Lemma is_word_literal w :
  w <> EmptyString -> all_chars (fun c => negb (Text.isspace c)) w = true -> is_word w.
Proof. by split. Qed.

End Parsing.

Section SessionSafety.






Lemma main_loop_app l1 l2 sh :
  main_loop (l1 ++ l2) sh =
  match main_loop l1 sh with
  | Running sh' => main_loop l2 sh'
  | other => other
  end.
Proof.
  revert sh. induction l1 as [|line l1 IH]; intros sh; [done|].
  simpl. by destruct (main_step line sh).
Qed.

End SessionSafety.

(** X17 ([main]).  [upload], [download] and [delete] take as file name
    everything that follows the command word, without the blanks and
    tabs in front of it: the name may contain spaces, and spaces at its
    end are part of it. *)
Theorem file_command_takes_rest_of_line (sh : Shell) (blanks name : string) :
  blanks <> EmptyString -> all_chars is_blank blanks = true ->
  name <> EmptyString -> trim_left name = name -> Text.find Text.NL name = None ->
  main_step ("upload" +:+ blanks +:+ name) sh =
    call (upload name)
      {| dfs := dfs sh; cmd := "upload"; arg := name;
         screen := screen sh ++ [OutPrompt] |} /\
  main_step ("download" +:+ blanks +:+ name) sh =
    call (download name)
      {| dfs := dfs sh; cmd := "download"; arg := name;
         screen := screen sh ++ [OutPrompt] |} /\
  main_step ("delete" +:+ blanks +:+ name) sh =
    call (deleteFile name)
      {| dfs := dfs sh; cmd := "delete"; arg := name;
         screen := screen sh ++ [OutPrompt] |}.
Proof.
  intros Hb Hblank Hname Htrim Hnl.
  pose proof (blanks_ends_word blanks name Hb Hblank) as Hends.
  assert (Harg : forall a, trim_left (getline_rest a
            (if decide (blanks +:+ name = EmptyString) then None
             else Some (blanks +:+ name))) = name).
  { intros a. rewrite decide_False by by apply append_not_empty.
    cbn [getline_rest]. rewrite before_newline_blanks by done.
    by rewrite trim_left_blanks. }
  repeat split.
  - rewrite (main_step_first_word "upload" _ sh (is_word_literal "upload" ltac:(done) eq_refl) Hends).
    rewrite decide_True by done. unfold file_command. cbn [arg].
    rewrite Harg. by rewrite decide_False.
  - rewrite (main_step_first_word "download" _ sh (is_word_literal "download" ltac:(done) eq_refl) Hends).
    rewrite decide_False, decide_True by done. unfold file_command. cbn [arg].
    rewrite Harg. by rewrite decide_False.
  - rewrite (main_step_first_word "delete" _ sh (is_word_literal "delete" ltac:(done) eq_refl) Hends).
    rewrite !decide_False, decide_True by done. unfold file_command. cbn [arg].
    rewrite Harg. by rewrite decide_False.
Qed.

Lemma file_command_takes_rest_of_line_witness :
  main_step "upload   my file.txt "
    {| dfs := st_abc true true true true; cmd := EmptyString; arg := EmptyString;
       screen := [] |} =
  call (upload "my file.txt ")
    {| dfs := st_abc true true true true; cmd := "upload"; arg := "my file.txt ";
       screen := [] ++ [OutPrompt] |}.
Proof.
  refine (proj1 (file_command_takes_rest_of_line
    {| dfs := st_abc true true true true; cmd := EmptyString; arg := EmptyString;
       screen := [] |} "   " "my file.txt " _ _ _ _ _)); first [done | reflexivity].
Defined.

(** X18 ([main]).  [fail] and [recover] convert the first word after
    the command with [stoi] and ignore the rest of the line.  When
    [stoi] reads a number the operation is called with it; when [stoi]
    rejects the word, the exception is not caught and leaves [main]: the
    program stops. *)
Theorem node_command_converts_first_word (sh : Shell) (ws w tail : string) :
  ws <> EmptyString -> all_chars Text.isspace ws = true ->
  is_word w -> ends_word tail ->
  main_step ("fail" +:+ ws +:+ w +:+ tail) sh =
    match Text.stoi w with
    | Some nodeId =>
        call (failNode nodeId)
          {| dfs := dfs sh; cmd := "fail"; arg := w; screen := screen sh ++ [OutPrompt] |}
    | None =>
        Terminated
          {| dfs := dfs sh; cmd := "fail"; arg := w; screen := screen sh ++ [OutPrompt] |}
    end /\
  main_step ("recover" +:+ ws +:+ w +:+ tail) sh =
    match Text.stoi w with
    | Some nodeId =>
        call (recoverNode nodeId)
          {| dfs := dfs sh; cmd := "recover"; arg := w;
             screen := screen sh ++ [OutPrompt] |}
    | None =>
        Terminated
          {| dfs := dfs sh; cmd := "recover"; arg := w;
             screen := screen sh ++ [OutPrompt] |}
    end.
Proof.
  intros Hne Hws Hw Htail.
  assert (Hends : ends_word (ws +:+ w +:+ tail)).
  { destruct ws as [|a ws]; [done|]. rewrite all_chars_cons in Hws.
    by apply andb_prop in Hws as [Ha _]. }
  assert (Harg : forall a, (extract_word a
            (if decide (ws +:+ w +:+ tail = EmptyString) then None
             else Some (ws +:+ w +:+ tail))).1 = w).
  { intros a. rewrite decide_False by by apply append_not_empty.
    by rewrite (extract_word_word a ws w tail Hws Hw Htail). }
  destruct Hw as [Hwne Hwc]. split.
  - rewrite (main_step_first_word "fail" _ sh (is_word_literal "fail" ltac:(done) eq_refl) Hends).
    rewrite !decide_False, decide_True by done. unfold node_command. cbn [arg].
    rewrite Harg, decide_False by done. by destruct (Text.stoi w).
  - rewrite (main_step_first_word "recover" _ sh (is_word_literal "recover" ltac:(done) eq_refl) Hends).
    rewrite !decide_False, decide_True by done. unfold node_command. cbn [arg].
    rewrite Harg, decide_False by done. by destruct (Text.stoi w).
Qed.

Lemma node_command_converts_first_word_witness :
  main_step "fail two"
    {| dfs := st_abc true true true true; cmd := EmptyString; arg := EmptyString;
       screen := [] |} =
  Terminated
    {| dfs := st_abc true true true true; cmd := "fail"; arg := "two";
       screen := [] ++ [OutPrompt] |}.
Proof.
  refine (proj1 (node_command_converts_first_word
    {| dfs := st_abc true true true true; cmd := EmptyString; arg := EmptyString;
       screen := [] |} " " "two" EmptyString _ _ _ _)); first [done | by split].
Defined.

(** X19 ([main]).  A line that holds white space but no word is not
    skipped like an empty line: [cmd] keeps the word of the previous
    line, so the previous command runs again, with the argument it left
    in [arg].  Before any command was typed, such a line is answered as
    an invalid command. *)
Theorem blank_line_repeats_command (sh : Shell) (line : string) :
  line <> EmptyString -> all_chars Text.isspace line = true ->
  (is_word (cmd sh) -> main_step line sh = main_step (cmd sh) sh) /\
  (cmd sh = EmptyString ->
   main_step line sh =
   Running {| dfs := dfs sh; cmd := EmptyString; arg := arg sh;
              screen := screen sh ++ [OutPrompt; OutInvalidCommand] |}).
Proof.
  intros Hne Hws.
  assert (Hleft : main_step line sh =
    let ss : option string := None in
    let sh1 := {| dfs := dfs sh; cmd := cmd sh; arg := arg sh;
                  screen := screen sh ++ [OutPrompt] |} in
    if decide (cmd sh = "upload") then file_command "upload" upload ss sh1
    else if decide (cmd sh = "download") then file_command "download" download ss sh1
    else if decide (cmd sh = "delete") then file_command "delete" deleteFile ss sh1
    else if decide (cmd sh = "list")
         then Running (show (OutReport <$> listFiles (dfs sh1)) sh1)
    else if decide (cmd sh = "fail") then node_command "fail" failNode ss sh1
    else if decide (cmd sh = "recover") then node_command "recover" recoverNode ss sh1
    else if decide (cmd sh = "nodes")
         then Running (show (OutReport <$> showNodes (dfs sh1)) sh1)
    else if decide (cmd sh = "exit") then Exited sh1
    else Running (show [OutInvalidCommand] sh1)).
  { unfold main_step. rewrite decide_False by done.
    by rewrite (extract_word_none _ _ Hws). }
  split.
  - intros Hw. rewrite Hleft. by rewrite (main_step_one_word (cmd sh) sh Hw).
  - intros Hc. rewrite Hleft, Hc. cbn zeta. rewrite !decide_False by done.
    unfold show. cbn [dfs cmd arg screen]. by rewrite <- app_assoc.
Qed.

Lemma blank_line_repeats_command_witness :
  main_step "  "
    {| dfs := st_abc true true true true; cmd := "delete"; arg := "a.txt";
       screen := [] |} =
  main_step "delete"
    {| dfs := st_abc true true true true; cmd := "delete"; arg := "a.txt";
       screen := [] |}.
Proof.
  refine (proj1 (blank_line_repeats_command
    {| dfs := st_abc true true true true; cmd := "delete"; arg := "a.txt";
       screen := [] |} "  " _ _) _); first [done | by split].
Defined.

(** X20 ([main]).  A command word typed alone, with nothing after it,
    does not print the usage line when an earlier command left an
    argument in [arg]: the file commands run on that old argument, and
    [fail] and [recover] convert it with [stoi]. *)
Theorem command_alone_reuses_argument (sh : Shell) :
  arg sh <> EmptyString -> trim_left (arg sh) = arg sh ->
  main_step "upload" sh =
    call (upload (arg sh))
      {| dfs := dfs sh; cmd := "upload"; arg := arg sh;
         screen := screen sh ++ [OutPrompt] |} /\
  main_step "download" sh =
    call (download (arg sh))
      {| dfs := dfs sh; cmd := "download"; arg := arg sh;
         screen := screen sh ++ [OutPrompt] |} /\
  main_step "delete" sh =
    call (deleteFile (arg sh))
      {| dfs := dfs sh; cmd := "delete"; arg := arg sh;
         screen := screen sh ++ [OutPrompt] |} /\
  main_step "fail" sh =
    match Text.stoi (arg sh) with
    | Some nodeId =>
        call (failNode nodeId)
          {| dfs := dfs sh; cmd := "fail"; arg := arg sh;
             screen := screen sh ++ [OutPrompt] |}
    | None =>
        Terminated
          {| dfs := dfs sh; cmd := "fail"; arg := arg sh;
             screen := screen sh ++ [OutPrompt] |}
    end /\
  main_step "recover" sh =
    match Text.stoi (arg sh) with
    | Some nodeId =>
        call (recoverNode nodeId)
          {| dfs := dfs sh; cmd := "recover"; arg := arg sh;
             screen := screen sh ++ [OutPrompt] |}
    | None =>
        Terminated
          {| dfs := dfs sh; cmd := "recover"; arg := arg sh;
             screen := screen sh ++ [OutPrompt] |}
    end.
Proof.
  intros Hne Htrim.
  repeat split.
  - rewrite (main_step_one_word "upload" sh (is_word_literal "upload" ltac:(done) eq_refl)).
    rewrite decide_True by done. unfold file_command. cbn [arg getline_rest].
    rewrite Htrim. by rewrite decide_False.
  - rewrite (main_step_one_word "download" sh
               (is_word_literal "download" ltac:(done) eq_refl)).
    rewrite decide_False, decide_True by done. unfold file_command.
    cbn [arg getline_rest]. rewrite Htrim. by rewrite decide_False.
  - rewrite (main_step_one_word "delete" sh (is_word_literal "delete" ltac:(done) eq_refl)).
    rewrite !decide_False, decide_True by done. unfold file_command.
    cbn [arg getline_rest]. rewrite Htrim. by rewrite decide_False.
  - rewrite (main_step_one_word "fail" sh (is_word_literal "fail" ltac:(done) eq_refl)).
    rewrite !decide_False, decide_True by done. unfold node_command.
    cbn [arg extract_word fst]. rewrite decide_False by done.
    by destruct (Text.stoi (arg sh)).
  - rewrite (main_step_one_word "recover" sh
               (is_word_literal "recover" ltac:(done) eq_refl)).
    rewrite !decide_False, decide_True by done. unfold node_command.
    cbn [arg extract_word fst]. rewrite decide_False by done.
    by destruct (Text.stoi (arg sh)).
Qed.

Lemma command_alone_reuses_argument_witness :
  main_step "download"
    {| dfs := st_abc true true true true; cmd := "upload"; arg := "a.txt";
       screen := [] |} =
  call (download "a.txt")
    {| dfs := st_abc true true true true; cmd := "download"; arg := "a.txt";
       screen := [] ++ [OutPrompt] |}.
Proof.
  refine (proj1 (proj2 (command_alone_reuses_argument
    {| dfs := st_abc true true true true; cmd := "upload"; arg := "a.txt";
       screen := [] |} _ _))); done.
Defined.

(** X21 ([main]).  A line whose first word is not one of the eight
    command words is answered as an invalid command and changes nothing
    in the engine; the word is compared as typed, so [help], which the
    answer suggests, and a command in capitals are invalid too. *)
Theorem unknown_command_changes_nothing (sh : Shell) (ws w tail : string) :
  all_chars Text.isspace ws = true -> is_word w -> ends_word tail ->
  w ∉ commands ->
  main_step (ws +:+ w +:+ tail) sh =
  Running {| dfs := dfs sh; cmd := w; arg := arg sh;
             screen := screen sh ++ [OutPrompt; OutInvalidCommand] |}.
Proof.
  intros Hws Hw Htail Hnot.
  rewrite (main_step_word ws w tail sh Hws Hw Htail).
  rewrite !decide_False by (intros ->; apply Hnot; unfold commands; repeat constructor).
  unfold show. cbn [dfs cmd arg screen]. by rewrite <- app_assoc.
Qed.

Lemma unknown_command_changes_nothing_witness :
  main_step "help"
    {| dfs := st_abc true true true true; cmd := EmptyString; arg := EmptyString;
       screen := [] |} =
  Running {| dfs := st_abc true true true true; cmd := "help"; arg := EmptyString;
             screen := [] ++ [OutPrompt; OutInvalidCommand] |}.
Proof.
  refine (unknown_command_changes_nothing
    {| dfs := st_abc true true true true; cmd := EmptyString; arg := EmptyString;
       screen := [] |} EmptyString "help" EmptyString _ _ _ _);
    first [done | by split | idtac].
  by apply (bool_decide_unpack _).
Defined.

(** X22 ([main]).  The loop ends at the first line whose first word is
    [exit]: what follows that word on the line is ignored, the lines
    after it are not read, and the engine is left as the lines before
    it made it. *)
Theorem exit_ends_the_session (before after : list string) (ws tail : string)
    (sh sh' : Shell) :
  main_loop before sh = Running sh' ->
  all_chars Text.isspace ws = true -> ends_word tail ->
  main_loop (before ++ (ws +:+ "exit" +:+ tail) :: after) sh =
  Exited {| dfs := dfs sh'; cmd := "exit"; arg := arg sh';
            screen := screen sh' ++ [OutPrompt] |}.
Proof.
  intros Hrun Hws Htail. rewrite main_loop_app, Hrun. cbn [main_loop].
  rewrite (main_step_word ws "exit" tail sh' Hws
             (is_word_literal "exit" ltac:(done) eq_refl) Htail).
  by rewrite !decide_False, decide_True by done.
Qed.

Lemma exit_ends_the_session_witness :
  main_loop (["nodes"] ++ "exit now" :: ["delete a.txt"])
    {| dfs := st_abc true true true true; cmd := EmptyString; arg := EmptyString;
       screen := [] |} =
  Exited {| dfs := st_abc true true true true; cmd := "exit"; arg := EmptyString;
            screen := ([] ++ [OutPrompt] ++
                       (OutReport <$> showNodes (st_abc true true true true))) ++
                      [OutPrompt] |}.
Proof.
  refine (exit_ends_the_session ["nodes"] ["delete a.txt"] EmptyString " now"
    {| dfs := st_abc true true true true; cmd := EmptyString; arg := EmptyString;
       screen := [] |}
    {| dfs := st_abc true true true true; cmd := "nodes"; arg := EmptyString;
       screen := [] ++ [OutPrompt] ++
                 (OutReport <$> showNodes (st_abc true true true true)) |} _ _ _);
    first [done | vm_compute; reflexivity].
Defined.



(** ** Missing arguments, and recovery on a healthy store *)

Section Usage.

Lemma trim_left_all_blank ws : all_chars is_blank ws = true -> trim_left ws = EmptyString.
Proof.
  induction ws as [|a ws IH]; [done|]. rewrite all_chars_cons. intros H.
  apply andb_prop in H as [Ha H]. simpl. by rewrite Ha, IH.
Qed.

Lemma before_newline_all_blank ws :
  all_chars is_blank ws = true -> before_newline ws = ws.
Proof.
  induction ws as [|a ws IH]; [done|]. rewrite all_chars_cons. intros H.
  apply andb_prop in H as [Ha H]. simpl.
  destruct (is_blank_space _ Ha) as [_ ->]. by rewrite IH.
Qed.

(** The argument that a file command finds when only blanks follow the
    command word. *)
Lemma file_argument_missing (blanks a : string) :
  all_chars is_blank blanks = true -> (blanks = EmptyString -> a = EmptyString) ->
  trim_left (getline_rest a
    (if decide (blanks = EmptyString) then None else Some blanks)) = EmptyString.
Proof.
  intros Hb Ha. destruct (decide (blanks = EmptyString)) as [He|Hne]; simpl.
  - by rewrite (Ha He).
  - rewrite before_newline_all_blank by done. by apply trim_left_all_blank.
Qed.

(** The argument that a node command finds when only white space
    follows the command word. *)
Lemma node_argument_missing (ws a : string) :
  all_chars Text.isspace ws = true ->
  (extract_word a (if decide (ws = EmptyString) then None else Some ws)).1 = a.
Proof.
  intros Hws. destruct (decide (ws = EmptyString)); [done|].
  by rewrite extract_word_none.
Qed.

Lemma spaces_ends_word ws : all_chars Text.isspace ws = true -> ends_word ws.
Proof.
  destruct ws as [|a ws]; [done|]. rewrite all_chars_cons. intros H.
  by apply andb_prop in H as [Ha _].
Qed.

Lemma active_count_recover i ns ids :
  in_pool ns i ->
  active_count ns ids <= active_count (alter Node_recover (Z.to_nat (i - 1)) ns) ids.
Proof.
  intros Hi. induction ids as [|j ids IH]; [done|].
  rewrite !active_count_cons.
  pose proof (is_active_flip true i ns j Hi) as Hf.
  change (if true then Node_recover else Node_fail) with Node_recover in Hf.
  rewrite Hf. destruct (decide (j = i)); destruct (is_active ns j); lia.
Qed.

End Usage.

(** X24 ([main]).  The usage line of a file command is printed, and
    [arg] is left empty, when only blanks and tabs follow the command
    word, or when nothing follows it and [arg] is still empty.  The
    usage line of [fail] and [recover] is printed only while [arg] is
    empty, whatever white space follows the command word. *)
Theorem usage_when_no_argument (sh : Shell) :
  (forall blanks,
     all_chars is_blank blanks = true -> (blanks = EmptyString -> arg sh = EmptyString) ->
     main_step ("upload" +:+ blanks) sh =
       Running {| dfs := dfs sh; cmd := "upload"; arg := EmptyString;
                  screen := screen sh ++ [OutPrompt; OutUsage "upload <filename>"] |} /\
     main_step ("download" +:+ blanks) sh =
       Running {| dfs := dfs sh; cmd := "download"; arg := EmptyString;
                  screen := screen sh ++ [OutPrompt; OutUsage "download <filename>"] |} /\
     main_step ("delete" +:+ blanks) sh =
       Running {| dfs := dfs sh; cmd := "delete"; arg := EmptyString;
                  screen := screen sh ++ [OutPrompt; OutUsage "delete <filename>"] |}) /\
  (forall ws,
     all_chars Text.isspace ws = true -> arg sh = EmptyString ->
     main_step ("fail" +:+ ws) sh =
       Running {| dfs := dfs sh; cmd := "fail"; arg := EmptyString;
                  screen := screen sh ++ [OutPrompt; OutUsage "fail <node_id>"] |} /\
     main_step ("recover" +:+ ws) sh =
       Running {| dfs := dfs sh; cmd := "recover"; arg := EmptyString;
                  screen := screen sh ++ [OutPrompt; OutUsage "recover <node_id>"] |}).
Proof.
  split.
  - intros blanks Hb Ha.
    pose proof (spaces_ends_word _ (blanks_space _ Hb)) as Hends.
    pose proof (file_argument_missing blanks (arg sh) Hb Ha) as Harg.
    repeat split.
    + rewrite (main_step_first_word "upload" _ sh
                 (is_word_literal "upload" ltac:(done) eq_refl) Hends).
      rewrite decide_True by done. unfold file_command. cbn [arg].
      rewrite Harg, decide_True by done. unfold show. cbn [dfs cmd arg screen].
      by rewrite <- app_assoc.
    + rewrite (main_step_first_word "download" _ sh
                 (is_word_literal "download" ltac:(done) eq_refl) Hends).
      rewrite decide_False, decide_True by done. unfold file_command. cbn [arg].
      rewrite Harg, decide_True by done. unfold show. cbn [dfs cmd arg screen].
      by rewrite <- app_assoc.
    + rewrite (main_step_first_word "delete" _ sh
                 (is_word_literal "delete" ltac:(done) eq_refl) Hends).
      rewrite !decide_False, decide_True by done. unfold file_command. cbn [arg].
      rewrite Harg, decide_True by done. unfold show. cbn [dfs cmd arg screen].
      by rewrite <- app_assoc.
  - intros ws Hws Ha.
    pose proof (spaces_ends_word _ Hws) as Hends.
    pose proof (node_argument_missing ws (arg sh) Hws) as Harg.
    split.
    + rewrite (main_step_first_word "fail" _ sh
                 (is_word_literal "fail" ltac:(done) eq_refl) Hends).
      rewrite !decide_False, decide_True by done. unfold node_command. cbn [arg].
      rewrite Harg, Ha, decide_True by done. unfold show. cbn [dfs cmd arg screen].
      by rewrite <- app_assoc.
    + rewrite (main_step_first_word "recover" _ sh
                 (is_word_literal "recover" ltac:(done) eq_refl) Hends).
      rewrite !decide_False, decide_True by done. unfold node_command. cbn [arg].
      rewrite Harg, Ha, decide_True by done. unfold show. cbn [dfs cmd arg screen].
      by rewrite <- app_assoc.
Qed.

(** X25 ([recoverNode], [checkReplicaHealth]).  Recovery never lowers
    the number of active replicas of a file, so on a store where every
    record lists at least two active nodes [recoverNode] repairs
    nothing: it sets the flag of the node, reports the recovery, and
    leaves every record, every directory and the working directory as
    they were. *)
Theorem recover_on_healthy_store (i : Z) (st : State) :
  pool_wf (nodes st) ->
  (forall f ids, metadata st !! f = Some ids ->
     Forall (in_pool (nodes st)) ids /\ 2 <= active_count (nodes st) ids) ->
  in_pool (nodes st) i ->
  recoverNode i st = (Val tt, add_cout MsgNewline (flip_node true i st)) /\
  forall f ids, metadata st !! f = Some ids ->
    active_count (nodes st) ids <= active_count (nodes (flip_node true i st)) ids.
Proof.
  intros Hwf Hrecs Hi.
  assert (Hmono : forall ids,
    active_count (nodes st) ids <= active_count (nodes (flip_node true i st)) ids).
  { intros ids. cbn [flip_node add_cout set_nodes nodes]. by apply active_count_recover. }
  split; [|by intros f ids _].
  assert (HI : Inv false st).
  { split; [done|]. intros f ids Hf. split; [by apply (Hrecs f)|done]. }
  set (st1 := flip_node true i st).
  assert (HI1 : Inv false st1) by by apply flip_node_Inv.
  assert (Hnone : filter (degraded st1) (keys st1) = []).
  { apply elem_of_nil_inv. intros f Hf. apply elem_of_flagged in Hf as (ids & Hf & Hlt).
    change (metadata st1) with (metadata st) in Hf.
    destruct (Hrecs f ids Hf) as [_ Hge]. specialize (Hmono ids). fold st1 in Hmono. lia. }
  transitivity ((checkReplicaHealth >> print MsgNewline) st1).
  - exact (transition_eq true i st Hi).
  - unfold bind. by rewrite (checkReplicaHealth_eq false st1 HI1), Hnone.
Qed.

Lemma recover_on_healthy_store_witness :
  recoverNode 2 (st_abc true false true true) =
  (Val tt, add_cout MsgNewline (flip_node true 2 (st_abc true false true true))).
Proof.
  refine (proj1 (recover_on_healthy_store 2 (st_abc true false true true) _ _ _)).
  - apply pool4_wf.
  - intros g ids Hg. cbn [st_abc metadata] in Hg.
    apply lookup_singleton_Some in Hg as [_ <-]. split.
    + repeat constructor; vm_compute; discriminate.
    + vm_compute. discriminate.
  - split; vm_compute; discriminate.
Defined.
